(** * Geekbench listing scraper: a shallow embedding of [scrape.py]

    The development follows [Datasets/Geekbench/scrape.py] top to bottom:
    Python strings and the character classes the code relies on, the three
    compiled patterns with a small backtracking matcher, the BeautifulSoup
    tree with the handful of queries the parsers issue, the three schema
    parsers, the page fetcher, and the driver with the final DataFrame
    projection.  Theorems come after all definitions.

    Modelling conventions.
    - A Python [str] is a list of Unicode code points.  The character classes
      are those of CPython 3.11 (Unicode 14): [str.isspace] and [\s] agree,
      [\d] is the decimal-digit class that [int] and [float] accept, and
      [str.isdigit] is strictly larger.
    - Python integers are [Z]; [int] on a string keeps the interpreter's
      default limit of 4300 digits.
    - A Python [float] obtained from a digit string is kept as the exact
      decimal it was read from (mantissa and number of fractional digits);
      rounding to binary64 is not modelled.
    - Exceptions are values of [exn]; code that can raise lives in [res].
    - The network is a function from the request number and URL to a reply;
      a reply with a status carries the tree BeautifulSoup builds from its
      body, so HTML tokenising is outside the model.
    - pandas is outside the repository: the frame keeps its columns, rows
      and the origin of every cell, and what pandas' dtype inference makes
      of a column's values is a parameter ([Pandas]).
    - The file system takes every file: [to_csv] does not fail.
    - What [print] writes is not recorded; that a [print] can raise is
      modelled in [scrape_out]. *)

From Stdlib Require Import List NArith ZArith Bool Lia String Ascii.
From Stdlib Require Import DecimalString QArith_base.
From Stdlib Require DecimalZ DecimalPos.
Import ListNotations.

Set Implicit Arguments.

(* ================================================================== *)
(** ** Python strings *)

Definition char := N.
Definition pystr := list char.

(** [str "abc"] is the Python string spelled by an ASCII literal. *)
Definition str (s : string) : pystr :=
  List.map N_of_ascii (list_ascii_of_string s).

Fixpoint pystr_eqb (a b : pystr) : bool :=
  match a, b with
  | [], [] => true
  | x :: a', y :: b' => N.eqb x y && pystr_eqb a' b'
  | _, _ => false
  end.

(** [str.isspace] on one character; also the class [\s] of [re]. *)
Definition isspace (c : char) : bool :=
  ((9 <=? c) && (c <=? 13)
   || (28 <=? c) && (c <=? 32)
   || (c =? 133) || (c =? 160) || (c =? 5760)
   || (8192 <=? c) && (c <=? 8202)
   || (c =? 8232) || (c =? 8233) || (c =? 8239) || (c =? 8287)
   || (c =? 12288))%N.

(** Code points of the digit zero of every decimal script (category Nd);
    the nine following code points are the digits one to nine. *)
Definition decimal_zeros : list N :=
  [48; 1632; 1776; 1984; 2406; 2534; 2662; 2790; 2918; 3046; 3174; 3302;
   3430; 3558; 3664; 3792; 3872; 4160; 4240; 6112; 6160; 6470; 6608; 6784;
   6800; 6992; 7088; 7232; 7248; 42528; 43216; 43264; 43472; 43504; 43600;
   44016; 65296; 66720; 68912; 69734; 69872; 69942; 70096; 70384; 70736;
   70864; 71248; 71360; 71472; 71904; 72016; 72784; 73040; 73120; 92768;
   92864; 93008; 120782; 120792; 120802; 120812; 120822; 123200; 123632;
   125264; 130032]%N.

(** The value of a decimal digit, as [int] and [float] read it. *)
Definition decimal_value (c : char) : option N :=
  match find (fun z => (z <=? c) && (c <? z + 10))%N decimal_zeros with
  | Some z => Some (c - z)%N
  | None => None
  end.

(** The class [\d] of [re], and [str.isdecimal] on one character. *)
Definition isdecimal (c : char) : bool :=
  match decimal_value c with Some _ => true | None => false end.

(** Characters with a digit value that are not decimal digits: superscripts,
    circled and parenthesised digits and the like, as inclusive ranges. *)
Definition other_digit_ranges : list (N * N) :=
  [(178, 179); (185, 185); (4969, 4977); (6618, 6618); (8304, 8304);
   (8308, 8313); (8320, 8329); (9312, 9320); (9332, 9340); (9352, 9360);
   (9450, 9450); (9461, 9469); (9471, 9471); (10102, 10110); (10112, 10120);
   (10122, 10130); (68160, 68163); (69216, 69224); (69714, 69722);
   (127232, 127242)]%N.

Definition isdigit_char (c : char) : bool :=
  isdecimal c
  || existsb (fun r => (fst r <=? c) && (c <=? snd r))%N other_digit_ranges.

(** [s.isdigit()]: non-empty and every character is a digit. *)
Definition isdigit (s : pystr) : bool :=
  match s with [] => false | _ => forallb isdigit_char s end.

Fixpoint lstrip (s : pystr) : pystr :=
  match s with
  | c :: s' => if isspace c then lstrip s' else s
  | [] => []
  end.

Definition rstrip (s : pystr) : pystr := rev (lstrip (rev s)).

(** [s.strip()] *)
Definition strip (s : pystr) : pystr := rstrip (lstrip s).

(** [s.replace(",", "")] *)
Definition replace_comma (s : pystr) : pystr :=
  filter (fun c => negb (c =? 44)%N) s.

Fixpoint startswith (s p : pystr) : bool :=
  match p, s with
  | [], _ => true
  | x :: p', y :: s' => N.eqb x y && startswith s' p'
  | _ :: _, [] => false
  end.

(** [s.endswith(p)] *)
Definition endswith (s p : pystr) : bool := startswith (rev s) (rev p).

(** [p in s] for strings: some suffix of [s] starts with [p]. *)
Fixpoint contains (s p : pystr) : bool :=
  startswith s p || match s with [] => false | _ :: s' => contains s' p end.

(** [sep.join(parts)] *)
Fixpoint join (sep : pystr) (parts : list pystr) : pystr :=
  match parts with
  | [] => []
  | [p] => p
  | p :: rest => p ++ sep ++ join sep rest
  end.

(** [str(n)] for an integer. *)
Definition str_of_int (z : Z) : pystr :=
  str (NilZero.string_of_int (Z.to_int z)).

(* ================================================================== *)
(** ** Exceptions *)

Inductive exn :=
| KeyError
| ValueError
| AttributeError
| HTTPError (status : Z)
| ConnectionError
| UnboundLocalError
| SystemExit (msg : pystr)
| UnicodeEncodeError.

Inductive res (A : Type) :=
| Ret (a : A)
| Raise (e : exn).
Arguments Ret {A} a.
Arguments Raise {A} e.

Definition rbind {A B} (m : res A) (f : A -> res B) : res B :=
  match m with Ret a => f a | Raise e => Raise e end.

Declare Scope res_scope.
Delimit Scope res_scope with res.
Notation "x <- m ;; k" := (rbind m (fun x => k))
  (at level 61, m at next level, right associativity) : res_scope.

(** The value of a string of decimal digits, most significant first. *)
Fixpoint digits_value (acc : N) (s : pystr) : option N :=
  match s with
  | [] => Some acc
  | c :: s' =>
      match decimal_value c with
      | Some d => digits_value (10 * acc + d)%N s'
      | None => None
      end
  end.

(** Digits with single underscores between them, as [int] reads them:
    [prev] tells whether the previous character was a digit. *)
Fixpoint int_body (prev : bool) (acc : N) (s : pystr) : option N :=
  match s with
  | [] => if prev then Some acc else None
  | c :: s' =>
      if (c =? 95)%N then (if prev then int_body false acc s' else None)
      else match decimal_value c with
           | Some d => int_body true (10 * acc + d)%N s'
           | None => None
           end
  end.

(** The interpreter's default limit on the number of digits of a string
    handed to [int] ([sys.get_int_max_str_digits()]). *)
Definition int_max_str_digits : Z := 4300.

(** The digits the limit counts: every character of the body but the
    underscores (blanks and sign are already off; leading zeros count). *)
Definition digit_count (body : pystr) : Z :=
  Z.of_nat (List.length (filter (fun c => negb (c =? 95)%N) body)).

(** [int(s)] for a string: blanks around, an optional sign, decimal digits of
    any script, single underscores between digits; more digits than the
    limit are a [ValueError] as well. *)
Definition py_int (s : pystr) : res Z :=
  let t := strip s in
  let '(neg, body) :=
    match t with
    | c :: t' => if (c =? 45)%N then (true, t')
                 else if (c =? 43)%N then (false, t') else (false, t)
    | [] => (false, t)
    end in
  match int_body false 0%N body with
  | Some n =>
      if (int_max_str_digits <? digit_count body)%Z then Raise ValueError
      else Ret (if neg then - Z.of_N n else Z.of_N n)%Z
  | None => Raise ValueError
  end.

(** A number read by [float], kept exact: [mant / 10 ^ scale]. *)
Record decimal := Dec { mant : N; scale : nat }.

Fixpoint split_dot (s : pystr) : pystr * option pystr :=
  match s with
  | [] => ([], None)
  | c :: s' =>
      if (c =? 46)%N then ([], Some s')
      else let '(a, b) := split_dot s' in (c :: a, b)
  end.

(** [float(s)] on the spellings the callers produce: decimal digits with an
    optional fractional part.  Signs, exponents, [inf] and [nan], which
    [float] also reads, never reach it from group 1 of [MHZ_RE]
    (lemma [mhz_group_is_number]); the model answers [ValueError] there. *)
Definition py_float (s : pystr) : res decimal :=
  match split_dot s with
  | ((_ :: _) as i, None) =>
      match digits_value 0 i with
      | Some n => Ret (Dec n 0)
      | None => Raise ValueError
      end
  | ((_ :: _) as i, Some ((_ :: _) as f)) =>
      match digits_value 0 (i ++ f) with
      | Some n => Ret (Dec n (List.length f))
      | None => Raise ValueError
      end
  | _ => Raise ValueError
  end.

(* ================================================================== *)
(** ** Patterns: a backtracking matcher for the fragment of [re] in use

    The three patterns of the module use single-character classes, literal
    letters (all under [re.I] but one), concatenation, the greedy operators
    [?], [*] and [+], and at most one capturing group.  [bt] tries the
    alternatives in the order of [re]'s backtracking search: more iterations
    before fewer, the optional part before its absence. *)

Inductive regex :=
| Chr (p : char -> bool)
| Cat (r1 r2 : regex)
| Opt (r : regex)
| Star (r : regex)
| Grp (r : regex).

Definition Plus (r : regex) : regex := Cat r (Star r).

Section Backtracking.
Variable A : Type.

(** A continuation receives the rest of the subject and the text captured
    by group 1, if the group has taken part in the match so far. *)
Definition cont := pystr -> option pystr -> option A.

Definition orelse (x y : option A) : option A :=
  match x with Some a => Some a | None => y end.

(** The greedy loop of [r*]: [body] matches one iteration, which must
    consume something; [n] bounds the number of iterations and the
    length of the subject is enough. *)
Fixpoint star_loop (body : pystr -> option pystr -> cont -> option A)
  (k : cont) (n : nat) (s : pystr) (g : option pystr) : option A :=
  match n with
  | O => k s g
  | S n' =>
      orelse
        (body s g (fun s' g' =>
           if (List.length s' <? List.length s)%nat
           then star_loop body k n' s' g' else None))
        (k s g)
  end.

Fixpoint bt (r : regex) (s : pystr) (g : option pystr) (k : cont)
  : option A :=
  match r with
  | Chr p =>
      match s with
      | c :: s' => if p c then k s' g else None
      | [] => None
      end
  | Cat r1 r2 => bt r1 s g (fun s' g' => bt r2 s' g' k)
  | Opt r1 => orelse (bt r1 s g k) (k s g)
  | Star r1 => star_loop (bt r1) k (List.length s) s g
  | Grp r1 =>
      bt r1 s g (fun s' _ =>
        k s' (Some (firstn (List.length s - List.length s') s)))
  end.
End Backtracking.

(** [p.search(s)]: the leftmost position with a match; the result is the
    match's group 1. *)
Fixpoint re_search (r : regex) (s : pystr) : option (option pystr) :=
  match bt r s None (fun _ g => Some g) with
  | Some g => Some g
  | None => match s with [] => None | _ :: s' => re_search r s' end
  end.

(** [re.fullmatch(p, s)] as a truth value. *)
Definition re_fullmatch (r : regex) (s : pystr) : bool :=
  match bt r s None (fun s' _ => match s' with [] => Some tt | _ => None end)
  with Some _ => true | None => false end.

(** [p.sub(repl, s)], scanning left to right; [n] bounds the number of
    positions visited and [S (length s)] is enough. *)
Fixpoint re_sub_from (n : nat) (r : regex) (repl s : pystr) : pystr :=
  match n with
  | O => s
  | S n' =>
      match bt r s None (fun s' _ => Some s') with
      | Some s' =>
          if (List.length s' <? List.length s)%nat
          then repl ++ re_sub_from n' r repl s'
          else repl ++ match s with
                       | [] => []
                       | c :: t => c :: re_sub_from n' r repl t
                       end
      | None =>
          match s with
          | [] => []
          | c :: t => c :: re_sub_from n' r repl t
          end
      end
  end.

Definition re_sub (r : regex) (repl s : pystr) : pystr :=
  re_sub_from (S (List.length s)) r repl s.

(** A literal letter under [re.I]: both cases match. *)
Definition ci (lower upper : N) : regex :=
  Chr (fun c => (c =? lower)%N || (c =? upper)%N).

(** The letter [s] under [re.I] also matches U+017F, the long s. *)
Definition ci_s : regex :=
  Chr (fun c => (c =? 115)%N || (c =? 83)%N || (c =? 383)%N).

Definition lit (x : N) : regex := Chr (fun c => (c =? x)%N).

Definition digit_cls : regex := Chr isdecimal.
Definition space_cls : regex := Chr isspace.

(** [MHZ_RE = re.compile(r"(\d+(?:\.\d+)?)\s*MHz", re.I)] *)
Definition MHZ_RE : regex :=
  Cat (Grp (Cat (Plus digit_cls) (Opt (Cat (lit 46) (Plus digit_cls)))))
      (Cat (Star space_cls)
           (Cat (ci 109 77) (Cat (ci 104 72) (ci 122 90)))).

(** [CORES_RE = re.compile(r"\((\d+)\s+cores?\)", re.I)] *)
Definition CORES_RE : regex :=
  Cat (lit 40)
      (Cat (Grp (Plus digit_cls))
           (Cat (Plus space_cls)
                (Cat (ci 99 67)
                     (Cat (ci 111 79)
                          (Cat (ci 114 82)
                               (Cat (ci 101 69)
                                    (Cat (Opt ci_s) (lit 41)))))))).

(** [WS_RE = re.compile(r"\s+")] *)
Definition WS_RE : regex := Plus space_cls.

(** [oneline(s)]: [WS_RE.sub(" ", s).strip()] *)
Definition oneline (s : pystr) : pystr := strip (re_sub WS_RE [32%N] s).

(* ================================================================== *)
(** ** Python values and dictionaries *)

Inductive pyval :=
| VNone
| VStr (s : pystr)
| VInt (z : Z)
| VFloat (d : decimal).

(** Truth value of an object, as [if x] and [not x] read it. *)
Definition truthy (v : pyval) : bool :=
  match v with
  | VNone => false
  | VStr s => match s with [] => false | _ => true end
  | VInt z => negb (z =? 0)%Z
  | VFloat d => negb (mant d =? 0)%N
  end.

(** A [dict] with string keys, in insertion order. *)
Definition dict := list (pystr * pyval).

Fixpoint dict_get (d : dict) (k : pystr) : option pyval :=
  match d with
  | [] => None
  | (k', v) :: d' => if pystr_eqb k' k then Some v else dict_get d' k
  end.

(** [d[k] = v]: the value is replaced in place, a new key goes last. *)
Fixpoint dict_set (d : dict) (k : pystr) (v : pyval) : dict :=
  match d with
  | [] => [(k, v)]
  | (k', v') :: d' =>
      if pystr_eqb k' k then (k', v) :: d' else (k', v') :: dict_set d' k v
  end.

(** [d[k]] *)
Definition getitem (d : dict) (k : pystr) : res pyval :=
  match dict_get d k with Some v => Ret v | None => Raise KeyError end.

(** [to_int] local to [parse_v4_row] and the module-level [_to_int] have the
    same body: [s = s.replace(",", "").strip();
    return int(s) if re.fullmatch(r"\d+", s) else None]. *)
Definition to_int (s : pystr) : res pyval :=
  let s := strip (replace_comma s) in
  if re_fullmatch (Plus digit_cls) s
  then (z <- py_int s ;; Ret (VInt z))%res
  else Ret VNone.

Definition _to_int (s : pystr) : res pyval := to_int s.

(* ================================================================== *)
(** ** The BeautifulSoup tree and the queries the parsers issue *)

(** A parsed document.  [Comment] stands for every string node that
    [get_text] leaves out (comments, declarations); [attrs] holds the
    attribute values as written in the page, [class] included.  Tag and
    attribute names are in lower case, as [html.parser] delivers them, so
    names are compared as they stand.  The [BeautifulSoup] object itself is
    the tag named [[document]]. *)
#[warnings="-register-all"]
Inductive node :=
| NavigableString (s : pystr)
| Comment (s : pystr)
| Tag (name : pystr) (attrs : list (pystr * pystr)) (contents : list node).

(** Every node below [n] in document order, each with its ancestors
    (nearest first); [n] itself is not listed. *)
Fixpoint walk (anc : list node) (n : node) : list (list node * node) :=
  match n with
  | Tag _ _ cs => flat_map (fun c => (n :: anc, c) :: walk (n :: anc) c) cs
  | _ => []
  end.

(** [n.descendants] *)
Definition descendants (n : node) : list node := List.map snd (walk [] n).

Definition is_tag (n : node) : bool :=
  match n with Tag _ _ _ => true | _ => false end.

Definition tag_name (n : node) : pystr :=
  match n with Tag nm _ _ => nm | _ => [] end.

Fixpoint assoc (l : list (pystr * pystr)) (k : pystr) : option pystr :=
  match l with
  | [] => None
  | (k', v) :: l' => if pystr_eqb k' k then Some v else assoc l' k
  end.

(** [tag.attrs.get(k)] on the written value. *)
Definition attr (n : node) (k : pystr) : option pystr :=
  match n with Tag _ at_ _ => assoc at_ k | _ => None end.

(** [tag[k]] *)
Definition tag_getitem (n : node) (k : pystr) : res pystr :=
  match attr n k with Some v => Ret v | None => Raise KeyError end.

(** The maximal blank-free pieces of [s], as [\S+] finds them; [cur] is
    the piece being read, reversed. *)
Fixpoint split_ws (cur s : pystr) : list pystr :=
  match s with
  | [] => match cur with [] => [] | _ => [rev cur] end
  | c :: s' =>
      if isspace c
      then match cur with
           | [] => split_ws [] s'
           | _ => rev cur :: split_ws [] s'
           end
      else split_ws (c :: cur) s'
  end.

(** The class list BeautifulSoup stores for a tag. *)
Definition classes (n : node) : list pystr :=
  match attr n (str "class") with Some v => split_ws [] v | None => [] end.

Definition has_class (n : node) (c : pystr) : bool :=
  existsb (pystr_eqb c) (classes n).

(** *** CSS selectors (the fragment in use) *)

(** A compound selector: an optional type selector, class selectors, and an
    optional [[name^='prefix']] attribute selector. *)
Record compound := Compound {
  sel_name : option pystr;
  sel_classes : list pystr;
  sel_prefix : option (pystr * pystr)
}.

(** [outer inner]: the descendant combinator. *)
Inductive complex :=
| Simple (c : compound)
| Desc (outer : complex) (c : compound).

(** A comma-separated selector list. *)
Definition selector := list complex.

Definition match_compound (c : compound) (n : node) : bool :=
  is_tag n
  && match sel_name c with
     | Some nm => pystr_eqb (tag_name n) nm
     | None => true
     end
  && forallb (has_class n) (sel_classes c)
  && match sel_prefix c with
     | Some (k, p) =>
         match attr n k with Some v => startswith v p | None => false end
     | None => true
     end.

Fixpoint match_complex (x : complex) (anc : list node) (n : node) : bool :=
  match x with
  | Simple c => match_compound c n
  | Desc outer c =>
      match_compound c n
      && (fix up (anc : list node) : bool :=
            match anc with
            | [] => false
            | a :: anc' => match_complex outer anc' a || up anc'
            end) anc
  end.

Definition match_selector (sel : selector) (anc : list node) (n : node)
  : bool :=
  existsb (fun x => match_complex x anc n) sel.

(** [root.select(sel)]: the matching tags below [root], document order.
    Ancestors are followed up to [root]: that is all of them when [root] is
    the document, and the selectors applied to a tag have no combinator. *)
Definition select (root : node) (sel : selector) : list node :=
  List.map snd
    (filter (fun p => match_selector sel (fst p) (snd p)) (walk [] root)).

(** [root.select_one(sel)] *)
Definition select_one (root : node) (sel : selector) : option node :=
  hd_error (select root sel).

(** [root.find_all(name)] *)
Definition find_all (root : node) (name : pystr) : list node :=
  filter (fun n => is_tag n && pystr_eqb (tag_name n) name)
         (descendants root).

(** [root.find(name)] *)
Definition find (root : node) (name : pystr) : option node :=
  hd_error (find_all root name).

(** [root.find(name, class_=c)] for a blank-free [c]: the first tag of
    that name whose class list has [c]. *)
Definition find_class (root : node) (name c : pystr) : option node :=
  hd_error (filter (fun n => has_class n c) (find_all root name)).

(** The text strings below a tag, document order. *)
Definition _all_strings (n : node) : list pystr :=
  flat_map (fun d => match d with NavigableString s => [s] | _ => [] end)
           (descendants n).

(** [tag.get_text()] *)
Definition get_text (n : node) : pystr := List.concat (_all_strings n).

Definition nonempty (s : pystr) : bool :=
  match s with [] => false | _ => true end.

(** [tag.get_text(" ", strip=True)]: every string stripped, the empty ones
    dropped, the rest joined by one blank. *)
Definition get_text_strip (n : node) : pystr :=
  join [32%N] (filter nonempty (List.map strip (_all_strings n))).

Definition css (name : option string) (cls : list string)
  (prefix : option (string * string)) : complex :=
  Simple (Compound (option_map str name) (List.map str cls)
            (option_map (fun p => (str (fst p), str (snd p))) prefix)).

Definition css_in (outer : complex) (x : complex) : complex :=
  match x with
  | Simple c => Desc outer c
  | Desc _ c => Desc outer c
  end.

(* ================================================================== *)
(** ** Loops in [res] *)

(** [for x in l: s = f(s, x)], stopping at the first exception. *)
Fixpoint fold_res {S X} (f : S -> X -> res S) (s : S) (l : list X) : res S :=
  match l with
  | [] => Ret s
  | x :: l' => (s' <- f s x ;; fold_res f s' l')%res
  end.

(** Truth value of an [Optional[Dict]]: [None] and the empty dictionary are
    false. *)
Definition row_truthy (row : option dict) : bool :=
  match row with Some (_ :: _) => true | _ => false end.

(** The loop of the three page parsers:
    [for x in xs: row = parse(x); if row: out.append(row)]. *)
Definition collect_rows (parse : node -> res (option dict)) (xs : list node)
  : res (list dict) :=
  fold_res (fun out x =>
              row <- parse x ;;
              Ret (match row with
                   | Some d => if row_truthy row then out ++ [d] else out
                   | None => out
                   end))%res
           [] xs.

(** [if m := MHZ_RE.search(text): try: ... = float(m.group(1))
    except ValueError: pass]: the float to store, if any. *)
Definition mhz_match (text : pystr) : option decimal :=
  match re_search MHZ_RE text with
  | Some (Some num) =>
      match py_float num with
      | Ret d => Some d
      | Raise _ => None
      end
  | _ => None
  end.

(** [if m := CORES_RE.search(text): ... = int(m.group(1))]: the integer to
    store, if any. *)
Definition cores_match (text : pystr) : res (option Z) :=
  match re_search CORES_RE text with
  | Some (Some num) => (z <- py_int num ;; Ret (Some z))%res
  | _ => Ret None
  end.

Definition opt_val {A} (f : A -> pyval) (o : option A) : pyval :=
  match o with Some a => f a | None => VNone end.

(** [oneline(x.get_text(" ", strip=True))] *)
Definition cell_text (n : node) : pystr := oneline (get_text_strip n).

(* ------------------------------------------------------------------ *)
(** *** CPU v4 *)

Definition parse_v4_row (tr : node) : res (option dict) :=
  match find_all tr (str "td") with
  | [td0; td1; td2; td3; td4; td5] =>
      match find_class td0 (str "span") (str "timestamp-to-local-min") with
      | None => Ret None
      | Some _ =>
          let uploaded := cell_text td0 in
          let model_a := find td1 (str "a") in
          let system :=
            oneline (match model_a with
                     | Some a => get_text_strip a
                     | None => get_text_strip td1
                     end) in
          let details_span := find td1 (str "span") in
          (dmc <- match details_span with
                  | Some sp =>
                      let details_text := cell_text sp in
                      let mhz := opt_val VFloat (mhz_match details_text) in
                      cores <- cores_match details_text ;;
                      Ret (details_text, mhz, opt_val VInt cores)
                  | None => Ret ([], VNone, VNone)
                  end ;;
           let '(cpu_details, mhz, cores) := dmc in
           let platform := cell_text td2 in
           let user_a := find td3 (str "a") in
           let user :=
             match user_a with Some a => cell_text a | None => [] end in
           single <- to_int (cell_text td4) ;;
           multi <- to_int (cell_text td5) ;;
           Ret (Some
             [ (str "Uploaded", VStr uploaded);
               (str "System", VStr system);
               (str "CPU Details", VStr cpu_details);
               (str "Frequency_MHz", mhz);
               (str "Cores", cores);
               (str "Platform", VStr platform);
               (str "User", VStr user);
               (str "Single-Core Score", single);
               (str "Multi-Core Score", multi);
               (str "Result URL",
                VStr (match model_a with
                      | Some a =>
                          match attr a (str "href") with
                          | Some h => h
                          | None => []
                          end
                      | None => []
                      end));
               (str "Schema", VStr (str "v4")) ]))%res
      end
  | _ => Ret None
  end.

Definition parse_v4_page (soup : node) : res (list dict) :=
  match select_one soup
          [css (Some "table"%string) ["geekbench3-index"]%string None] with
  | None => Ret []
  | Some table => collect_rows parse_v4_row (find_all table (str "tr"))
  end.

(* ------------------------------------------------------------------ *)
(** *** CPU v6 *)

(** [_text(el)]: [el] is a tag or [None]. *)
Definition _text (el : option node) : pystr :=
  match el with
  | Some e => oneline (get_text_strip e)
  | None => []
  end.

Definition in_strs (k : pystr) (l : list string) : bool :=
  existsb (fun s => pystr_eqb k (str s)) l.

Definition sel_sys_col : selector :=
  [css None ["col-12"; "col-lg-4"]%string None].
Definition sel_model : selector := [css None ["list-col-model"]%string None].
Definition sel_stat_col : selector :=
  [css None ["col-6"; "col-md-3"; "col-lg-2"]%string None].
Definition sel_label : selector :=
  [css None ["list-col-subtitle"]%string None;
   css None ["list-col-subtitle-score"]%string None].
Definition sel_text : selector := [css None ["list-col-text"]%string None].
Definition sel_text_score : selector :=
  [css None ["list-col-text-score"]%string None].
Definition sel_user : selector :=
  [css (Some "a"%string) [] (Some ("href", "/user/")%string)].
Definition sel_cards : selector :=
  [css_in (css None ["list-col"]%string None)
          (css None ["list-col-inner"]%string None)].

(** The left column of a card (lines 121-135 and 184-198), the same in both
    card parsers up to the link prefix: system name and result link, then
    the model line. *)
Definition left_column (link_prefix : string) (inner : node) (data : dict)
  : res dict :=
  match select_one inner sel_sys_col with
  | None => Ret data
  | Some sys_col =>
      (data <- match select_one sys_col
                 [css (Some "a"%string) []
                      (Some ("href"%string, link_prefix))] with
               | Some a =>
                   let data := dict_set data (str "System")
                                        (VStr (_text (Some a))) in
                   href <- tag_getitem a (str "href") ;;
                   Ret (dict_set data (str "Result URL") (VStr href))
               | None => Ret data
               end ;;
       match select_one sys_col sel_model with
       | None => Ret data
       | Some model =>
           let model_text := _text (Some model) in
           let data := dict_set data (str "CPU Details") (VStr model_text) in
           let data := match mhz_match model_text with
                       | Some d =>
                           dict_set data (str "Frequency_MHz") (VFloat d)
                       | None => data
                       end in
           cores <- cores_match model_text ;;
           Ret (match cores with
                | Some z => dict_set data (str "Cores") (VInt z)
                | None => data
                end)
       end)%res
  end.

(** [if not data["System"] and not data["Result URL"]: return None;
    return data] (lines 157-159 and 220-222) *)
Definition finish_block (data : dict) : res (option dict) :=
  (s <- getitem data (str "System") ;;
   if negb (truthy s)
   then (u <- getitem data (str "Result URL") ;;
         if negb (truthy u) then Ret None else Ret (Some data))
   else Ret (Some data))%res.

(** One turn of the loop over the statistic columns of a CPU card
    (lines 137-155). *)
Definition cpu_column (data : dict) (col : node) : res dict :=
  match select_one col sel_label with
  | None => Ret data
  | Some label =>
      let key := _text (Some label) in
      if in_strs key ["Uploaded"; "Platform"]%string then
        let val := select_one col sel_text in
        let data := dict_set data key (VStr (_text val)) in
        if pystr_eqb key (str "Uploaded") then
          match select_one col sel_user with
          | Some u => Ret (dict_set data (str "User") (VStr (_text (Some u))))
          | None => Ret data
          end
        else Ret data
      else if in_strs key ["Single-Core Score"; "Multi-Core Score"]%string then
        let val := select_one col sel_text_score in
        (iv <- _to_int (_text val) ;;
         if pystr_eqb key (str "Single-Core Score")
         then Ret (dict_set data (str "Single-Core Score") iv)
         else Ret (dict_set data (str "Multi-Core Score") iv))%res
      else Ret data
  end.

Definition cpu_data0 : dict :=
  [ (str "Uploaded", VStr []); (str "System", VStr []);
    (str "CPU Details", VStr []); (str "Frequency_MHz", VNone);
    (str "Cores", VNone); (str "Platform", VStr []); (str "User", VStr []);
    (str "Single-Core Score", VNone); (str "Multi-Core Score", VNone);
    (str "Result URL", VStr []); (str "Schema", VStr (str "v6")) ].

Definition parse_v6_cpu_block (inner : node) : res (option dict) :=
  (data <- left_column "/v6/cpu/" inner cpu_data0 ;;
   data <- fold_res cpu_column data (select inner sel_stat_col) ;;
   finish_block data)%res.

Definition parse_v6_cpu_page (soup : node) : res (list dict) :=
  collect_rows parse_v6_cpu_block (select soup sel_cards).

(* ------------------------------------------------------------------ *)
(** *** GPU v6 /compute *)

(** One turn of the loop over the statistic columns of a compute card
    (lines 201-218). *)
Definition compute_column (data : dict) (col : node) : res dict :=
  match select_one col sel_label with
  | None => Ret data
  | Some label_el =>
      let label := _text (Some label_el) in
      if in_strs label ["Uploaded"; "Platform"; "API"]%string then
        let val := select_one col sel_text in
        if pystr_eqb label (str "API")
        then Ret (dict_set data (str "API") (VStr (_text val)))
        else Ret (dict_set data label (VStr (_text val)))
      else if endswith label (str "Score") then
        let data := dict_set data (str "Score Label") (VStr label) in
        let val := select_one col sel_text_score in
        (iv <- _to_int (_text val) ;;
         Ret (dict_set data (str "Compute Score") iv))%res
      else Ret data
  end.

Definition compute_data0 : dict :=
  [ (str "Uploaded", VStr []); (str "System", VStr []);
    (str "CPU Details", VStr []); (str "Frequency_MHz", VNone);
    (str "Cores", VNone); (str "Platform", VStr []); (str "API", VStr []);
    (str "Score Label", VStr []); (str "Compute Score", VNone);
    (str "Result URL", VStr []); (str "Schema", VStr (str "v6-compute")) ].

Definition parse_v6_compute_block (inner : node) : res (option dict) :=
  (data <- left_column "/v6/compute/" inner compute_data0 ;;
   data <- fold_res compute_column data (select inner sel_stat_col) ;;
   finish_block data)%res.

Definition parse_v6_compute_page (soup : node) : res (list dict) :=
  collect_rows parse_v6_compute_block (select soup sel_cards).

(* ================================================================== *)
(** ** Pagination *)

Definition sel_pagination : selector :=
  [css (Some "ul"%string) ["pagination"]%string None].

(** [max(nums)] for a non-empty list. *)
Definition py_max (z : Z) (rest : list Z) : Z := fold_left Z.max rest z.

Definition detect_max_pages (soup : node) : res Z :=
  let max_page := 1%Z in
  match select_one soup sel_pagination with
  | None => Ret max_page
  | Some pag =>
      (nums <- fold_res
                 (fun nums a =>
                    let t := strip (get_text a) in
                    if isdigit t
                    then (z <- py_int t ;; Ret (nums ++ [z]))
                    else Ret nums)
                 [] (find_all pag (str "a")) ;;
       Ret (match nums with
            | [] => max_page
            | z :: rest => py_max z rest
            end))%res
  end.

(* ================================================================== *)
(** ** DataFrame: what the driver uses of pandas

    pandas is not part of the repository.  The model keeps what its
    interface fixes: the columns of [DataFrame(records)] are the keys in
    order of first appearance, there is one row per record, in order, and a
    cell comes from its record's value under the column's key.  What the
    constructor makes of the values of a column, the dtype it infers, is
    pandas' own business: a column of integers that holds a null becomes
    float64, so that 8 is stored and written as 8.0 and an integer beyond
    2^53 loses digits.  That part is a parameter: [stored col v] is what a
    cell holds for the value [v] ([None] where the record lacks the key) in
    a column whose values are [col], and [inference_error col] is the
    exception the constructor raises on such a column, if it raises.  Every
    statement about the driver holds for every such behaviour.  A null cell
    is [VNone], for NaN as for [None]. *)

Class Pandas := {
  inference_error : list (option pyval) -> option exn;
  stored : list (option pyval) -> option pyval -> pyval
}.

Record DataFrame := Frame { columns : list pystr; rows : list dict }.

Definition mem (k : pystr) (l : list pystr) : bool := existsb (pystr_eqb k) l.

Definition add_key (cols : list pystr) (k : pystr) : list pystr :=
  if mem k cols then cols else cols ++ [k].

(** [r.get(c)], a missing key read as the null placeholder. *)
Definition cell (r : dict) (c : pystr) : pyval :=
  match dict_get r c with Some v => v | None => VNone end.

Definition project_row (cols : list pystr) (r : dict) : dict :=
  List.map (fun c => (c, cell r c)) cols.

(** The keys of the records, in order of first appearance. *)
Definition union_keys (records : list dict) : list pystr :=
  fold_left (fun cols r => fold_left add_key (List.map fst r) cols)
            records [].

(** The values the records give for the key [c], one per record. *)
Definition column_of (records : list dict) (c : pystr)
  : list (option pyval) :=
  List.map (fun r => dict_get r c) records.

(** The first exception [f] reports along [l]. *)
Fixpoint first_error {A} (f : A -> option exn) (l : list A) : option exn :=
  match l with
  | [] => None
  | x :: l' => match f x with Some e => Some e | None => first_error f l' end
  end.

(** [pd.DataFrame(records)]: the columns are the keys in order of first
    appearance; each column goes through pandas' inference. *)
Definition DataFrame_of {pandas : Pandas} (records : list dict)
  : res DataFrame :=
  let cols := union_keys records in
  match first_error (fun c => inference_error (column_of records c)) cols with
  | Some e => Raise e
  | None =>
      Ret (Frame cols
             (List.map
                (fun r => List.map
                            (fun c => (c, stored (column_of records c)
                                                 (dict_get r c)))
                            cols)
                records))
  end.

(** [df[c] = None] for a column the frame does not have. *)
Definition df_set_none (df : DataFrame) (c : pystr) : DataFrame :=
  Frame (columns df ++ [c]) (List.map (fun r => r ++ [(c, VNone)]) (rows df)).

(** [for c in cols: if c not in df.columns: df[c] = None] *)
Definition fill_missing (cols : list pystr) (df : DataFrame) : DataFrame :=
  fold_left (fun df c => if mem c (columns df) then df else df_set_none df c)
            cols df.

(** [df[cols]]: a label the frame does not have is a [KeyError]. *)
Definition df_getitem (df : DataFrame) (cols : list pystr) : res DataFrame :=
  if forallb (fun c => mem c (columns df)) cols
  then Ret (Frame cols (List.map (project_row cols) (rows df)))
  else Raise KeyError.

(** The content of a written file: header, then one line per row, as the
    table of the cells; how [to_csv] spells a cell is not modelled. *)
Record csv := Csv { header : list pystr; lines : list (list pyval) }.

Definition csv_of (df : DataFrame) : csv :=
  Csv (columns df) (List.map (List.map snd) (rows df)).

(* ================================================================== *)
(** ** The world: network, clock and file system *)

(** What [session.get] comes back with: a response (status and the tree of
    its body) or a transport failure, which [requests] raises. *)
Inductive reply :=
| Reply (status : Z) (body : node)
| NoReply.

Record world := World {
  requests : list pystr;          (* URLs requested so far, oldest first *)
  slept : list Q;                 (* durations passed to [time.sleep] *)
  written : list (pystr * csv)    (* files written by [to_csv] *)
}.

Definition world0 : world := World [] [] [].

Definition M (A : Type) : Type := world -> res A * world.

Definition mret {A} (a : A) : M A := fun w => (Ret a, w).

Definition mbind {A B} (m : M A) (f : A -> M B) : M B :=
  fun w => match m w with
           | (Ret a, w') => f a w'
           | (Raise e, w') => (Raise e, w')
           end.

Definition lift {A} (r : res A) : M A := fun w => (r, w).

Declare Scope M_scope.
Delimit Scope M_scope with M.
Notation "x <- m ;; k" := (mbind m (fun x => k))
  (at level 61, m at next level, right associativity) : M_scope.

Fixpoint fold_M {S X} (f : S -> X -> M S) (s : S) (l : list X) : M S :=
  match l with
  | [] => mret s
  | x :: l' => (s' <- f s x ;; fold_M f s' l')%M
  end.

(** [time.sleep(d)] *)
Definition sleep (d : Q) : M unit :=
  fun w => (Ret tt, World (requests w) (slept w ++ [d]) (written w)).

(** [df.to_csv(path, index=False)] *)
Definition to_csv (df : DataFrame) (path : pystr) : M unit :=
  fun w => (Ret tt,
            World (requests w) (slept w) (written w ++ [(path, csv_of df)])).

(** [range(a, b)] *)
Definition range (a b : Z) : list Z :=
  List.map (fun i => (a + Z.of_nat i)%Z) (seq 0 (Z.to_nat (b - a))).

(** Attribute access on what may be [None]. *)
Definition deref (o : option node) : res node :=
  match o with Some n => Ret n | None => Raise AttributeError end.

(** [r.raise_for_status()]: only the 4xx and 5xx statuses raise. *)
Definition raise_for_status (status : Z) : res unit :=
  if ((400 <=? status) && (status <? 600))%Z
  then Raise (HTTPError status) else Ret tt.

Definition is_v6_cpu (url : pystr) : bool := contains url (str "/v6/cpu").
Definition is_v6_compute (url : pystr) : bool :=
  contains url (str "/v6/compute").
Definition is_v4_cpu (url : pystr) : bool := contains url (str "/v4/cpu").

(** [f"{base}?page={page}"] *)
Definition page_url (base : pystr) (page : Z) : pystr :=
  base ++ str "?page=" ++ str_of_int page.

Definition cpu_cols : list pystr :=
  List.map str
    ["Uploaded"; "System"; "CPU Details"; "Frequency_MHz"; "Cores";
     "Platform"; "User"; "Single-Core Score"; "Multi-Core Score";
     "Result URL"; "Schema"]%string.

Definition gpu_cols : list pystr :=
  List.map str
    ["Uploaded"; "System"; "CPU Details"; "Frequency_MHz"; "Cores";
     "Platform"; "API"; "Score Label"; "Compute Score"; "Result URL";
     "Schema"]%string.

Definition unsupported : pystr :=
  str "Unsupported base URL (expect /v6/compute, /v6/cpu, or /v4/cpu).".

(** The [if]/[elif] chain of [scrape] that names the mode. *)
Definition select_mode (base : pystr) : res pystr :=
  if is_v6_compute base then Ret (str "v6-compute")
  else if is_v6_cpu base then Ret (str "v6-cpu")
  else if is_v4_cpu base then Ret (str "v4-cpu")
  else Raise (SystemExit unsupported).

(** The parser the page loop calls for a mode. *)
Definition parse_page (mode : pystr) (soup : node) : res (list dict) :=
  if pystr_eqb mode (str "v6-compute") then parse_v6_compute_page soup
  else if pystr_eqb mode (str "v6-cpu") then parse_v6_cpu_page soup
  else parse_v4_page soup.

(** The column list of a mode. *)
Definition mode_cols (mode : pystr) : list pystr :=
  if pystr_eqb mode (str "v6-compute") then gpu_cols else cpu_cols.

Section Driver.
(** The site: the reply to the [n]-th request of the run, sent to [url]. *)
Variable server : nat -> pystr -> reply.
Context {pandas : Pandas}.

(** [session.get(url, headers=HEADERS, timeout=30)] *)
Definition session_get (url : pystr) : M (Z * node) :=
  fun w =>
    let w' := World (requests w ++ [url]) (slept w) (written w) in
    match server (List.length (requests w)) url with
    | Reply st body => (Ret (st, body), w')
    | NoReply => (Raise ConnectionError, w')
    end.

(** The [for attempt in ...] loop of [get_soup] and the statement after
    it; [r] is the last response, unbound before the first turn.  The
    result is a document, or [None] when the function falls off its end. *)
Fixpoint get_soup_loop (attempts : list Z) (r : option (Z * node))
  (url : pystr) : M (option node) :=
  match attempts with
  | attempt :: rest =>
      (r <- session_get url ;;
       if (fst r =? 200)%Z then mret (Some (snd r))
       else (_ <- sleep (inject_Z (1 + attempt)) ;;
             get_soup_loop rest (Some r) url))%M
  | [] =>
      match r with
      | Some r => (_ <- lift (raise_for_status (fst r)) ;; mret None)%M
      | None => lift (Raise UnboundLocalError)
      end
  end.

Definition get_soup (url : pystr) : M (option node) :=
  get_soup_loop (range 0 3) None url.

(** One turn of the page loop. *)
Definition scrape_page (base mode : pystr) (first : option node)
  (sleep_s : Q) (all_rows : list dict) (p : Z) : M (list dict) :=
  let url := page_url base p in
  (soup <- (if (p =? 1)%Z then mret first else get_soup url) ;;
   rows <- lift (doc <- deref soup ;; parse_page mode doc)%res ;;
   _ <- sleep sleep_s ;;
   mret (all_rows ++ rows))%M.

Definition scrape (base : pystr) (max_pages : option Z) (out_csv : pystr)
  (sleep_s : Q) : M DataFrame :=
  (first <- get_soup (page_url base 1) ;;
   detected <- lift (doc <- deref first ;; detect_max_pages doc)%res ;;
   let pages :=
     match max_pages with
     | Some m => if truthy (VInt m) && (0 <? m)%Z then m else detected
     | None => detected
     end in
   mode <- lift (select_mode base) ;;
   all_rows <- fold_M (scrape_page base mode first sleep_s) []
                      (range 1 (pages + 1)) ;;
   let cols := mode_cols mode in
   df <- lift (DataFrame_of all_rows) ;;
   let df := fill_missing cols df in
   df <- lift (df_getitem df cols) ;;
   _ <- to_csv df out_csv ;;
   mret df)%M.
End Driver.

(* ================================================================== *)
(** ** Standard output

    [scrape] above is the run on a standard output that takes every line:
    its [print] calls are left out.  A [print] can fail, though, on a closed
    or broken stream or on a character the stream's encoding lacks, and the
    last line [scrape] prints has such characters.  [scrape_out] is the same
    function with its prints, on a stream that is a parameter: [stdout n
    line] is the exception the [n]-th [print] of the run raises when handed
    [line], if it raises.  On a stream that never raises it is [scrape]
    (lemma [scrape_out_quiet]). *)

(** The digits of [f"{n:,}"], last digit first, in groups of three; [k]
    digits stand since the last comma. *)
Fixpoint commas (k : nat) (r : pystr) : pystr :=
  match r with
  | [] => []
  | c :: r' =>
      if (k =? 3)%nat then 44%N :: c :: commas 1 r'
      else c :: commas (S k) r'
  end.

(** [f"{n:,}"] for a length. *)
Definition format_thousands (n : nat) : pystr :=
  rev (commas 0 (rev (str_of_int (Z.of_nat n)))).

(** The line printed before the mode is chosen (line 252). *)
Definition scraping_line (base : pystr) (max_pages : option Z) (pages : Z)
  : pystr :=
  str "Scraping " ++ str_of_int pages ++ str " page(s) from " ++ base
  ++ str " (max_pages="
  ++ (if match max_pages with Some m => truthy (VInt m) | None => false end
      then str "provided" else str "auto")
  ++ str ": " ++ str_of_int pages ++ str ")".

(** The line printed before each page is fetched (line 268). *)
Definition get_line (p pages : Z) (url : pystr) : pystr :=
  str "[" ++ str_of_int p ++ str "/" ++ str_of_int pages ++ str "] GET "
  ++ url.

(** The line printed for a page without records. *)
Definition no_rows_line (mode : pystr) : pystr :=
  if pystr_eqb mode (str "v6-compute")
  then str "  ! No v6 compute blocks found on this page."
  else if pystr_eqb mode (str "v6-cpu")
       then str "  ! No v6 CPU blocks found on this page."
       else str "  ! No v4 CPU rows found on this page.".

(** The last line (line 308); between [rows] and the path the source has
    the three characters U+00E2, U+2020 and U+2019. *)
Definition saved_line (df : DataFrame) (out_csv : pystr) : pystr :=
  str "Saved " ++ format_thousands (List.length (rows df)) ++ str " rows "
  ++ [226; 8224; 8217]%N ++ str " " ++ out_csv.

Section Output.
Variable server : nat -> pystr -> reply.
Context {pandas : Pandas}.
Variable stdout : nat -> pystr -> option exn.

(** [print(line)] as the [n]-th print of the run; the result is the number
    of the next one. *)
Definition print (n : nat) (line : pystr) : M nat :=
  fun w => match stdout n line with
           | Some e => (Raise e, w)
           | None => (Ret (S n), w)
           end.

(** One turn of the page loop, with its prints; the state is the rows so
    far and the number of the next print. *)
Definition scrape_page_out (base mode : pystr) (pages : Z)
  (first : option node) (sleep_s : Q) (st : list dict * nat) (p : Z)
  : M (list dict * nat) :=
  let url := page_url base p in
  (n <- print (snd st) (get_line p pages url) ;;
   soup <- (if (p =? 1)%Z then mret first else get_soup server url) ;;
   rows <- lift (doc <- deref soup ;; parse_page mode doc)%res ;;
   n <- match rows with
        | [] => print n (no_rows_line mode)
        | _ :: _ => mret n
        end ;;
   _ <- sleep sleep_s ;;
   mret (fst st ++ rows, n))%M.

Definition scrape_out (base : pystr) (max_pages : option Z)
  (out_csv : pystr) (sleep_s : Q) : M DataFrame :=
  (first <- get_soup server (page_url base 1) ;;
   detected <- lift (doc <- deref first ;; detect_max_pages doc)%res ;;
   let pages :=
     match max_pages with
     | Some m => if truthy (VInt m) && (0 <? m)%Z then m else detected
     | None => detected
     end in
   n <- print 0 (scraping_line base max_pages pages) ;;
   mode <- lift (select_mode base) ;;
   st <- fold_M (scrape_page_out base mode pages first sleep_s) ([], n)
                (range 1 (pages + 1)) ;;
   let cols := mode_cols mode in
   df <- lift (DataFrame_of (fst st)) ;;
   let df := fill_missing cols df in
   df <- lift (df_getitem df cols) ;;
   _ <- to_csv df out_csv ;;
   _ <- print (snd st) (saved_line df out_csv) ;;
   mret df)%M.
End Output.

(* ================================================================== *)
(** ** What a match is

    [matches r s g s' g']: the pattern [r] matches a prefix of [s] leaving
    [s'], and takes the text of group 1 from [g] to [g'].  The matcher [bt]
    is sound and complete for this relation. *)

Inductive matches : regex -> pystr -> option pystr -> pystr -> option pystr
                    -> Prop :=
| MChr p c s g :
    p c = true -> matches (Chr p) (c :: s) g s g
| MCat r1 r2 s g s1 g1 s2 g2 :
    matches r1 s g s1 g1 -> matches r2 s1 g1 s2 g2 ->
    matches (Cat r1 r2) s g s2 g2
| MOptSome r s g s' g' :
    matches r s g s' g' -> matches (Opt r) s g s' g'
| MOptNone r s g :
    matches (Opt r) s g s g
| MStarNil r s g :
    matches (Star r) s g s g
| MStarCons r s g s1 g1 s2 g2 :
    matches r s g s1 g1 -> (List.length s1 < List.length s)%nat ->
    matches (Star r) s1 g1 s2 g2 ->
    matches (Star r) s g s2 g2
| MGrp r s g s' g' :
    matches r s g s' g' ->
    matches (Grp r) s g s' (Some (firstn (List.length s - List.length s') s)).

(** The words of the frequency rule: a decimal number is a run of digits,
    optionally followed by a point and another run of digits. *)
Definition all_of (p : char -> bool) (s : pystr) : Prop :=
  forallb p s = true.

Definition is_number (num : pystr) : Prop :=
  exists i, i <> [] /\ all_of isdecimal i /\
    (num = i \/ exists f, f <> [] /\ all_of isdecimal f /\
                          num = i ++ [46%N] ++ f).

(** The unit [MHz] in any mix of cases. *)
Definition is_mhz (u : pystr) : Prop :=
  exists m h z, u = [m; h; z] /\
    (m = 109 \/ m = 77)%N /\ (h = 104 \/ h = 72)%N /\ (z = 122 \/ z = 90)%N.

(** [num] occurs in [text] right after [pre], followed by [MHz]; blanks may
    stand between the number and the unit, as in ["3200 MHz"]. *)
Definition mhz_occurrence (text pre num : pystr) : Prop :=
  exists ws u post,
    text = pre ++ num ++ ws ++ u ++ post /\
    is_number num /\ all_of isspace ws /\ is_mhz u.

(** A digit string no longer than [int] accepts. *)
Definition within_limit (s : pystr) : Prop :=
  (Z.of_nat (List.length s) <= int_max_str_digits)%Z.

(** A score cell that can be read: once the thousands separators are
    removed and the blanks around trimmed, a non-empty run of decimal digits
    of value [n], no longer than [int] accepts. *)
Definition parseable_score (text : pystr) (n : N) : Prop :=
  let t := strip (replace_comma text) in
  t <> [] /\ digits_value 0 t = Some n /\ within_limit t.

(** The text columns of the two card schemas. *)
Definition cpu_text_keys : list pystr :=
  List.map str
    ["Uploaded"; "System"; "CPU Details"; "Platform"; "User"; "Result URL";
     "Schema"]%string.

Definition gpu_text_keys : list pystr :=
  List.map str
    ["Uploaded"; "System"; "CPU Details"; "Platform"; "API"; "Score Label";
     "Result URL"; "Schema"]%string.

(** The characters [isspace] accepts, listed. *)
Definition blanks : list N :=
  [9; 10; 11; 12; 13; 28; 29; 30; 31; 32; 133; 160; 5760; 8192; 8193; 8194;
   8195; 8196; 8197; 8198; 8199; 8200; 8201; 8202; 8232; 8233; 8239; 8287;
   12288]%N.

(** The shape of a card record: every text column holds a string, and the
    tag is the parser's own. *)
Definition card_ok (keys : list pystr) (schema : pystr) (d : dict) : Prop :=
  (forall k, mem k keys = true -> exists s, dict_get d k = Some (VStr s)) /\
  dict_get d (str "Schema") = Some (VStr schema).

(** The timestamp marker of a first cell, if it has one. *)
Definition marker_of (td0 : node) : option node :=
  find_class td0 (str "span") (str "timestamp-to-local-min").

(** A statistic column of a compute card that sets the score fields: it
    has a label and the label ends in [Score]. *)
Definition is_score_column (col : node) : bool :=
  match select_one col sel_label with
  | Some label_el => endswith (_text (Some label_el)) (str "Score")
  | None => false
  end.

(* ================================================================== *)
(** ** Sample documents *)

Definition elem (name cls : string) (contents : list node) : node :=
  Tag (str name)
      (match cls with EmptyString => [] | _ => [(str "class", str cls)] end)
      contents.

Definition link (href : string) (contents : list node) : node :=
  Tag (str "a") [(str "href", str href)] contents.

Definition text (s : string) : node := NavigableString (str s).

Definition document (contents : list node) : node :=
  Tag (str "[document]") [] contents.

(** A complete row of the legacy table. *)
Definition legacy_cells : list node :=
  [ elem "td" "" [elem "span" "timestamp-to-local-min" [text "Jan 1 2020"]];
    elem "td" "" [link "/v4/cpu/1" [text " My  PC "];
                  elem "span" "" [text "Intel i7 3200 MHz (8 cores)"]];
    elem "td" "" [text "Linux 64-bit"];
    elem "td" "" [link "/user/bob" [text "bob"]];
    elem "td" "" [text "1,234"];
    elem "td" "" [text "5678"] ].

Definition legacy_row : node := elem "tr" "" legacy_cells.

(** A row with its six cells and the timestamp marker, and nothing else. *)
Definition legacy_row_bare : node :=
  elem "tr" ""
    [ elem "td" "" [elem "span" "timestamp-to-local-min" []];
      elem "td" "" []; elem "td" "" []; elem "td" "" []; elem "td" "" [];
      elem "td" "" [] ].

Definition legacy_doc_bare : node :=
  document [elem "table" "geekbench3-index" [legacy_row_bare]].

Definition stat (label_cls label value_cls value : string) : node :=
  elem "div" "col-6 col-md-3 col-lg-2"
    [elem "span" label_cls [text label]; elem "span" value_cls [text value]].

(** A run of 4301 nines: one digit more than [int] reads. *)
Definition long_digits : pystr := repeat 57%N 4301.

(** The complete row again, with a core count of 4301 digits in its details
    line. *)
Definition long_cores_row : node :=
  elem "tr" ""
    [ elem "td" "" [elem "span" "timestamp-to-local-min" [text "Jan 1 2020"]];
      elem "td" ""
        [ link "/v4/cpu/1" [text "My PC"];
          Tag (str "span") []
            [NavigableString
               (str "Intel i7 (" ++ long_digits ++ str " cores)")] ];
      elem "td" "" [text "Linux 64-bit"];
      elem "td" "" [link "/user/bob" [text "bob"]];
      elem "td" "" [text "1,234"];
      elem "td" "" [text "5678"] ].

(** A compute card with two score columns, the API column last. *)
Definition metal_column : node :=
  stat "list-col-subtitle-score" "Metal Score" "list-col-text-score" "100".

Definition vulkan_label : node :=
  elem "span" "list-col-subtitle-score" [text "Vulkan Score"].

Definition vulkan_column : node :=
  elem "div" "col-6 col-md-3 col-lg-2"
    [vulkan_label; elem "span" "list-col-text-score" [text "2,000"]].

Definition uploaded_column : node :=
  stat "list-col-subtitle" "Uploaded" "list-col-text" "Jan 2 2024".

Definition api_column : node :=
  stat "list-col-subtitle" "API" "list-col-text" "Vulkan".

Definition compute_inner : node :=
  elem "div" "list-col-inner"
    [ elem "div" "row"
        [ elem "div" "col-12 col-lg-4"
            [ link "/v6/compute/9" [text "Mac mini"];
              elem "span" "list-col-model"
                   [text "Apple M1 3200 MHz (8 cores)"] ];
          uploaded_column; metal_column; vulkan_column; api_column ] ].

(** The record the compute parser returns for that card. *)
Definition compute_record : dict :=
  Eval vm_compute in
    match parse_v6_compute_block compute_inner with
    | Ret (Some d) => d
    | _ => []
    end.

Definition compute_doc : node :=
  document [elem "div" "list-col" [compute_inner]].

(** A pagination control whose only link is labelled with U+00B2, the
    superscript two. *)
Definition superscript_doc : node :=
  document
    [ elem "ul" "pagination"
        [elem "li" "" [Tag (str "a") [] [NavigableString [178%N]]]] ].

Definition pagination_doc : node :=
  document
    [ elem "ul" "pagination"
        (List.map (fun l => elem "li" "" [link "#" [text l]])
                  ["1"; "2"; "..."; "5"]%string) ].

(** An instance of pandas' inference for the sample runs.  A column of
    integers that holds a null (and no string) is stored as float64: the
    integer [z] becomes the float [z.0], which is exact below 2^53, as the
    sample values are.  Every other value is stored as it is.  Integers of
    2^53 and more next to a null, and negative integers, do not occur in the
    samples and are outside what this instance describes. *)
Definition is_null (o : option pyval) : bool :=
  match o with None | Some VNone => true | _ => false end.

Definition is_str (o : option pyval) : bool :=
  match o with Some (VStr _) => true | _ => false end.

#[export] Instance sample_pandas : Pandas := {|
  inference_error := fun _ => None;
  stored := fun col o =>
    match o with
    | None => VNone
    | Some (VInt z) =>
        if existsb is_null col && negb (existsb is_str col)
           && (0 <=? z)%Z && (z <? 2 ^ 53)%Z
        then VFloat (Dec (Z.to_N z) 0)
        else VInt z
    | Some v => v
    end
|}.

(** The cell of record [r] in column [c] of the frame built from
    [records] and filled: what pandas stores for the record's value when
    some record has the key, a null when none has. *)
Definition value_at {pandas : Pandas} (records : list dict) (r : dict)
  (c : pystr) : pyval :=
  if mem c (union_keys records)
  then stored (column_of records c) (dict_get r c)
  else VNone.

(** A frame is faithful to the records it was built from when each row
    holds those cells along the frame's columns, and no key of the records
    is missing among the columns. *)
Definition faithful {pandas : Pandas} (records : list dict) (df : DataFrame)
  : Prop :=
  rows df
  = List.map (fun r => List.map (fun c => (c, value_at records r c))
                                (columns df))
             records /\
  forall c, mem c (union_keys records) = true -> mem c (columns df) = true.

(** A site that serves the same legacy listing for every request. *)
Definition legacy_doc : node :=
  document [elem "table" "geekbench3-index" [legacy_row; legacy_row_bare]].

Definition sample_server : nat -> pystr -> reply :=
  fun _ _ => Reply 200 legacy_doc.

Definition sample_base : pystr :=
  str "https://browser.geekbench.com/v4/cpu/search".

Definition sample_run : res DataFrame * world :=
  Eval vm_compute in
    scrape sample_server sample_base (Some 2%Z) (str "out.csv") (1 # 2)
           world0.

Definition sample_frame : DataFrame :=
  Eval vm_compute in
    match fst sample_run with Ret df => df | Raise _ => Frame [] [] end.

Definition sample_world : world := Eval vm_compute in snd sample_run.

(** A base URL with none of the three path fragments. *)
Definition odd_base : pystr := str "https://browser.geekbench.com/v5/cpu".

(* ================================================================== *)
(** ** Further notions used in statements *)

(** What [WS_RE.sub(" ", s)] computes, written as one pass: every run of
    blanks becomes one space; [in_run] tells whether the previous character
    was a blank. *)
Fixpoint collapse (in_run : bool) (s : pystr) : pystr :=
  match s with
  | [] => []
  | c :: t =>
      if isspace c
      then (if in_run then collapse true t else 32%N :: collapse true t)
      else c :: collapse false t
  end.

(** Every blank of [s] is the space U+0020 and stands after a non-blank;
    [after_blank] tells whether a blank stands just before [s]. *)
Fixpoint single_spaced (after_blank : bool) (s : pystr) : bool :=
  match s with
  | [] => true
  | c :: t =>
      if isspace c
      then (c =? 32)%N && negb after_blank && single_spaced true t
      else single_spaced false t
  end.

Definition no_trailing_blank (s : pystr) : bool :=
  match rev s with c :: _ => negb (isspace c) | [] => true end.

(** A string in the form [oneline] produces: no blank at either end, and
    inside only single spaces. *)
Definition normalized (s : pystr) : Prop :=
  single_spaced true s = true /\ no_trailing_blank s = true.

(** The last character of [a] is not a blank; for the empty string, no
    blank stands before it ([b] tells). *)
Definition ends_clean (b : bool) (a : pystr) : bool :=
  match rev a with x :: _ => negb (isspace x) | [] => negb b end.

(** The word [core] or [cores] in any mix of cases; under [re.I] the final
    letter may also be U+017F. *)
Definition is_core_word (u : pystr) : Prop :=
  exists c o r e tail,
    u = [c; o; r; e] ++ tail /\
    (c = 99 \/ c = 67)%N /\ (o = 111 \/ o = 79)%N /\
    (r = 114 \/ r = 82)%N /\ (e = 101 \/ e = 69)%N /\
    (tail = [] \/ exists s, tail = [s] /\ (s = 115 \/ s = 83 \/ s = 383)%N).

(** [num] occurs in [text] right after [pre] as a parenthesised core count:
    an opening parenthesis, the digits, at least one blank, the word and a
    closing parenthesis. *)
Definition cores_occurrence (text pre num : pystr) : Prop :=
  exists ws u post,
    text = pre ++ [40%N] ++ num ++ ws ++ u ++ [41%N] ++ post /\
    num <> [] /\ all_of isdecimal num /\
    ws <> [] /\ all_of isspace ws /\ is_core_word u.

(** A site that answers 503 to every request. *)
Definition busy_server : nat -> pystr -> reply :=
  fun _ _ => Reply 503 (document []).

(** A site whose first two answers are 502 and whose third is the legacy
    listing. *)
Definition flaky_server : nat -> pystr -> reply :=
  fun n _ => match n with
             | 0%nat | 1%nat => Reply 502 (document [])
             | _ => Reply 200 legacy_doc
             end.

(** The records of the containers [xs], in order: one for each container
    the block parser keeps. *)
Definition records_of (parse : node -> res (option dict)) (xs : list node)
  : list dict :=
  flat_map (fun x => match parse x with
                     | Ret (Some d) => [d]
                     | _ => []
                     end) xs.

(** The keys of a dictionary, in order. *)
Definition keys (d : dict) : list pystr := List.map fst d.

(** What a page loop over the containers [xs] comes to: the records in
    document order when every container is parsed, and otherwise the
    [ValueError] of the first container that is not. *)
Definition page_loop_result (parse : node -> res (option dict))
  (xs : list node) (result : res (list dict)) : Prop :=
  match result with
  | Ret rows =>
      rows = records_of parse xs /\
      Forall (fun x => exists r, parse x = Ret r) xs
  | Raise e =>
      e = ValueError /\
      exists pre x post,
        xs = pre ++ x :: post /\
        Forall (fun x => exists r, parse x = Ret r) pre /\
        parse x = Raise ValueError
  end.

(** The element a selector finds under an element that may be missing. *)
Definition sub (o : option node) (sel : selector) : option node :=
  match o with Some n => select_one n sel | None => None end.

(** The statistic column [col] is labelled [k]. *)
Definition labelled (k : pystr) (col : node) : bool :=
  match select_one col sel_label with
  | Some l => pystr_eqb (_text (Some l)) k
  | None => false
  end.

(** An [Uploaded] column with a link to the uploader. *)
Definition has_user (col : node) : bool :=
  labelled (str "Uploaded") col &&
  match select_one col sel_user with Some _ => true | None => false end.

(** The last statistic column of a card that satisfies [p], if any. *)
Definition last_column (p : node -> bool) (inner : node) : option node :=
  List.find p (rev (select inner sel_stat_col)).

(** The result link of a card, if it has one. *)
Definition card_link (prefix : string) (inner : node) : option node :=
  sub (select_one inner sel_sys_col)
      [css (Some "a"%string) [] (Some ("href"%string, prefix))].

(** [a["href"]] where the attribute is known to be there. *)
Definition href (a : node) : pystr :=
  match attr a (str "href") with Some v => v | None => [] end.

(** The page count the driver settles on: the override when it is a
    positive number, else what the detector found on page 1. *)
Definition page_count (max_pages : option Z) (detected : Z) : Z :=
  match max_pages with
  | Some m => if truthy (VInt m) && (0 <? m)%Z then m else detected
  | None => detected
  end.

(** A site that answers 200 to every request. *)
Definition always_ok (server : nat -> pystr -> reply) : Prop :=
  forall n url, exists body, server n url = Reply 200 body.

(** Every key of [ks] is bound in [d] to a string with the property [P]. *)
Definition text_fields (P : pystr -> Prop) (ks : list pystr) (d : dict)
  : Prop :=
  forall k, mem k ks = true -> exists s, dict_get d k = Some (VStr s) /\ P s.

(** The columns a parser fills from page text through [oneline]. *)
Definition cpu_page_text_keys : list pystr :=
  List.map str ["Uploaded"; "System"; "CPU Details"; "Platform"; "User"]%string.

Definition gpu_page_text_keys : list pystr :=
  List.map str
    ["Uploaded"; "System"; "CPU Details"; "Platform"; "API"; "Score Label"]%string.

(** A site that cannot be reached. *)
Definition dead_server : nat -> pystr -> reply := fun _ _ => NoReply.

(** A standard output that takes every line. *)
Definition quiet_stdout : nat -> pystr -> option exn := fun _ _ => None.



(* ================================================================== *)
(** * Theorems *)

(** ** Strings *)

Lemma pystr_eqb_eq (a b : pystr) : pystr_eqb a b = true <-> a = b.
Proof.
  revert b; induction a as [|x a IH]; intros [|y b]; simpl;
    try (split; congruence).
  rewrite andb_true_iff, N.eqb_eq, IH. split.
  - intros [-> ->]; reflexivity.
  - intros H; inversion H; auto.
Qed.

Lemma pystr_eqb_refl (a : pystr) : pystr_eqb a a = true.
Proof. apply pystr_eqb_eq; reflexivity. Qed.

Lemma pystr_eqb_neq (a b : pystr) : pystr_eqb a b = false <-> a <> b.
Proof.
  rewrite <- pystr_eqb_eq. destruct (pystr_eqb a b); split; congruence.
Qed.

Lemma in_strs_In (k : pystr) (l : list string) :
  in_strs k l = true -> In k (List.map str l).
Proof.
  unfold in_strs; rewrite existsb_exists. intros [s [Hin He]].
  apply pystr_eqb_eq in He; subst. now apply in_map.
Qed.

Lemma pystr_eqb_sym_false (a b : pystr) :
  pystr_eqb a b = false -> pystr_eqb b a = false.
Proof. rewrite !pystr_eqb_neq; congruence. Qed.

(** ** Dictionaries *)

Lemma pystr_eqb_comm (a b : pystr) : pystr_eqb a b = pystr_eqb b a.
Proof.
  destruct (pystr_eqb b a) eqn:E.
  - apply pystr_eqb_eq in E; subst. apply pystr_eqb_refl.
  - now apply pystr_eqb_sym_false.
Qed.

Lemma dict_get_set (d : dict) (k k' : pystr) (v : pyval) :
  dict_get (dict_set d k v) k'
  = if pystr_eqb k k' then Some v else dict_get d k'.
Proof.
  induction d as [|[k0 v0] d IH]; simpl.
  - reflexivity.
  - destruct (pystr_eqb k0 k) eqn:E0; simpl.
    + apply pystr_eqb_eq in E0; subst k0.
      now destruct (pystr_eqb k k').
    + rewrite IH. destruct (pystr_eqb k0 k') eqn:E1; auto.
      apply pystr_eqb_eq in E1; subst k'.
      now rewrite (pystr_eqb_sym_false _ _ E0).
Qed.

(** ** The matcher against the relation *)

Lemma orelse_some A (x y : option A) (a : A) :
  orelse x y = Some a -> x = Some a \/ (x = None /\ y = Some a).
Proof. destruct x; simpl; intros; [left | right]; auto. Qed.

Lemma orelse_left A (x y : option A) :
  (exists a, x = Some a) -> exists a, orelse x y = Some a.
Proof. intros [a ->]; simpl; eauto. Qed.

Lemma orelse_right A (x y : option A) :
  (exists a, y = Some a) -> exists a, orelse x y = Some a.
Proof. intros [a ->]; destruct x; simpl; eauto. Qed.

Lemma star_loop_sound A (r : regex)
  (IH : forall s g (k : cont A) a, bt r s g k = Some a ->
        exists s' g', matches r s g s' g' /\ k s' g' = Some a)
  (k : cont A) (a : A) n :
  forall s g, star_loop (bt r) k n s g = Some a ->
  exists s' g', matches (Star r) s g s' g' /\ k s' g' = Some a.
Proof.
  induction n as [|n IHn]; simpl; intros s g H.
  - exists s, g; split; [apply MStarNil | exact H].
  - apply orelse_some in H as [H | [_ H]].
    + apply IH in H as (s1 & g1 & Hm & Hk).
      destruct (List.length s1 <? List.length s)%nat eqn:E; [|discriminate].
      apply Nat.ltb_lt in E.
      apply IHn in Hk as (s2 & g2 & Hm2 & Hk2).
      exists s2, g2; split; [|exact Hk2].
      eapply MStarCons; eauto.
    + exists s, g; split; [apply MStarNil | exact H].
Qed.

Lemma bt_sound A (r : regex) :
  forall s g (k : cont A) a, bt r s g k = Some a ->
  exists s' g', matches r s g s' g' /\ k s' g' = Some a.
Proof.
  induction r as [p | r1 IH1 r2 IH2 | r IH | r IH | r IH];
    intros s g k a H; simpl in H.
  - destruct s as [|c s]; [discriminate|].
    destruct (p c) eqn:E; [|discriminate].
    exists s, g; split; [now constructor | exact H].
  - apply IH1 in H as (s1 & g1 & Hm1 & H).
    apply IH2 in H as (s2 & g2 & Hm2 & H).
    exists s2, g2; split; [econstructor; eauto | exact H].
  - apply orelse_some in H as [H | [_ H]].
    + apply IH in H as (s1 & g1 & Hm & H).
      exists s1, g1; split; [now apply MOptSome | exact H].
    + exists s, g; split; [apply MOptNone | exact H].
  - eapply star_loop_sound; eauto.
  - apply IH in H as (s1 & g1 & Hm & H).
    eexists _, _; split; [econstructor; eauto | exact H].
Qed.

Lemma star_loop_complete A (r : regex)
  (IH : forall s g s' g' (k : cont A), matches r s g s' g' ->
        (exists a, k s' g' = Some a) -> exists a, bt r s g k = Some a)
  (k : cont A) s' g' (Hk : exists a, k s' g' = Some a) n :
  forall s g, (List.length s <= n)%nat -> matches (Star r) s g s' g' ->
  exists a, star_loop (bt r) k n s g = Some a.
Proof.
  induction n as [|n IHn]; intros s g Hlen Hm.
  - inversion Hm; subst.
    + simpl; exact Hk.
    + lia.
  - simpl. inversion Hm; subst.
    + apply orelse_right; exact Hk.
    + apply orelse_left. eapply IH; eauto.
      match goal with H : (List.length _ < List.length s)%nat |- _ =>
        pose proof H as Hlt; apply Nat.ltb_lt in H; rewrite H end.
      apply IHn; [lia | assumption].
Qed.

Lemma bt_complete A (r : regex) :
  forall s g s' g' (k : cont A), matches r s g s' g' ->
  (exists a, k s' g' = Some a) -> exists a, bt r s g k = Some a.
Proof.
  induction r as [p | r1 IH1 r2 IH2 | r IH | r IH | r IH];
    intros s g s' g' k Hm Hk; simpl.
  - inversion Hm; subst.
    match goal with H : p _ = true |- _ => rewrite H end. exact Hk.
  - inversion Hm; subst. eapply IH1; eauto.
  - inversion Hm; subst.
    + apply orelse_left; eauto.
    + apply orelse_right; exact Hk.
  - eapply star_loop_complete; eauto.
  - inversion Hm; subst. eapply IH; eauto.
Qed.

Ltac inv H := inversion H; subst; clear H.

Lemma matches_chr_inv p s g s' g' :
  matches (Chr p) s g s' g' -> exists c, s = c :: s' /\ p c = true /\ g' = g.
Proof. intros H; inv H; eauto. Qed.

Lemma matches_cat_inv r1 r2 s g s2 g2 :
  matches (Cat r1 r2) s g s2 g2 ->
  exists s1 g1, matches r1 s g s1 g1 /\ matches r2 s1 g1 s2 g2.
Proof. intros H; inv H; eauto. Qed.

Lemma matches_opt_inv r s g s' g' :
  matches (Opt r) s g s' g' -> matches r s g s' g' \/ (s = s' /\ g = g').
Proof. intros H; inv H; auto. Qed.

Lemma matches_grp_inv r s g s' g' :
  matches (Grp r) s g s' g' ->
  exists g0, matches r s g s' g0 /\
             g' = Some (firstn (List.length s - List.length s') s).
Proof. intros H; inv H; eauto. Qed.

Lemma matches_star_chr_inv p s g s' g' :
  matches (Star (Chr p)) s g s' g' ->
  exists l, s = l ++ s' /\ all_of p l /\ g' = g.
Proof.
  intros H. remember (Star (Chr p)) as r eqn:Er.
  induction H; inversion Er; subst.
  - exists []; repeat split.
  - apply matches_chr_inv in H as (c & -> & Hc & ->).
    destruct (IHmatches2 eq_refl) as (l & -> & Hl & ->).
    exists (c :: l); repeat split. unfold all_of in *; simpl.
    now rewrite Hc, Hl.
Qed.

Lemma matches_star_chr p l s' g :
  all_of p l -> matches (Star (Chr p)) (l ++ s') g s' g.
Proof.
  unfold all_of; induction l as [|c l IH]; simpl; intros H.
  - apply MStarNil.
  - apply andb_true_iff in H as [Hc Hl].
    eapply MStarCons; [now apply MChr | simpl; lia | auto].
Qed.

Lemma matches_plus_chr_inv p s g s' g' :
  matches (Plus (Chr p)) s g s' g' ->
  exists l, l <> [] /\ s = l ++ s' /\ all_of p l /\ g' = g.
Proof.
  intros H. apply matches_cat_inv in H as (s1 & g1 & H1 & H2).
  apply matches_chr_inv in H1 as (c & -> & Hc & ->).
  apply matches_star_chr_inv in H2 as (l & -> & Hl & ->).
  exists (c :: l); repeat split; [discriminate|].
  unfold all_of in *; simpl; now rewrite Hc, Hl.
Qed.

Lemma matches_plus_chr p l s' g :
  l <> [] -> all_of p l -> matches (Plus (Chr p)) (l ++ s') g s' g.
Proof.
  destruct l as [|c l]; [congruence|]. intros _ H.
  unfold all_of in H; simpl in H. apply andb_true_iff in H as [Hc Hl].
  eapply MCat; [now apply MChr | now apply matches_star_chr].
Qed.

Lemma firstn_prefix (a b s : pystr) :
  s = a ++ b -> firstn (List.length s - List.length b) s = a.
Proof.
  intros ->. rewrite length_app, Nat.add_sub.
  rewrite firstn_app, Nat.sub_diag, firstn_all; simpl. apply app_nil_r.
Qed.

Lemma matches_grp r pre s' g g0 :
  matches r (pre ++ s') g s' g0 -> matches (Grp r) (pre ++ s') g s' (Some pre).
Proof.
  intros H. apply MGrp in H.
  now rewrite (@firstn_prefix pre s' _ eq_refl) in H.
Qed.

(** The matches of [MHZ_RE] are the numbers followed by the unit. *)
Lemma matches_MHZ_RE s s' g' :
  matches MHZ_RE s None s' g' <->
  exists num ws u,
    s = num ++ ws ++ u ++ s' /\ is_number num /\ all_of isspace ws /\
    is_mhz u /\ g' = Some num.
Proof.
  unfold MHZ_RE, digit_cls, space_cls, ci, lit. split.
  - intros H.
    apply matches_cat_inv in H as (s1 & g1 & Hg & H).
    apply matches_grp_inv in Hg as (g0 & Hn & ->).
    apply matches_cat_inv in Hn as (s2 & g2 & Hi & Ho).
    apply matches_plus_chr_inv in Hi as (i & Hi & -> & Hdi & ->).
    apply matches_cat_inv in H as (s3 & g3 & Hws & H).
    apply matches_star_chr_inv in Hws as (ws & -> & Hws & ->).
    apply matches_cat_inv in H as (s4 & g4 & Hm & H).
    apply matches_chr_inv in Hm as (m & -> & Hm & ->).
    apply matches_cat_inv in H as (s5 & g5 & Hh & Hz).
    apply matches_chr_inv in Hh as (h & -> & Hh & ->).
    apply matches_chr_inv in Hz as (z & -> & Hz & ->).
    assert (Hu : is_mhz [m; h; z]).
    { unfold is_mhz. exists m, h, z; repeat split;
        rewrite orb_true_iff, !N.eqb_eq in *; assumption. }
    apply matches_opt_inv in Ho as [Ho | [-> <-]].
    + apply matches_cat_inv in Ho as (s6 & g6 & Hc & Hf).
      apply matches_chr_inv in Hc as (c & -> & Hc & ->).
      apply N.eqb_eq in Hc; subst c.
      apply matches_plus_chr_inv in Hf as (f & Hf & -> & Hdf & ->).
      exists (i ++ [46%N] ++ f), ws, [m; h; z].
      split; [|split; [|split; [|split]]]; auto.
      * now rewrite <- !app_assoc.
      * unfold is_number. exists i; split; [|split]; auto.
        right. exists f. auto.
      * f_equal. apply firstn_prefix. now rewrite <- !app_assoc.
    + exists i, ws, [m; h; z].
      split; [|split; [|split; [|split]]]; auto.
      * unfold is_number. exists i; split; [|split]; auto.
      * f_equal. now apply firstn_prefix.
  - intros (num & ws & u & -> & (i & Hi & Hdi & Hnum) & Hws & Hu & ->).
    destruct Hu as (m & h & z & -> & Hm & Hh & Hz).
    eapply MCat.
    + apply matches_grp with (g0 := None).
      destruct Hnum as [-> | (f & Hf & Hdf & ->)].
      * eapply MCat; [now apply matches_plus_chr | apply MOptNone].
      * rewrite <- !app_assoc.
        eapply MCat; [now apply matches_plus_chr |].
        apply MOptSome. eapply MCat.
        -- simpl. apply MChr. apply N.eqb_refl.
        -- now apply matches_plus_chr.
    + eapply MCat; [now apply matches_star_chr |].
      simpl. eapply MCat; [|eapply MCat]; apply MChr;
        rewrite orb_true_iff, !N.eqb_eq; assumption.
Qed.

(** ** Searching *)

Lemma re_search_unfold r s :
  re_search r s =
  match bt r s None (fun _ g => Some g) with
  | Some g => Some g
  | None => match s with [] => None | _ :: s' => re_search r s' end
  end.
Proof. destruct s; reflexivity. Qed.

Lemma re_search_none r s :
  re_search r s = None ->
  forall pre rest s' g', s = pre ++ rest -> ~ matches r rest None s' g'.
Proof.
  induction s as [|c s IH]; intros H pre rest s' g' E Hm;
    rewrite re_search_unfold in H;
    destruct (bt r _ None (fun _ g => Some g)) eqn:Eb; try discriminate.
  - symmetry in E. apply app_eq_nil in E as [-> ->].
    eapply bt_complete in Hm as [a Ha]; [rewrite Eb in Ha; discriminate|].
    simpl; eauto.
  - destruct pre as [|c' pre]; simpl in E.
    + subst rest.
      eapply bt_complete in Hm as [a Ha]; [rewrite Eb in Ha; discriminate|].
      simpl; eauto.
    + inversion E; subst. eapply IH; eauto.
Qed.

Lemma re_search_some r s g :
  re_search r s = Some g ->
  exists pre rest s',
    s = pre ++ rest /\ matches r rest None s' g /\
    forall pre1 rest1 s1 g1,
      s = pre1 ++ rest1 -> (List.length pre1 < List.length pre)%nat ->
      ~ matches r rest1 None s1 g1.
Proof.
  induction s as [|c s IH]; intros H; rewrite re_search_unfold in H;
    destruct (bt r _ None (fun _ g => Some g)) eqn:Eb; try discriminate.
  - apply bt_sound in Eb as (s' & g' & Hm & Hk). inv H. inv Hk.
    exists [], [], s'; repeat split; auto. simpl; intros; lia.
  - apply bt_sound in Eb as (s' & g' & Hm & Hk). inv H. inv Hk.
    exists [], (c :: s), s'; repeat split; auto. simpl; intros; lia.
  - apply IH in H as (pre & rest & s' & -> & Hm & Hmin).
    exists (c :: pre), rest, s'; repeat split; auto.
    intros [|c1 pre1] rest1 s1 g1 E Hlt Hm1; simpl in *.
    + subst rest1.
      eapply bt_complete in Hm1 as [a Ha]; [rewrite Eb in Ha; discriminate|].
      simpl; eauto.
    + inversion E; subst. eapply Hmin; eauto. lia.
Qed.

(** ** Character classes *)

Lemma isspace_cases (c : char) : isspace c = true -> In c blanks.
Proof.
  unfold isspace, blanks.
  rewrite !orb_true_iff, !andb_true_iff, !N.leb_le, !N.eqb_eq.
  simpl. lia.
Qed.

Lemma blank_not_decimal (c : char) : isspace c = true -> isdecimal c = false.
Proof.
  intros H. apply isspace_cases in H. unfold blanks in H. simpl in H.
  repeat (destruct H as [<- | H]; [reflexivity|]). contradiction.
Qed.

Lemma decimal_not_blank (c : char) : isdecimal c = true -> isspace c = false.
Proof.
  intros H. destruct (isspace c) eqn:E; auto.
  apply blank_not_decimal in E. congruence.
Qed.

Lemma decimal_neq (c x : char) :
  isdecimal c = true -> isdecimal x = false -> (c =? x)%N = false.
Proof. intros Hc Hx. apply N.eqb_neq. intros ->. congruence. Qed.

Lemma isdecimal_value (c : char) :
  isdecimal c = true -> exists d, decimal_value c = Some d.
Proof. unfold isdecimal. destruct (decimal_value c); eauto; discriminate. Qed.

Lemma all_of_cons p (c : char) s :
  all_of p (c :: s) <-> p c = true /\ all_of p s.
Proof. unfold all_of; simpl. apply andb_true_iff. Qed.

Lemma all_of_app p (a b : pystr) :
  all_of p (a ++ b) <-> all_of p a /\ all_of p b.
Proof. unfold all_of. rewrite forallb_app. apply andb_true_iff. Qed.

Lemma all_of_rev p (s : pystr) : all_of p s -> all_of p (rev s).
Proof.
  unfold all_of. rewrite !forallb_forall. intros H x Hx.
  apply H. now apply in_rev.
Qed.

(** ** Reading numbers *)

Lemma digits_value_total (s : pystr) :
  all_of isdecimal s -> forall acc, exists n, digits_value acc s = Some n.
Proof.
  induction s as [|c s IH]; intros H acc; simpl; eauto.
  apply all_of_cons in H as [Hc Hs].
  destruct (isdecimal_value c Hc) as [d ->]. apply IH, Hs.
Qed.

Lemma digits_value_decimal (s : pystr) :
  forall acc n, digits_value acc s = Some n -> all_of isdecimal s.
Proof.
  induction s as [|c s IH]; intros acc n H; [reflexivity|].
  simpl in H. apply all_of_cons. unfold isdecimal.
  destruct (decimal_value c); [|discriminate]. split; eauto.
Qed.

Lemma int_body_digits (s : pystr) :
  all_of isdecimal s -> forall acc,
  int_body true acc s = digits_value acc s.
Proof.
  induction s as [|c s IH]; intros H acc; simpl; auto.
  apply all_of_cons in H as [Hc Hs].
  rewrite (@decimal_neq c 95%N Hc eq_refl).
  destruct (decimal_value c); auto.
Qed.

Lemma lstrip_id (s : pystr) :
  all_of (fun c => negb (isspace c)) s -> lstrip s = s.
Proof.
  destruct s as [|c s]; auto. intros H. apply all_of_cons in H as [Hc _].
  simpl. apply negb_true_iff in Hc. now rewrite Hc.
Qed.

Lemma strip_id (s : pystr) :
  all_of (fun c => negb (isspace c)) s -> strip s = s.
Proof.
  intros H. unfold strip, rstrip. rewrite (lstrip_id H).
  rewrite (lstrip_id (all_of_rev H)). apply rev_involutive.
Qed.

Lemma decimal_no_blank (s : pystr) :
  all_of isdecimal s -> all_of (fun c => negb (isspace c)) s.
Proof.
  unfold all_of. rewrite !forallb_forall. intros H c Hc.
  apply negb_true_iff, decimal_not_blank. auto.
Qed.

Lemma digit_count_digits (s : pystr) :
  all_of isdecimal s -> digit_count s = Z.of_nat (List.length s).
Proof.
  unfold digit_count. intros H. do 2 f_equal.
  induction s as [|c s IH]; auto.
  apply all_of_cons in H as [Hc Hs]. cbn [filter].
  rewrite (@decimal_neq c 95%N Hc eq_refl). cbn [negb]. now rewrite IH.
Qed.

(** [int] reads a non-empty run of decimal digits as its value, unless the
    run is longer than the limit. *)
Lemma py_int_digits (s : pystr) (n : N) :
  s <> [] -> digits_value 0 s = Some n ->
  py_int s = if (int_max_str_digits <? Z.of_nat (List.length s))%Z
             then Raise ValueError else Ret (Z.of_N n).
Proof.
  intros Hne Hv. pose proof (digits_value_decimal s 0 Hv) as Hd.
  unfold py_int. rewrite (strip_id (decimal_no_blank Hd)).
  rewrite <- (digit_count_digits Hd).
  destruct s as [|c s]; [congruence|].
  pose proof Hd as Hd'. apply all_of_cons in Hd' as [Hc Hs].
  rewrite (@decimal_neq c 45%N Hc eq_refl), (@decimal_neq c 43%N Hc eq_refl).
  cbn [int_body]. rewrite (@decimal_neq c 95%N Hc eq_refl).
  cbn [digits_value] in Hv.
  destruct (decimal_value c); [|discriminate].
  rewrite (int_body_digits Hs), Hv. reflexivity.
Qed.

Lemma py_int_within (s : pystr) (n : N) :
  s <> [] -> digits_value 0 s = Some n -> within_limit s ->
  py_int s = Ret (Z.of_N n).
Proof.
  intros Hne Hv Hl. rewrite (py_int_digits Hne Hv).
  unfold within_limit in Hl. apply Z.ltb_ge in Hl. now rewrite Hl.
Qed.

Lemma py_int_beyond (s : pystr) :
  s <> [] -> all_of isdecimal s -> ~ within_limit s ->
  py_int s = Raise ValueError.
Proof.
  intros Hne Hd Hl. destruct (digits_value_total Hd 0) as [n Hv].
  rewrite (py_int_digits Hne Hv).
  unfold within_limit in Hl. apply Z.nle_gt, Z.ltb_lt in Hl. now rewrite Hl.
Qed.

(** [int] raises nothing but [ValueError]. *)
Lemma py_int_raises (s : pystr) (e : exn) :
  py_int s = Raise e -> e = ValueError.
Proof.
  unfold py_int.
  destruct (match strip s with
            | [] => (false, strip s)
            | c :: t' => if (c =? 45)%N then (true, t')
                         else if (c =? 43)%N then (false, t')
                              else (false, strip s)
            end) as [neg body].
  destruct (int_body false 0 body); [|congruence].
  destruct (int_max_str_digits <? digit_count body)%Z; congruence.
Qed.

Lemma within_limit_dec (s : pystr) : within_limit s \/ ~ within_limit s.
Proof. unfold within_limit. lia. Qed.

Lemma split_dot_digits (i : pystr) (rest : pystr) :
  all_of isdecimal i ->
  split_dot (i ++ rest) = (i ++ fst (split_dot rest), snd (split_dot rest)).
Proof.
  induction i as [|c i IH]; intros H; simpl.
  - now destruct (split_dot rest).
  - apply all_of_cons in H as [Hc Hi].
    rewrite (@decimal_neq c 46%N Hc eq_refl), (IH Hi). reflexivity.
Qed.

(** [float] reads every number; its value is that of the digits, scaled by
    the number of fractional digits. *)
Lemma py_float_number (num : pystr) :
  is_number num -> exists d, py_float num = Ret d.
Proof.
  intros (i & Hi & Hdi & [-> | (f & Hf & Hdf & ->)]); unfold py_float.
  - rewrite <- (app_nil_r i), (@split_dot_digits i [] Hdi); simpl.
    rewrite app_nil_r. destruct i as [|c i]; [congruence|].
    destruct (digits_value_total Hdi 0) as [n ->]. eauto.
  - rewrite (@split_dot_digits i _ Hdi); simpl. rewrite app_nil_r.
    destruct i as [|c i]; [congruence|].
    destruct f as [|c' f]; [congruence|].
    assert (Hall : all_of isdecimal ((c :: i) ++ c' :: f))
      by (apply all_of_app; auto).
    destruct (digits_value_total Hall 0) as [n ->]. eauto.
Qed.

Lemma re_fullmatch_digits (s : pystr) :
  re_fullmatch (Plus digit_cls) s = true <-> s <> [] /\ all_of isdecimal s.
Proof.
  unfold re_fullmatch, digit_cls. split.
  - destruct (bt _ _ _ _) eqn:E; [|discriminate]. intros _.
    apply bt_sound in E as (s' & g' & Hm & Hk).
    destruct s'; [|discriminate].
    apply matches_plus_chr_inv in Hm as (l & Hl & -> & Hd & _).
    rewrite app_nil_r. auto.
  - intros [Hne Hd].
    pose proof (@matches_plus_chr isdecimal s [] None Hne Hd) as Hm.
    rewrite app_nil_r in Hm.
    eapply bt_complete in Hm as [a ->]; eauto.
Qed.

(** The three ways [to_int] ends: the integer for a run of digits within
    the limit, [ValueError] for a longer run, [None] for any other text. *)
Lemma to_int_cases (s : pystr) :
  let t := strip (replace_comma s) in
  (exists n, parseable_score s n /\ to_int s = Ret (VInt (Z.of_N n))) \/
  (t <> [] /\ all_of isdecimal t /\ ~ within_limit t /\
   to_int s = Raise ValueError) \/
  ((t = [] \/ ~ all_of isdecimal t) /\ to_int s = Ret VNone).
Proof.
  cbv zeta. unfold to_int, parseable_score.
  destruct (re_fullmatch _ _) eqn:E.
  - apply re_fullmatch_digits in E as [Hne Hd].
    destruct (digits_value_total Hd 0) as [n Hn].
    destruct (within_limit_dec (strip (replace_comma s))) as [Hl | Hl].
    + left. exists n. rewrite (py_int_within Hne Hn Hl). auto.
    + right; left. rewrite (py_int_beyond Hne Hd Hl). auto.
  - right; right. split; auto.
    destruct (strip (replace_comma s)) as [|c t] eqn:Et; auto.
    right. intros Hd. rewrite <- Et in Hd.
    assert (Hm : re_fullmatch (Plus digit_cls) (strip (replace_comma s))
                 = true)
      by (apply re_fullmatch_digits; split; [rewrite Et; discriminate | auto]).
    congruence.
Qed.

Lemma to_int_raises (s : pystr) (e : exn) :
  to_int s = Raise e -> e = ValueError.
Proof.
  destruct (to_int_cases s) as [(n & _ & E) | [(_ & _ & _ & E) | [_ E]]];
    rewrite E; congruence.
Qed.

Lemma to_int_parseable (s : pystr) (n : N) :
  parseable_score s n -> to_int s = Ret (VInt (Z.of_N n)).
Proof.
  intros (Hne & Hn & Hl). unfold to_int.
  assert (E : re_fullmatch (Plus digit_cls) (strip (replace_comma s)) = true).
  { apply re_fullmatch_digits. split; auto.
    eapply digits_value_decimal; eauto. }
  rewrite E, (py_int_within Hne Hn Hl). reflexivity.
Qed.

(** Group 1 of [CORES_RE] is a non-empty run of digits. *)
Lemma matches_CORES_RE_group s s' g' :
  matches CORES_RE s None s' g' ->
  exists num, num <> [] /\ all_of isdecimal num /\ g' = Some num.
Proof.
  unfold CORES_RE, digit_cls, space_cls, ci, ci_s, lit. intros H.
  apply matches_cat_inv in H as (s1 & g1 & Hp & H).
  apply matches_chr_inv in Hp as (c & -> & _ & ->).
  apply matches_cat_inv in H as (s2 & g2 & Hg & H).
  apply matches_grp_inv in Hg as (g0 & Hn & ->).
  apply matches_plus_chr_inv in Hn as (num & Hne & -> & Hd & _).
  rewrite (@firstn_prefix num s2 _ eq_refl) in H.
  apply matches_cat_inv in H as (s3 & g3 & Hws & H).
  apply matches_plus_chr_inv in Hws as (ws & _ & -> & _ & ->).
  repeat (apply matches_cat_inv in H as (? & ? & Hc & H);
          apply matches_chr_inv in Hc as (? & -> & _ & ->)).
  apply matches_cat_inv in H as (s9 & g9 & Ho & H).
  apply matches_chr_inv in H as (? & -> & _ & ->).
  apply matches_opt_inv in Ho as [Ho | [_ <-]].
  - apply matches_chr_inv in Ho as (? & _ & _ & ->). eauto.
  - eauto.
Qed.

(** The core count raises nothing but [ValueError]. *)
Lemma cores_match_raises (text : pystr) (e : exn) :
  cores_match text = Raise e -> e = ValueError.
Proof.
  unfold cores_match. destruct (re_search CORES_RE text) as [[num|]|];
    try discriminate.
  destruct (py_int num) as [z|e'] eqn:E; simpl; [discriminate|].
  intros H; inversion H; subst. eapply py_int_raises; eauto.
Qed.

(** ** The frequency rule *)

(** Group 1 of a match of [MHZ_RE] is a number, which [float] reads. *)
Lemma mhz_group_is_number (text : pystr) (g : option pystr) :
  re_search MHZ_RE text = Some g ->
  exists num d, g = Some num /\ is_number num /\ py_float num = Ret d.
Proof.
  intros H. apply re_search_some in H as (pre & rest & s' & _ & Hm & _).
  apply matches_MHZ_RE in Hm as (num & _ & _ & _ & Hn & _ & _ & ->).
  destruct (py_float_number Hn) as [d Hd]. eauto.
Qed.

Lemma mhz_occurrence_matches (text pre num : pystr) :
  mhz_occurrence text pre num <->
  exists rest s', text = pre ++ rest /\ matches MHZ_RE rest None s' (Some num).
Proof.
  split.
  - intros (ws & u & post & -> & Hn & Hws & Hu).
    exists (num ++ ws ++ u ++ post), post. split; auto.
    apply matches_MHZ_RE. exists num, ws, u. auto.
  - intros (rest & s' & -> & Hm).
    apply matches_MHZ_RE in Hm as (num' & ws & u & -> & Hn & Hws & Hu & E).
    inversion E; subst num'. exists ws, u, s'. auto.
Qed.

Lemma number_chars (num : pystr) :
  is_number num -> all_of (fun c => isdecimal c || (c =? 46)%N) num.
Proof.
  assert (W : forall l, all_of isdecimal l ->
                        all_of (fun c => isdecimal c || (c =? 46)%N) l).
  { unfold all_of; intros l. rewrite !forallb_forall. intros H c Hc.
    now rewrite (H c Hc). }
  intros (i & _ & Hi & [-> | (f & _ & Hf & ->)]); auto.
  apply all_of_app; split; auto. apply all_of_cons; split; auto.
Qed.

Lemma unit_head (ws u post : pystr) :
  all_of isspace ws -> is_mhz u ->
  exists c rest, ws ++ u ++ post = c :: rest /\
                 isdecimal c || (c =? 46)%N = false.
Proof.
  intros Hws (m & h & z & -> & Hm & _). destruct ws as [|c ws]; simpl.
  - exists m, (h :: z :: post). split; auto.
    destruct Hm as [-> | ->]; reflexivity.
  - exists c, (ws ++ m :: h :: z :: post). split; auto.
    apply all_of_cons in Hws as [Hc _].
    rewrite (blank_not_decimal c Hc); simpl.
    apply N.eqb_neq; intros ->; discriminate.
Qed.

Lemma run_unique (p : char -> bool) (l1 l2 : pystr) c1 r1 c2 r2 :
  all_of p l1 -> all_of p l2 -> p c1 = false -> p c2 = false ->
  l1 ++ c1 :: r1 = l2 ++ c2 :: r2 -> l1 = l2.
Proof.
  revert l2; induction l1 as [|x l1 IH]; intros [|y l2] H1 H2 Hc1 Hc2 E;
    simpl in E; inversion E; subst; auto.
  - apply all_of_cons in H2 as [Hy _]. congruence.
  - apply all_of_cons in H1 as [Hx _]. congruence.
  - apply all_of_cons in H1 as [_ H1]. apply all_of_cons in H2 as [_ H2].
    f_equal. eapply IH; eauto.
Qed.

Lemma mhz_occurrence_unique (text pre num num' : pystr) :
  mhz_occurrence text pre num -> mhz_occurrence text pre num' -> num = num'.
Proof.
  intros (ws & u & post & -> & Hn & Hws & Hu)
         (ws' & u' & post' & E & Hn' & Hws' & Hu').
  apply app_inv_head in E.
  destruct (unit_head post Hws Hu) as (c & r & Ec & Hc).
  destruct (unit_head post' Hws' Hu') as (c' & r' & Ec' & Hc').
  rewrite Ec, Ec' in E.
  apply (@run_unique (fun c => isdecimal c || (c =? 46)%N)
           num num' c r c' r'); auto using number_chars.
Qed.

(** C7.  The frequency of a description is read, as a float, from the first
    place where a decimal number is followed by [MHz] in any mix of cases;
    blanks may stand between the two, as in the claim's own example.  The
    result is null exactly when there is no such place; a number that
    [float] cannot read does not arise.  At the first place the number is
    unique.  ["... 3200 MHz ..."] gives 3200.0 and ["no frequency here"]
    gives null. *)
Theorem mhz_match_first_occurrence (text : pystr) :
  (mhz_match text = None <->
   forall pre num, ~ mhz_occurrence text pre num) /\
  (forall d, mhz_match text = Some d ->
     exists pre num,
       mhz_occurrence text pre num /\ py_float num = Ret d /\
       (forall pre' num', mhz_occurrence text pre' num' ->
          (List.length pre <= List.length pre')%nat) /\
       (forall num', mhz_occurrence text pre num' -> num' = num)) /\
  mhz_match (str "Xeon E5 clocked at 3200 MHz, 8 threads")
    = Some (Dec 3200 0) /\
  mhz_match (str "no frequency here") = None.
Proof.
  split; [|split; [|split; reflexivity]].
  - unfold mhz_match. split.
    + intros H pre num Ho.
      apply mhz_occurrence_matches in Ho as (rest & s' & E & Hm).
      destruct (re_search MHZ_RE text) as [[g|]|] eqn:Es.
      * apply re_search_some in Es as (pre0 & rest0 & s0 & _ & Hm0 & _).
        apply matches_MHZ_RE in Hm0 as (n0 & _ & _ & _ & Hn0 & _ & _ & E0).
        inversion E0; subst n0.
        destruct (py_float_number Hn0) as [d Hd]. rewrite Hd in H.
        discriminate.
      * apply re_search_some in Es as (pre0 & rest0 & s0 & _ & Hm0 & _).
        apply matches_MHZ_RE in Hm0 as (n0 & _ & _ & _ & _ & _ & _ & E0).
        discriminate.
      * eapply re_search_none in Es; eauto.
    + intros H.
      destruct (re_search MHZ_RE text) as [[g|]|] eqn:Es; auto.
      apply re_search_some in Es as (pre0 & rest0 & s0 & E & Hm0 & _).
      exfalso. apply (H pre0 g).
      apply mhz_occurrence_matches. eauto.
  - intros d H. unfold mhz_match in H.
    destruct (re_search MHZ_RE text) as [[g|]|] eqn:Es; try discriminate.
    destruct (py_float g) as [d'|] eqn:Ef; [|discriminate].
    inversion H; subst d'.
    apply re_search_some in Es as (pre & rest & s' & E & Hm & Hmin).
    assert (Ho : mhz_occurrence text pre g)
      by (apply mhz_occurrence_matches; eauto).
    exists pre, g. split; [|split; [|split]]; auto.
    + intros pre' num' Ho'.
      apply mhz_occurrence_matches in Ho' as (rest' & s1 & E' & Hm').
      destruct (Nat.le_gt_cases (List.length pre) (List.length pre'))
        as [|Hlt]; auto.
      exfalso. eapply Hmin; eauto.
    + intros num' Ho'. eapply mhz_occurrence_unique; eauto.
Qed.

Lemma mhz_match_first_occurrence_witness :
  exists pre num,
    mhz_occurrence (str "rev 1.5.3 mhZ") pre num /\
    py_float num = Ret (Dec 53 1) /\
    (forall pre' num', mhz_occurrence (str "rev 1.5.3 mhZ") pre' num' ->
       (List.length pre <= List.length pre')%nat) /\
    (forall num', mhz_occurrence (str "rev 1.5.3 mhZ") pre num' ->
       num' = num).
Proof.
  apply (proj1 (proj2 (mhz_match_first_occurrence (str "rev 1.5.3 mhZ")))).
  reflexivity.
Defined.

(** ** Loops *)

Lemma rbind_ret A B (m : res A) (f : A -> res B) (b : B) :
  rbind m f = Ret b -> exists a, m = Ret a /\ f a = Ret b.
Proof. destruct m; simpl; intros H; [eauto | discriminate]. Qed.

Lemma fold_res_app S X (f : S -> X -> res S) (l1 l2 : list X) (s : S) :
  fold_res f s (l1 ++ l2)
  = rbind (fold_res f s l1) (fun s' => fold_res f s' l2).
Proof.
  revert s; induction l1 as [|x l1 IH]; intros s; simpl; auto.
  destruct (f s x); simpl; auto.
Qed.

Lemma fold_res_inv S X (f : S -> X -> res S) (P : S -> Prop) (l : list X) :
  (forall s x s', In x l -> P s -> f s x = Ret s' -> P s') ->
  forall s s', P s -> fold_res f s l = Ret s' -> P s'.
Proof.
  induction l as [|x l IH]; intros Hf s s' Hs H; simpl in H.
  - inversion H; subst; auto.
  - apply rbind_ret in H as (s1 & H1 & H).
    eapply IH; [| |exact H].
    + intros; eapply Hf; eauto. now right.
    + eapply Hf; eauto. now left.
Qed.

Lemma Forall2_pick_l A B (R : A -> B -> Prop) (l1 : list A) (l2 : list B)
  (x : A) :
  Forall2 R l1 l2 -> In x l1 -> exists y, In y l2 /\ R x y.
Proof.
  induction 1 as [|a b l1 l2 Hab HF IH]; intros Hin; [destruct Hin|].
  destruct Hin as [<- | Hin].
  - exists b. split; [now left | assumption].
  - destruct (IH Hin) as (y & Hy & Hr). exists y. split; [now right | auto].
Qed.

Lemma Forall2_pick_r A B (R : A -> B -> Prop) (l1 : list A) (l2 : list B)
  (y : B) :
  Forall2 R l1 l2 -> In y l2 -> exists x, In x l1 /\ R x y.
Proof.
  induction 1 as [|a b l1 l2 Hab HF IH]; intros Hin; [destruct Hin|].
  destruct Hin as [<- | Hin].
  - exists a. split; [now left | assumption].
  - destruct (IH Hin) as (x & Hx & Hr). exists x. split; [now right | auto].
Qed.

Lemma collect_rows_acc parse (xs : list node) :
  forall (acc l : list dict) (d : dict),
  fold_res (fun out x =>
              rbind (parse x) (fun row =>
              Ret (match row with
                   | Some d => if row_truthy row then out ++ [d] else out
                   | None => out
                   end)))
           acc xs = Ret l ->
  In d l -> In d acc \/ exists x, In x xs /\ parse x = Ret (Some d).
Proof.
  induction xs as [|x xs IH]; intros acc l d H Hd; simpl in H.
  - inversion H; subst; auto.
  - apply rbind_ret in H as (acc' & H1 & H).
    apply rbind_ret in H1 as (row & Hrow & H1). inversion H1; subst acc'.
    destruct (IH _ _ _ H Hd) as [Hin | (x' & Hx' & Hp)].
    + destruct row as [d'|]; [|auto].
      destruct (row_truthy (Some d')); auto.
      apply in_app_or in Hin as [Hin | [<- | []]]; auto.
      right; exists x; split; [now left | assumption].
    + right; exists x'; split; [now right | assumption].
Qed.

Lemma collect_rows_In parse (xs : list node) (l : list dict) (d : dict) :
  collect_rows parse xs = Ret l -> In d l ->
  exists x, In x xs /\ parse x = Ret (Some d).
Proof.
  intros H Hd.
  destruct (@collect_rows_acc parse xs [] l d H Hd) as [[] | ?]; auto.
Qed.

(** ** The shape of a card record *)

Lemma mem_In (k : pystr) (l : list pystr) : mem k l = true <-> In k l.
Proof.
  unfold mem. rewrite existsb_exists. split.
  - intros (x & Hx & E). apply pystr_eqb_eq in E. now subst.
  - intros H. exists k. split; auto. apply pystr_eqb_refl.
Qed.

Section CardShape.
Variable keys : list pystr.
Variable schema : pystr.
Hypothesis keys_mhz : mem (str "Frequency_MHz") keys = false.
Hypothesis keys_cores : mem (str "Cores") keys = false.

Lemma card_ok_set_str (d : dict) (k s : pystr) :
  pystr_eqb k (str "Schema") = false ->
  card_ok keys schema d -> card_ok keys schema (dict_set d k (VStr s)).
Proof.
  intros Hk [Ht Hs]. split.
  - intros k' Hk'. rewrite dict_get_set.
    destruct (pystr_eqb k k'); eauto.
  - rewrite dict_get_set, Hk. exact Hs.
Qed.

Lemma card_ok_set_other (d : dict) (k : pystr) (v : pyval) :
  pystr_eqb k (str "Schema") = false -> mem k keys = false ->
  card_ok keys schema d -> card_ok keys schema (dict_set d k v).
Proof.
  intros Hk Hm [Ht Hs]. split.
  - intros k' Hk'. rewrite dict_get_set.
    destruct (pystr_eqb k k') eqn:E; eauto.
    apply pystr_eqb_eq in E; subst. congruence.
  - rewrite dict_get_set, Hk. exact Hs.
Qed.

Lemma left_column_ok (prefix : string) (inner : node) (d d' : dict) :
  card_ok keys schema d -> left_column prefix inner d = Ret d' ->
  card_ok keys schema d'.
Proof.
  unfold left_column. intros Hd H.
  destruct (select_one inner sel_sys_col) as [sys_col|];
    [|inversion H; subst; auto].
  apply rbind_ret in H as (d1 & H1 & H).
  assert (Hd1 : card_ok keys schema d1).
  { destruct (select_one sys_col _) as [a|]; [|inversion H1; subst; auto].
    apply rbind_ret in H1 as (href & _ & H1). inversion H1; subst.
    repeat apply card_ok_set_str; auto. }
  destruct (select_one sys_col sel_model) as [model|];
    [|inversion H; subst; auto].
  apply rbind_ret in H as (cores & _ & H). inversion H; subst.
  assert (Hd2 : card_ok keys schema
    (match mhz_match (_text (Some model)) with
     | Some f => dict_set (dict_set d1 (str "CPU Details")
                                    (VStr (_text (Some model))))
                          (str "Frequency_MHz") (VFloat f)
     | None => dict_set d1 (str "CPU Details") (VStr (_text (Some model)))
     end)).
  { destruct (mhz_match _);
      [apply card_ok_set_other; auto|]; apply card_ok_set_str; auto. }
  destruct cores; [apply card_ok_set_other|]; auto.
Qed.

Lemma finish_block_ok (d d' : dict) :
  finish_block d = Ret (Some d') ->
  d' = d /\
  exists s, dict_get d (str "System") = Some s /\
    (truthy s = true \/
     exists u, dict_get d (str "Result URL") = Some u /\ truthy u = true).
Proof.
  unfold finish_block, getitem. intros H.
  destruct (dict_get d (str "System")) as [s|] eqn:Es; [|discriminate].
  simpl in H. destruct (truthy s) eqn:Ts; simpl in H.
  - inversion H; subst. split; auto. exists s; auto.
  - destruct (dict_get d (str "Result URL")) as [u|] eqn:Eu; [|discriminate].
    simpl in H. destruct (truthy u) eqn:Tu; simpl in H; [|discriminate].
    inversion H; subst. split; auto. exists s; split; auto.
    right; exists u; auto.
Qed.
End CardShape.

Ltac key_cases H :=
  apply in_strs_In in H; simpl in H;
  repeat (destruct H as [H | H]; [symmetry in H|]); [..|contradiction].

Lemma cpu_column_ok (d d' : dict) (col : node) :
  card_ok cpu_text_keys (str "v6") d -> cpu_column d col = Ret d' ->
  card_ok cpu_text_keys (str "v6") d'.
Proof.
  unfold cpu_column. intros Hd H.
  destruct (select_one col sel_label) as [label|];
    [|inversion H; subst; auto].
  generalize dependent (_text (Some label)); intros key H.
  destruct (in_strs _ ["Uploaded"; "Platform"]%string) eqn:E1.
  - assert (Hk : pystr_eqb key (str "Schema") = false)
      by (key_cases E1; rewrite E1; reflexivity).
    destruct (pystr_eqb _ (str "Uploaded")).
    + destruct (select_one col sel_user); inversion H; subst;
        repeat apply card_ok_set_str; auto.
    + inversion H; subst. apply card_ok_set_str; auto.
  - destruct (in_strs _ ["Single-Core Score"; "Multi-Core Score"]%string);
      [|inversion H; subst; auto].
    apply rbind_ret in H as (iv & _ & H).
    destruct (pystr_eqb _ _); inversion H; subst;
      apply card_ok_set_other; auto.
Qed.

Lemma compute_column_ok (d d' : dict) (col : node) :
  card_ok gpu_text_keys (str "v6-compute") d -> compute_column d col = Ret d' ->
  card_ok gpu_text_keys (str "v6-compute") d'.
Proof.
  unfold compute_column. intros Hd H.
  destruct (select_one col sel_label) as [label|];
    [|inversion H; subst; auto].
  generalize dependent (_text (Some label)); intros key H.
  destruct (in_strs _ ["Uploaded"; "Platform"; "API"]%string) eqn:E1.
  - assert (Hk : pystr_eqb key (str "Schema") = false)
      by (key_cases E1; rewrite E1; reflexivity).
    destruct (pystr_eqb _ (str "API")); inversion H; subst;
      apply card_ok_set_str; auto.
  - destruct (endswith _ _); [|inversion H; subst; auto].
    apply rbind_ret in H as (iv & _ & H). inversion H; subst.
    apply card_ok_set_other; auto. apply card_ok_set_str; auto.
Qed.

Lemma cpu_data0_ok : card_ok cpu_text_keys (str "v6") cpu_data0.
Proof.
  split; [|reflexivity]. intros k Hk. apply mem_In in Hk. simpl in Hk.
  repeat (destruct Hk as [<- | Hk]; [eexists; reflexivity|]). contradiction.
Qed.

Lemma compute_data0_ok :
  card_ok gpu_text_keys (str "v6-compute") compute_data0.
Proof.
  split; [|reflexivity]. intros k Hk. apply mem_In in Hk. simpl in Hk.
  repeat (destruct Hk as [<- | Hk]; [eexists; reflexivity|]). contradiction.
Qed.

(** What the card CPU parser returns: the dictionary the loop left, with
    its shape, past the final test on system name and result link. *)
Lemma parse_v6_cpu_block_ok (inner : node) (d : dict) :
  parse_v6_cpu_block inner = Ret (Some d) ->
  card_ok cpu_text_keys (str "v6") d /\
  exists s, dict_get d (str "System") = Some s /\
    (truthy s = true \/
     exists u, dict_get d (str "Result URL") = Some u /\ truthy u = true).
Proof.
  unfold parse_v6_cpu_block. intros H.
  apply rbind_ret in H as (d0 & H0 & H).
  apply rbind_ret in H as (d1 & H1 & H).
  apply finish_block_ok in H as [-> H]. split; auto.
  eapply fold_res_inv; [| |exact H1].
  - intros s x s' _. apply cpu_column_ok.
  - eapply left_column_ok; [reflexivity | reflexivity | apply cpu_data0_ok
                            | exact H0].
Qed.

Lemma parse_v6_compute_block_ok (inner : node) (d : dict) :
  parse_v6_compute_block inner = Ret (Some d) ->
  card_ok gpu_text_keys (str "v6-compute") d /\
  exists s, dict_get d (str "System") = Some s /\
    (truthy s = true \/
     exists u, dict_get d (str "Result URL") = Some u /\ truthy u = true).
Proof.
  unfold parse_v6_compute_block. intros H.
  apply rbind_ret in H as (d0 & H0 & H).
  apply rbind_ret in H as (d1 & H1 & H).
  apply finish_block_ok in H as [-> H]. split; auto.
  eapply fold_res_inv; [| |exact H1].
  - intros s x s' _. apply compute_column_ok.
  - eapply left_column_ok; [reflexivity | reflexivity | apply compute_data0_ok
                            | exact H0].
Qed.

(** ** The legacy row parser *)

(** A row with six cells and the marker is kept: what the parser returns
    for it is the eleven-entry literal of the source, with the two scores
    [to_int] read. *)
Lemma parse_v4_row_kept (tr td0 td1 td2 td3 td4 td5 : node)
  (r : option dict) :
  find_all tr (str "td") = [td0; td1; td2; td3; td4; td5] ->
  marker_of td0 <> None ->
  parse_v4_row tr = Ret r ->
  exists up sys det mhz cores plat user single multi url,
    to_int (cell_text td4) = Ret single /\
    to_int (cell_text td5) = Ret multi /\
    r = Some
      [ (str "Uploaded", VStr up); (str "System", VStr sys);
        (str "CPU Details", VStr det); (str "Frequency_MHz", mhz);
        (str "Cores", cores); (str "Platform", VStr plat);
        (str "User", VStr user); (str "Single-Core Score", single);
        (str "Multi-Core Score", multi); (str "Result URL", VStr url);
        (str "Schema", VStr (str "v4")) ].
Proof.
  unfold marker_of. intros E Hm H. unfold parse_v4_row in H. rewrite E in H.
  destruct (find_class td0 _ _) as [m|]; [|congruence].
  cbv zeta in H.
  apply rbind_ret in H as ([[det mhz] cores] & _ & H).
  apply rbind_ret in H as (single & Hs & H).
  apply rbind_ret in H as (multi & Hmu & H).
  inversion H; subst. repeat eexists; eauto.
Qed.

(** The same row, when the core count and the two scores can be read. *)
Lemma parse_v4_row_returns (tr td0 td1 td2 td3 td4 td5 : node)
  (single multi : pyval) :
  find_all tr (str "td") = [td0; td1; td2; td3; td4; td5] ->
  marker_of td0 <> None ->
  (forall sp, find td1 (str "span") = Some sp ->
              exists o, cores_match (cell_text sp) = Ret o) ->
  to_int (cell_text td4) = Ret single ->
  to_int (cell_text td5) = Ret multi ->
  exists d, parse_v4_row tr = Ret (Some d).
Proof.
  unfold marker_of. intros E Hm Hc Hs Hmu. unfold parse_v4_row. rewrite E.
  destruct (find_class td0 _ _) as [m|]; [|congruence].
  rewrite Hs, Hmu.
  destruct (find td1 (str "span")) as [sp|]; simpl.
  - destruct (Hc sp eq_refl) as [cores ->]; simpl. eauto.
  - eauto.
Qed.

(** The legacy row parser raises nothing but [ValueError]; a core count
    that cannot be read is one way to get it. *)
Lemma parse_v4_row_raises (tr : node) (e : exn) :
  parse_v4_row tr = Raise e -> e = ValueError.
Proof.
  unfold parse_v4_row.
  destruct (find_all tr (str "td"))
    as [|td0 [|td1 [|td2 [|td3 [|td4 [|td5 [|? ?]]]]]]]; try discriminate.
  destruct (find_class td0 _ _); [|discriminate]. cbv zeta.
  destruct (find td1 (str "span")) as [sp|].
  - destruct (cores_match (cell_text sp)) as [cores|e'] eqn:Ec; simpl.
    + destruct (to_int (cell_text td4)) as [single|e1] eqn:E1; simpl;
        [|intros H; inversion H; subst; eapply to_int_raises; eauto].
      destruct (to_int (cell_text td5)) as [multi|e2] eqn:E2; simpl;
        [discriminate|intros H; inversion H; subst; eapply to_int_raises; eauto].
    + intros H; inversion H; subst. eapply cores_match_raises; eauto.
  - simpl.
    destruct (to_int (cell_text td4)) as [single|e1] eqn:E1; simpl;
      [|intros H; inversion H; subst; eapply to_int_raises; eauto].
    destruct (to_int (cell_text td5)) as [multi|e2] eqn:E2; simpl;
      [discriminate|intros H; inversion H; subst; eapply to_int_raises; eauto].
Qed.

Lemma parse_v4_row_cores_raise (tr td0 td1 td2 td3 td4 td5 sp : node)
  (e : exn) :
  find_all tr (str "td") = [td0; td1; td2; td3; td4; td5] ->
  marker_of td0 <> None ->
  find td1 (str "span") = Some sp ->
  cores_match (cell_text sp) = Raise e ->
  parse_v4_row tr = Raise e.
Proof.
  unfold marker_of. intros E Hm Hsp Hc. unfold parse_v4_row. rewrite E.
  destruct (find_class td0 _ _) as [m|]; [|congruence].
  cbv zeta. rewrite Hsp, Hc. reflexivity.
Qed.

Lemma parse_v4_row_dropped (tr : node) :
  (List.length (find_all tr (str "td")) <> 6%nat \/
   exists td0 rest, find_all tr (str "td") = td0 :: rest /\
                    marker_of td0 = None) ->
  parse_v4_row tr = Ret None.
Proof.
  unfold marker_of, parse_v4_row. intros [H | (td0 & rest & E & Hm)].
  - destruct (find_all tr (str "td")) as [|? [|? [|? [|? [|? [|? [|? ?]]]]]]];
      simpl in H; try reflexivity; lia.
  - rewrite E.
    destruct rest as [|? [|? [|? [|? [|? [|? ?]]]]]]; try reflexivity.
    now rewrite Hm.
Qed.

Lemma parse_v4_row_some (tr : node) (d : dict) :
  parse_v4_row tr = Ret (Some d) ->
  exists td0 td1 td2 td3 td4 td5,
    find_all tr (str "td") = [td0; td1; td2; td3; td4; td5] /\
    marker_of td0 <> None.
Proof.
  intros H.
  destruct (find_all tr (str "td"))
    as [|td0 [|td1 [|td2 [|td3 [|td4 [|td5 [|? ?]]]]]]] eqn:E;
    try (rewrite parse_v4_row_dropped in H;
         [discriminate | left; rewrite E; simpl; lia]).
  exists td0, td1, td2, td3, td4, td5. split; auto.
  intros Hm. rewrite parse_v4_row_dropped in H; [discriminate|].
  right. eauto.
Qed.

Lemma parse_v4_row_schema (tr : node) (d : dict) :
  parse_v4_row tr = Ret (Some d) ->
  dict_get d (str "Schema") = Some (VStr (str "v4")).
Proof.
  intros H.
  destruct (parse_v4_row_some _ H)
    as (td0 & td1 & td2 & td3 & td4 & td5 & E & Hm).
  destruct (parse_v4_row_kept _ E Hm H)
    as (up & sys & det & mhz & cores & plat & user & single & multi & url
        & _ & _ & Hd).
  inversion Hd; subst. reflexivity.
Qed.

(** C2 at the failing input: a row of the legacy table with its six cells,
    the timestamp marker and the score cells [1,234] and [5678], whose
    details line gives a core count of 4301 digits.  [CORES_RE] matches,
    [int] refuses the digits, and nothing catches the error: the row parser
    raises instead of giving a record, and so does the page parser.  The
    frequency two lines above is read under [try ... except ValueError]. *)
Theorem legacy_row_long_core_count :
  List.length (find_all long_cores_row (str "td")) = 6%nat /\
  (exists td0 rest, find_all long_cores_row (str "td") = td0 :: rest /\
                    marker_of td0 <> None) /\
  parseable_score (str "1,234") 1234 /\
  parseable_score (str "5678") 5678 /\
  cores_match (str "Intel i7 (" ++ long_digits ++ str " cores)")
  = Raise ValueError /\
  parse_v4_row long_cores_row = Raise ValueError /\
  parse_v4_page (document [elem "table" "geekbench3-index" [long_cores_row]])
  = Raise ValueError.
Proof.
  assert (Hc : cores_match (str "Intel i7 (" ++ long_digits ++ str " cores)")
               = Raise ValueError) by (vm_compute; reflexivity).
  assert (Hr : parse_v4_row long_cores_row = Raise ValueError).
  { eapply parse_v4_row_cores_raise;
      [reflexivity | discriminate | reflexivity | vm_compute; reflexivity]. }
  split; [reflexivity|].
  split; [do 2 eexists; split; [reflexivity | discriminate]|].
  split; [repeat split; [discriminate | vm_compute; discriminate]|].
  split; [repeat split; [discriminate | vm_compute; discriminate]|].
  split; [exact Hc|]. split; [exact Hr|].
  unfold parse_v4_page.
  change (select_one _ _) with (Some (elem "table" "geekbench3-index"
                                           [long_cores_row])).
  cbv beta iota.
  change (find_all _ (str "tr")) with [long_cores_row].
  unfold collect_rows. cbn [fold_res]. rewrite Hr. reflexivity.
Qed.

(** C8.  The tag a parser writes is its own constant: [v4] for the legacy
    parser, [v6] for the card CPU parser, [v6-compute] for the card compute
    parser.  The driver's mode names are [v4-cpu], [v6-cpu] and
    [v6-compute]: the card CPU records, parsed under mode [v6-cpu], carry
    [v6], which is not the mode's name. *)
Theorem schema_tag_per_parser :
  (forall soup l d, parse_v4_page soup = Ret l -> In d l ->
     dict_get d (str "Schema") = Some (VStr (str "v4"))) /\
  (forall soup l d, parse_v6_cpu_page soup = Ret l -> In d l ->
     dict_get d (str "Schema") = Some (VStr (str "v6"))) /\
  (forall soup l d, parse_v6_compute_page soup = Ret l -> In d l ->
     dict_get d (str "Schema") = Some (VStr (str "v6-compute"))) /\
  (forall base mode, select_mode base = Ret mode ->
     mode = str "v6-compute" \/ mode = str "v6-cpu" \/ mode = str "v4-cpu") /\
  parse_page (str "v6-cpu") = parse_v6_cpu_page /\
  str "v6" <> str "v6-cpu".
Proof.
  split; [|split; [|split; [|split; [|split]]]].
  - intros soup l d H Hd. unfold parse_v4_page in H.
    destruct (select_one soup _) as [table|]; [|inversion H; subst; easy].
    destruct (@collect_rows_In _ _ _ _ H Hd) as (tr & _ & Htr).
    eapply parse_v4_row_schema; eauto.
  - intros soup l d H Hd.
    destruct (@collect_rows_In _ _ _ _ H Hd) as (x & _ & Hx).
    apply parse_v6_cpu_block_ok in Hx as [[_ Hs] _]. exact Hs.
  - intros soup l d H Hd.
    destruct (@collect_rows_In _ _ _ _ H Hd) as (x & _ & Hx).
    apply parse_v6_compute_block_ok in Hx as [[_ Hs] _]. exact Hs.
  - unfold select_mode. intros base mode H.
    destruct (is_v6_compute base); [inversion H; auto|].
    destruct (is_v6_cpu base); [inversion H; auto|].
    destruct (is_v4_cpu base); [inversion H; auto|discriminate].
  - reflexivity.
  - discriminate.
Qed.

Lemma schema_tag_per_parser_witness :
  dict_get compute_record (str "Schema") = Some (VStr (str "v6-compute")).
Proof.
  apply (proj1 (proj2 (proj2 schema_tag_per_parser))
           compute_doc [compute_record] compute_record).
  - vm_compute. reflexivity.
  - now left.
Defined.

(** ** System name or result link *)

Lemma truthy_str (s : pystr) : truthy (VStr s) = true <-> s <> [].
Proof. destruct s; simpl; split; congruence. Qed.

Lemma card_name_or_link keys schema (d : dict) :
  mem (str "System") keys = true -> mem (str "Result URL") keys = true ->
  card_ok keys schema d ->
  (exists s, dict_get d (str "System") = Some s /\
     (truthy s = true \/
      exists u, dict_get d (str "Result URL") = Some u /\ truthy u = true)) ->
  exists s u, dict_get d (str "System") = Some (VStr s) /\
              dict_get d (str "Result URL") = Some (VStr u) /\
              (s <> [] \/ u <> []).
Proof.
  intros Hs Hu [Ht _] (v & Ev & H).
  destruct (Ht _ Hs) as [s Es]. destruct (Ht _ Hu) as [u Eu].
  exists s, u. repeat split; auto.
  rewrite Es in Ev; inversion Ev; subst v.
  destruct H as [H | (w & Ew & H)].
  - left. now apply truthy_str.
  - rewrite Eu in Ew; inversion Ew; subst w. right. now apply truthy_str.
Qed.

(** C1, as the claim states it, fails for the legacy parser: a row with its
    six cells and the timestamp marker, but with an empty system cell, is
    emitted with neither a system name nor a result link. *)
Lemma legacy_record_without_name_or_link :
  exists d,
    parse_v4_page legacy_doc_bare = Ret [d] /\
    dict_get d (str "System") = Some (VStr []) /\
    dict_get d (str "Result URL") = Some (VStr []).
Proof.
  eexists. split; [vm_compute; reflexivity|]. split; reflexivity.
Qed.

(** C1, amended.  Every record the card CPU parser or the card compute
    parser emits has a non-empty system name or a non-empty result link, and
    a card whose dictionary ends with both empty contributes no record.  The
    legacy parser has no such test. *)
Theorem card_record_has_name_or_link :
  (forall soup l d, parse_v6_cpu_page soup = Ret l -> In d l ->
     exists s u, dict_get d (str "System") = Some (VStr s) /\
                 dict_get d (str "Result URL") = Some (VStr u) /\
                 (s <> [] \/ u <> [])) /\
  (forall soup l d, parse_v6_compute_page soup = Ret l -> In d l ->
     exists s u, dict_get d (str "System") = Some (VStr s) /\
                 dict_get d (str "Result URL") = Some (VStr u) /\
                 (s <> [] \/ u <> [])) /\
  (forall data, dict_get data (str "System") = Some (VStr []) ->
     dict_get data (str "Result URL") = Some (VStr []) ->
     finish_block data = Ret None).
Proof.
  split; [|split].
  - intros soup l d H Hd.
    destruct (@collect_rows_In _ _ _ _ H Hd) as (x & _ & Hx).
    apply parse_v6_cpu_block_ok in Hx as [Hok Hg].
    eapply card_name_or_link; eauto; reflexivity.
  - intros soup l d H Hd.
    destruct (@collect_rows_In _ _ _ _ H Hd) as (x & _ & Hx).
    apply parse_v6_compute_block_ok in Hx as [Hok Hg].
    eapply card_name_or_link; eauto; reflexivity.
  - intros data Hs Hu. unfold finish_block, getitem. now rewrite Hs, Hu.
Qed.

Lemma card_record_has_name_or_link_witness :
  exists s u, dict_get compute_record (str "System") = Some (VStr s) /\
              dict_get compute_record (str "Result URL") = Some (VStr u) /\
              (s <> [] \/ u <> []).
Proof.
  apply (proj1 (proj2 card_record_has_name_or_link)
           compute_doc [compute_record] compute_record).
  - vm_compute. reflexivity.
  - now left.
Defined.

(** ** The score columns of a compute card *)

Lemma compute_column_score (data data' : dict) (col label_el : node) :
  select_one col sel_label = Some label_el ->
  endswith (_text (Some label_el)) (str "Score") = true ->
  compute_column data col = Ret data' ->
  exists iv,
    _to_int (_text (select_one col sel_text_score)) = Ret iv /\
    data' = dict_set (dict_set data (str "Score Label")
                               (VStr (_text (Some label_el))))
                     (str "Compute Score") iv.
Proof.
  intros Hl He. unfold compute_column. rewrite Hl.
  generalize dependent (_text (Some label_el)); intros label He.
  destruct (in_strs label ["Uploaded"; "Platform"; "API"]%string) eqn:E.
  - key_cases E; rewrite E in He; discriminate.
  - rewrite He. intros H.
    apply rbind_ret in H as (iv & Hiv & H). inversion H; subst. eauto.
Qed.

Lemma compute_column_other (data data' : dict) (col : node) :
  is_score_column col = false -> compute_column data col = Ret data' ->
  dict_get data' (str "Score Label") = dict_get data (str "Score Label") /\
  dict_get data' (str "Compute Score") = dict_get data (str "Compute Score").
Proof.
  unfold is_score_column, compute_column. intros Hn H.
  destruct (select_one col sel_label) as [label_el|];
    [|inversion H; subst; auto].
  generalize dependent (_text (Some label_el)); intros label Hn H.
  destruct (in_strs label ["Uploaded"; "Platform"; "API"]%string) eqn:E.
  - key_cases E; subst label; simpl in H; inversion H; subst;
      rewrite !dict_get_set; split; reflexivity.
  - rewrite Hn in H. inversion H; subst; auto.
Qed.

(** C9.  When a compute card has several statistic columns whose label
    ends in [Score], the record's score label and compute score are those
    of the last one in document order: whatever the columns before it
    wrote is overwritten. *)
Theorem last_score_column_wins
  (inner : node) (d : dict) (pre : list node) (col : node)
  (post : list node) (label_el : node) :
  parse_v6_compute_block inner = Ret (Some d) ->
  select inner sel_stat_col = pre ++ col :: post ->
  select_one col sel_label = Some label_el ->
  endswith (_text (Some label_el)) (str "Score") = true ->
  forallb (fun c => negb (is_score_column c)) post = true ->
  dict_get d (str "Score Label") = Some (VStr (_text (Some label_el))) /\
  exists iv,
    _to_int (_text (select_one col sel_text_score)) = Ret iv /\
    dict_get d (str "Compute Score") = Some iv.
Proof.
  intros H Hsel Hl He Hpost. unfold parse_v6_compute_block in H.
  apply rbind_ret in H as (d0 & _ & H).
  apply rbind_ret in H as (d1 & H1 & H).
  apply finish_block_ok in H as [-> _].
  rewrite Hsel, fold_res_app in H1.
  apply rbind_ret in H1 as (da & _ & H1). simpl in H1.
  apply rbind_ret in H1 as (db & Hcol & H1).
  destruct (compute_column_score _ _ Hl He Hcol) as (iv & Hiv & ->).
  clear Hcol.
  assert (Hkeep :
    dict_get d1 (str "Score Label") = Some (VStr (_text (Some label_el))) /\
    dict_get d1 (str "Compute Score") = Some iv).
  { apply (@fold_res_inv _ _ compute_column
             (fun s => dict_get s (str "Score Label")
                         = Some (VStr (_text (Some label_el))) /\
                       dict_get s (str "Compute Score") = Some iv)
             post) with (3 := H1).
    - intros s x s' Hx [Ha Hb] Hs.
      rewrite forallb_forall in Hpost. specialize (Hpost x Hx).
      apply negb_true_iff in Hpost.
      destruct (compute_column_other _ _ Hpost Hs) as [-> ->]. auto.
    - rewrite !dict_get_set. split; reflexivity. }
  destruct Hkeep as [Ha Hb]. split; eauto.
Qed.

Lemma last_score_column_wins_witness :
  dict_get compute_record (str "Score Label")
    = Some (VStr (str "Vulkan Score")) /\
  exists iv,
    _to_int (str "2,000") = Ret iv /\
    dict_get compute_record (str "Compute Score") = Some iv.
Proof.
  apply (@last_score_column_wins compute_inner compute_record
           [uploaded_column; metal_column] vulkan_column [api_column]
           vulkan_label);
    vm_compute; reflexivity.
Defined.

(** ** Text fields of a card *)

(** What a turn of either column loop leaves alone. *)
Lemma cpu_column_frame (d d' : dict) (col : node) (k : pystr) :
  cpu_column d col = Ret d' ->
  mem k (List.map str ["Uploaded"; "Platform"; "User"; "Single-Core Score";
                       "Multi-Core Score"]%string) = false ->
  dict_get d' k = dict_get d k.
Proof.
  unfold cpu_column. intros H Hk.
  destruct (select_one col sel_label) as [label|];
    [|inversion H; subst; auto].
  generalize dependent (_text (Some label)); intros key H.
  simpl in Hk. rewrite !orb_false_iff in Hk.
  destruct Hk as (Hu & Hp & Hus & Hs & Hm & _).
  rewrite (pystr_eqb_comm k) in Hu, Hp, Hus, Hs, Hm.
  destruct (in_strs key ["Uploaded"; "Platform"]%string) eqn:E1.
  - assert (Hkey : pystr_eqb key k = false)
      by (key_cases E1; rewrite E1; assumption).
    destruct (pystr_eqb key (str "Uploaded"));
      [destruct (select_one col sel_user)|];
      inversion H; subst; rewrite !dict_get_set, ?Hkey, ?Hus; reflexivity.
  - destruct (in_strs key ["Single-Core Score"; "Multi-Core Score"]%string);
      [|inversion H; subst; auto].
    apply rbind_ret in H as (iv & _ & H).
    destruct (pystr_eqb key (str "Single-Core Score"));
      inversion H; subst; rewrite dict_get_set, ?Hs, ?Hm; reflexivity.
Qed.

Lemma compute_column_frame (d d' : dict) (col : node) (k : pystr) :
  compute_column d col = Ret d' ->
  mem k (List.map str ["Uploaded"; "Platform"; "API"; "Score Label";
                       "Compute Score"]%string) = false ->
  dict_get d' k = dict_get d k.
Proof.
  unfold compute_column. intros H Hk.
  destruct (select_one col sel_label) as [label|];
    [|inversion H; subst; auto].
  generalize dependent (_text (Some label)); intros key H.
  simpl in Hk. rewrite !orb_false_iff in Hk.
  destruct Hk as (Hu & Hp & Ha & Hs & Hc & _).
  rewrite (pystr_eqb_comm k) in Hu, Hp, Ha, Hs, Hc.
  destruct (in_strs key ["Uploaded"; "Platform"; "API"]%string) eqn:E1.
  - assert (Hkey : pystr_eqb key k = false)
      by (key_cases E1; rewrite E1; assumption).
    destruct (pystr_eqb key (str "API"));
      inversion H; subst; rewrite dict_get_set, ?Hkey, ?Ha; reflexivity.
  - destruct (endswith key (str "Score")); [|inversion H; subst; auto].
    apply rbind_ret in H as (iv & _ & H). inversion H; subst.
    rewrite !dict_get_set, Hs, Hc. reflexivity.
Qed.

Lemma find_snoc A (p : A -> bool) (l : list A) (x : A) :
  List.find p (l ++ [x])
  = match List.find p l with
    | Some y => Some y
    | None => if p x then Some x else None
    end.
Proof.
  induction l as [|a l IH]; simpl; [destruct (p x); auto|].
  destruct (p a); auto.
Qed.

(** A loop in which a turn either binds [k] to [v col] or leaves it alone:
    the last turn that binds it decides. *)
Lemma fold_last_writer (f : dict -> node -> res dict) (k : pystr)
  (p : node -> bool) (v : node -> pyval) :
  (forall d d' col, f d col = Ret d' ->
     dict_get d' k = if p col then Some (v col) else dict_get d k) ->
  forall l d d', fold_res f d l = Ret d' ->
  dict_get d' k = match List.find p (rev l) with
                  | Some col => Some (v col)
                  | None => dict_get d k
                  end.
Proof.
  intros Hf. induction l as [|x l IH]; intros d d' H; simpl in H.
  - inversion H; subst. reflexivity.
  - apply rbind_ret in H as (d1 & H1 & H). rewrite (IH _ _ H).
    cbn [rev]. rewrite find_snoc.
    destruct (List.find p (rev l)); auto.
    rewrite (Hf _ _ _ H1). destruct (p x); auto.
Qed.

Lemma in_strs_false (key : pystr) (l : list string) (s : string) :
  in_strs key l = false -> In s l -> pystr_eqb key (str s) = false.
Proof.
  unfold in_strs. intros H Hs.
  destruct (pystr_eqb key (str s)) eqn:E; auto.
  assert (Ht : existsb (fun s => pystr_eqb key (str s)) l = true)
    by (apply existsb_exists; eauto).
  congruence.
Qed.

Lemma cpu_column_text (d d' : dict) (col : node) (k : string) :
  cpu_column d col = Ret d' -> In k ["Uploaded"; "Platform"]%string ->
  dict_get d' (str k)
  = if labelled (str k) col
    then Some (VStr (_text (select_one col sel_text)))
    else dict_get d (str k).
Proof.
  unfold cpu_column, labelled. intros H Hk.
  destruct (select_one col sel_label) as [label|];
    [|inversion H; subst; auto].
  generalize dependent (_text (Some label)); intros key H.
  destruct (in_strs key ["Uploaded"; "Platform"]%string) eqn:E1.
  - simpl in Hk.
    key_cases E1; subst key; destruct Hk as [<- | [<- | []]];
      simpl in H; try destruct (select_one col sel_user);
      inversion H; subst; rewrite !dict_get_set; reflexivity.
  - rewrite (@in_strs_false _ _ _ E1 Hk).
    destruct (in_strs key ["Single-Core Score"; "Multi-Core Score"]%string);
      [|inversion H; subst; auto].
    apply rbind_ret in H as (iv & _ & H).
    simpl in Hk.
    destruct (pystr_eqb key (str "Single-Core Score"));
      inversion H; subst; rewrite dict_get_set;
      destruct Hk as [<- | [<- | []]]; reflexivity.
Qed.

Lemma cpu_column_user (d d' : dict) (col : node) :
  cpu_column d col = Ret d' ->
  dict_get d' (str "User")
  = if has_user col
    then Some (VStr (_text (select_one col sel_user)))
    else dict_get d (str "User").
Proof.
  unfold cpu_column, has_user, labelled. intros H.
  destruct (select_one col sel_label) as [label|];
    [|inversion H; subst; auto].
  generalize dependent (_text (Some label)); intros key H.
  destruct (in_strs key ["Uploaded"; "Platform"]%string) eqn:E1.
  - key_cases E1; subst key; simpl in H;
      try destruct (select_one col sel_user);
      inversion H; subst; rewrite !dict_get_set; reflexivity.
  - rewrite (@in_strs_false _ _ "Uploaded" E1 (or_introl eq_refl)).
    destruct (in_strs key ["Single-Core Score"; "Multi-Core Score"]%string);
      [|inversion H; subst; auto].
    apply rbind_ret in H as (iv & _ & H).
    destruct (pystr_eqb key (str "Single-Core Score"));
      inversion H; subst; rewrite dict_get_set; reflexivity.
Qed.

Lemma compute_column_text (d d' : dict) (col : node) (k : string) :
  compute_column d col = Ret d' ->
  In k ["Uploaded"; "Platform"; "API"]%string ->
  dict_get d' (str k)
  = if labelled (str k) col
    then Some (VStr (_text (select_one col sel_text)))
    else dict_get d (str k).
Proof.
  unfold compute_column, labelled. intros H Hk.
  destruct (select_one col sel_label) as [label|];
    [|inversion H; subst; auto].
  generalize dependent (_text (Some label)); intros key H.
  destruct (in_strs key ["Uploaded"; "Platform"; "API"]%string) eqn:E1.
  - simpl in Hk.
    key_cases E1; subst key; destruct Hk as [<- | [<- | [<- | []]]];
      simpl in H; inversion H; subst; rewrite !dict_get_set; reflexivity.
  - rewrite (@in_strs_false _ _ _ E1 Hk).
    destruct (endswith key (str "Score")); [|inversion H; subst; auto].
    apply rbind_ret in H as (iv & _ & H).
    simpl in Hk. inversion H; subst. rewrite !dict_get_set.
    destruct Hk as [<- | [<- | [<- | []]]]; reflexivity.
Qed.

Lemma compute_column_label (d d' : dict) (col : node) :
  compute_column d col = Ret d' ->
  dict_get d' (str "Score Label")
  = if is_score_column col
    then Some (VStr (_text (select_one col sel_label)))
    else dict_get d (str "Score Label").
Proof.
  intros H. destruct (is_score_column col) eqn:Es.
  - unfold is_score_column in Es.
    destruct (select_one col sel_label) as [label_el|] eqn:El;
      [|discriminate].
    destruct (compute_column_score _ _ El Es H) as (iv & _ & ->).
    rewrite !dict_get_set. reflexivity.
  - now apply compute_column_other in H as [-> _].
Qed.

(** What the left column leaves in the text fields. *)
Lemma left_column_text (prefix : string) (inner : node) (d d' : dict) :
  left_column prefix inner d = Ret d' ->
  dict_get d (str "System") = Some (VStr []) ->
  dict_get d (str "Result URL") = Some (VStr []) ->
  dict_get d (str "CPU Details") = Some (VStr []) ->
  dict_get d' (str "System")
  = Some (VStr (_text (card_link prefix inner))) /\
  dict_get d' (str "Result URL")
  = Some (VStr (match card_link prefix inner with
                | Some a => href a
                | None => []
                end)) /\
  dict_get d' (str "CPU Details")
  = Some (VStr (_text (sub (select_one inner sel_sys_col) sel_model))) /\
  forall k, In k ["Uploaded"; "Platform"; "User"; "API"; "Score Label"]%string ->
            dict_get d' (str k) = dict_get d (str k).
Proof.
  unfold left_column, card_link. intros H Hs Hu Hd.
  destruct (select_one inner sel_sys_col) as [sys_col|];
    [|inversion H; subst; auto].
  cbn [sub].
  apply rbind_ret in H as (d1 & H1 & H).
  assert (Hd1 :
    dict_get d1 (str "System")
    = Some (VStr (_text (select_one sys_col
                           [css (Some "a"%string) []
                                (Some ("href"%string, prefix))]))) /\
    dict_get d1 (str "Result URL")
    = Some (VStr (match select_one sys_col
                          [css (Some "a"%string) []
                               (Some ("href"%string, prefix))] with
                  | Some a => href a
                  | None => []
                  end)) /\
    dict_get d1 (str "CPU Details") = Some (VStr []) /\
    forall k, In k ["Uploaded"; "Platform"; "User"; "API"; "Score Label"]%string ->
              dict_get d1 (str k) = dict_get d (str k)).
  { destruct (select_one sys_col _) as [a|]; [|inversion H1; subst; auto].
    apply rbind_ret in H1 as (v & Hv & H1). inversion H1; subst.
    unfold tag_getitem in Hv. unfold href.
    destruct (attr a (str "href")) as [v'|]; [|discriminate].
    inversion Hv; subst v'.
    rewrite !dict_get_set. repeat split; auto.
    intros k Hk. rewrite !dict_get_set. simpl in Hk.
    repeat (destruct Hk as [<- | Hk]; [reflexivity|]). destruct Hk. }
  destruct Hd1 as (Hs1 & Hu1 & Hd1 & Ho1).
  destruct (select_one sys_col sel_model) as [model|];
    [|inversion H; subst; auto].
  apply rbind_ret in H as (cores & _ & H). inversion H; subst. clear H.
  cbn [sub].
  destruct cores; destruct (mhz_match _); rewrite !dict_get_set;
    (split; [exact Hs1|]); (split; [exact Hu1|]); (split; [reflexivity|]);
    intros k Hk; rewrite !dict_get_set; simpl in Hk;
    repeat (destruct Hk as [<- | Hk]; [apply Ho1; simpl; tauto|]);
    destruct Hk.
Qed.

Lemma text_of_found (o : option node) (v : node -> pyval) (s0 : pystr)
  (sel : selector) :
  (forall col, v col = VStr (_text (select_one col sel))) -> s0 = [] ->
  match o with Some col => Some (v col) | None => Some (VStr s0) end
  = Some (VStr (_text (sub o sel))).
Proof. intros Hv ->. destruct o; simpl; [now rewrite Hv | reflexivity]. Qed.

Lemma fold_unchanged (f : dict -> node -> res dict) (k : pystr) :
  (forall d d' col, f d col = Ret d' -> dict_get d' k = dict_get d k) ->
  forall l d d', fold_res f d l = Ret d' -> dict_get d' k = dict_get d k.
Proof.
  intros Hf. induction l as [|x l IH]; intros d d' H; simpl in H.
  - now inversion H.
  - apply rbind_ret in H as (d1 & H1 & H).
    rewrite (IH _ _ H). eauto.
Qed.

(** C10.  [_text] gives the empty string for a missing element.  Every
    text field a card parser reads from the page is [_text] of the element
    it is read from, found or not: the system name of the result link, the
    details of the model line, [Uploaded], [Platform] and [API] of the value
    element of the last column so labelled, [User] of the uploader link of
    the last [Uploaded] column that has one, and the score label of the
    label of the last score column.  So each of them is the empty string,
    not null, when that element is absent, and every text column of a card
    record holds a string. *)
Theorem text_of_missing_element :
  _text None = [] /\
  (forall inner d,
     parse_v6_cpu_block inner = Ret (Some d) ->
     dict_get d (str "System")
     = Some (VStr (_text (card_link "/v6/cpu/" inner))) /\
     dict_get d (str "CPU Details")
     = Some (VStr (_text (sub (select_one inner sel_sys_col) sel_model))) /\
     dict_get d (str "Uploaded")
     = Some (VStr (_text (sub (last_column (labelled (str "Uploaded")) inner)
                              sel_text))) /\
     dict_get d (str "Platform")
     = Some (VStr (_text (sub (last_column (labelled (str "Platform")) inner)
                              sel_text))) /\
     dict_get d (str "User")
     = Some (VStr (_text (sub (last_column has_user inner) sel_user)))) /\
  (forall inner d,
     parse_v6_compute_block inner = Ret (Some d) ->
     dict_get d (str "System")
     = Some (VStr (_text (card_link "/v6/compute/" inner))) /\
     dict_get d (str "CPU Details")
     = Some (VStr (_text (sub (select_one inner sel_sys_col) sel_model))) /\
     dict_get d (str "Uploaded")
     = Some (VStr (_text (sub (last_column (labelled (str "Uploaded")) inner)
                              sel_text))) /\
     dict_get d (str "Platform")
     = Some (VStr (_text (sub (last_column (labelled (str "Platform")) inner)
                              sel_text))) /\
     dict_get d (str "API")
     = Some (VStr (_text (sub (last_column (labelled (str "API")) inner)
                              sel_text))) /\
     dict_get d (str "Score Label")
     = Some (VStr (_text (sub (last_column is_score_column inner)
                              sel_label)))) /\
  (forall inner d k, parse_v6_cpu_block inner = Ret (Some d) ->
     In k cpu_text_keys -> exists s, dict_get d k = Some (VStr s)) /\
  (forall inner d k, parse_v6_compute_block inner = Ret (Some d) ->
     In k gpu_text_keys -> exists s, dict_get d k = Some (VStr s)).
Proof.
  split; [reflexivity|]. split; [|split; [|split]].
  - intros inner d H. unfold parse_v6_cpu_block in H.
    apply rbind_ret in H as (d0 & H0 & H).
    apply rbind_ret in H as (d1 & H1 & H).
    apply finish_block_ok in H as [-> _].
    destruct (left_column_text _ _ _ H0 eq_refl eq_refl eq_refl)
      as (Hs & _ & Hd & Ho).
    rewrite <- Hs, <- Hd.
    split; [apply (@fold_unchanged cpu_column (str "System")) with (2 := H1);
            intros s x s' Hx; apply (@cpu_column_frame _ _ _ _ Hx); reflexivity|].
    split; [apply (@fold_unchanged cpu_column (str "CPU Details")) with (2 := H1);
            intros s x s' Hx; apply (@cpu_column_frame _ _ _ _ Hx); reflexivity|].
    unfold last_column.
    split; [|split].
    + rewrite (@fold_last_writer cpu_column (str "Uploaded")
                 (labelled (str "Uploaded"))
                 (fun col => VStr (_text (select_one col sel_text)))
                 (fun d d' col Hc => @cpu_column_text d d' col "Uploaded" Hc
                                       (or_introl eq_refl)) _ _ _ H1).
      rewrite (Ho "Uploaded"%string) by (simpl; tauto).
      now apply text_of_found.
    + rewrite (@fold_last_writer cpu_column (str "Platform")
                 (labelled (str "Platform"))
                 (fun col => VStr (_text (select_one col sel_text)))
                 (fun d d' col Hc => @cpu_column_text d d' col "Platform" Hc
                                       (or_intror (or_introl eq_refl)))
                 _ _ _ H1).
      rewrite (Ho "Platform"%string) by (simpl; tauto).
      now apply text_of_found.
    + rewrite (@fold_last_writer cpu_column (str "User") has_user
                 (fun col => VStr (_text (select_one col sel_user)))
                 cpu_column_user _ _ _ H1).
      rewrite (Ho "User"%string) by (simpl; tauto).
      now apply text_of_found.
  - intros inner d H. unfold parse_v6_compute_block in H.
    apply rbind_ret in H as (d0 & H0 & H).
    apply rbind_ret in H as (d1 & H1 & H).
    apply finish_block_ok in H as [-> _].
    destruct (left_column_text _ _ _ H0 eq_refl eq_refl eq_refl)
      as (Hs & _ & Hd & Ho).
    rewrite <- Hs, <- Hd.
    split; [apply (@fold_unchanged compute_column (str "System")) with (2 := H1);
            intros s x s' Hx; apply (@compute_column_frame _ _ _ _ Hx); reflexivity|].
    split; [apply (@fold_unchanged compute_column (str "CPU Details")) with (2 := H1);
            intros s x s' Hx; apply (@compute_column_frame _ _ _ _ Hx); reflexivity|].
    unfold last_column.
    split; [|split; [|split]].
    + rewrite (@fold_last_writer compute_column (str "Uploaded")
                 (labelled (str "Uploaded"))
                 (fun col => VStr (_text (select_one col sel_text)))
                 (fun d d' col Hc => @compute_column_text d d' col "Uploaded"
                                       Hc (or_introl eq_refl)) _ _ _ H1).
      rewrite (Ho "Uploaded"%string) by (simpl; tauto).
      now apply text_of_found.
    + rewrite (@fold_last_writer compute_column (str "Platform")
                 (labelled (str "Platform"))
                 (fun col => VStr (_text (select_one col sel_text)))
                 (fun d d' col Hc => @compute_column_text d d' col "Platform"
                                       Hc (or_intror (or_introl eq_refl)))
                 _ _ _ H1).
      rewrite (Ho "Platform"%string) by (simpl; tauto).
      now apply text_of_found.
    + rewrite (@fold_last_writer compute_column (str "API")
                 (labelled (str "API"))
                 (fun col => VStr (_text (select_one col sel_text)))
                 (fun d d' col Hc => @compute_column_text d d' col "API"
                                       Hc (or_intror (or_intror
                                                        (or_introl eq_refl))))
                 _ _ _ H1).
      rewrite (Ho "API"%string) by (simpl; tauto).
      now apply text_of_found.
    + rewrite (@fold_last_writer compute_column (str "Score Label")
                 is_score_column
                 (fun col => VStr (_text (select_one col sel_label)))
                 compute_column_label _ _ _ H1).
      rewrite (Ho "Score Label"%string) by (simpl; tauto).
      now apply text_of_found.
  - intros inner d k H Hk. apply parse_v6_cpu_block_ok in H as [[Ht _] _].
    apply Ht, mem_In, Hk.
  - intros inner d k H Hk. apply parse_v6_compute_block_ok in H as [[Ht _] _].
    apply Ht, mem_In, Hk.
Qed.

Lemma text_of_missing_element_witness :
  dict_get compute_record (str "Platform") = Some (VStr []).
Proof.
  refine (eq_trans
            (proj1 (proj2 (proj2 (proj2
               (proj1 (proj2 (proj2 text_of_missing_element))
                      compute_inner compute_record _)))))
            _);
    vm_compute; reflexivity.
Defined.

(** ** What a selector hands back *)

Lemma select_match (root : node) (sel : selector) (n : node) :
  In n (select root sel) -> exists anc, match_selector sel anc n = true.
Proof.
  unfold select. intros H. apply in_map_iff in H as ([anc m] & <- & H).
  apply filter_In in H as [_ H]. eauto.
Qed.

Lemma select_one_In (root : node) (sel : selector) (n : node) :
  select_one root sel = Some n -> In n (select root sel).
Proof.
  unfold select_one. destruct (select root sel); simpl; [discriminate|].
  intros H; inversion H; now left.
Qed.

(** The tag an attribute-prefix selector finds has the attribute, and its
    value starts with the prefix: [a["href"]] cannot fail on it. *)
Lemma select_one_link (root : node) (prefix : string) (a : node) :
  select_one root [css (Some "a"%string) [] (Some ("href"%string, prefix))]
  = Some a ->
  exists v, attr a (str "href") = Some v /\ startswith v (str prefix) = true.
Proof.
  intros H. apply select_one_In, select_match in H as [anc H].
  unfold match_selector in H. simpl in H. rewrite orb_false_r in H.
  unfold match_compound in H. simpl in H.
  apply andb_true_iff in H as [_ H].
  destruct (attr a _) as [v|]; [eauto | discriminate].
Qed.

(** ** Keys of a record *)

Lemma dict_set_keys (d : dict) (k : pystr) (v : pyval) :
  mem k (keys d) = true -> keys (dict_set d k v) = keys d.
Proof.
  unfold keys. induction d as [|[k0 v0] d IH]; simpl; [discriminate|].
  rewrite (pystr_eqb_comm k k0).
  destruct (pystr_eqb k0 k); simpl; auto. intros H. now rewrite IH.
Qed.

Lemma dict_get_keys (d : dict) (k : pystr) :
  mem k (keys d) = true -> exists v, dict_get d k = Some v.
Proof.
  unfold keys. induction d as [|[k0 v0] d IH]; simpl; [discriminate|].
  rewrite (pystr_eqb_comm k k0).
  destruct (pystr_eqb k0 k); simpl; eauto.
Qed.

Lemma fold_res_total_inv S X (f : S -> X -> res S) (P : S -> Prop)
  (e0 : exn) (l : list X) :
  (forall s x, P s ->
     (exists s', f s x = Ret s' /\ P s') \/ f s x = Raise e0) ->
  forall s, P s ->
    (exists s', fold_res f s l = Ret s' /\ P s') \/
    fold_res f s l = Raise e0.
Proof.
  intros Hf. induction l as [|x l IH]; intros s Hs; simpl; eauto.
  destruct (Hf s x Hs) as [(s1 & -> & H1) | ->]; simpl; auto.
Qed.

Section CardKeys.
Variable cols : list pystr.
Hypothesis has_system : mem (str "System") cols = true.
Hypothesis has_url : mem (str "Result URL") cols = true.
Hypothesis has_details : mem (str "CPU Details") cols = true.
Hypothesis has_mhz : mem (str "Frequency_MHz") cols = true.
Hypothesis has_cores : mem (str "Cores") cols = true.

(** The left column binds no new key, and raises nothing but the
    [ValueError] of the core count. *)
Lemma left_column_keys (prefix : string) (inner : node) (d : dict) :
  keys d = cols ->
  (exists d', left_column prefix inner d = Ret d' /\ keys d' = cols) \/
  left_column prefix inner d = Raise ValueError.
Proof.
  intros Hk. unfold left_column.
  destruct (select_one inner sel_sys_col) as [sys_col|]; [|eauto].
  assert (H1 : exists d1,
    match select_one sys_col
            [css (Some "a"%string) [] (Some ("href"%string, prefix))] with
    | Some a =>
        rbind (tag_getitem a (str "href")) (fun href =>
          Ret (dict_set (dict_set d (str "System") (VStr (_text (Some a))))
                        (str "Result URL") (VStr href)))
    | None => Ret d
    end = Ret d1 /\ keys d1 = cols).
  { destruct (select_one sys_col _) as [a|] eqn:Ea; [|eauto].
    destruct (select_one_link _ _ Ea) as (v & Hv & _).
    unfold tag_getitem. rewrite Hv. simpl. eexists. split; [reflexivity|].
    rewrite !dict_set_keys; rewrite ?dict_set_keys; rewrite ?Hk; auto. }
  destruct H1 as (d1 & -> & Hk1). cbn [rbind].
  destruct (select_one sys_col sel_model) as [model|]; [|eauto].
  destruct (cores_match (_text (Some model))) as [cores|e] eqn:Ec;
    cbn [rbind].
  - left. eexists. split; [reflexivity|].
    destruct cores; destruct (mhz_match _);
      repeat (rewrite dict_set_keys; rewrite ?dict_set_keys; rewrite ?Hk1;
              auto).
  - right. now rewrite (cores_match_raises _ Ec).
Qed.

Lemma finish_block_total (d : dict) :
  keys d = cols -> exists r, finish_block d = Ret r.
Proof.
  intros Hk. unfold finish_block, getitem.
  destruct (@dict_get_keys d (str "System")) as [s ->];
    [now rewrite Hk|].
  destruct (@dict_get_keys d (str "Result URL")) as [u ->];
    [now rewrite Hk|].
  simpl. destruct (truthy s); simpl; eauto. destruct (truthy u); simpl; eauto.
Qed.
End CardKeys.

Lemma cpu_column_keys (d : dict) (col : node) :
  keys d = cpu_cols ->
  (exists d', cpu_column d col = Ret d' /\ keys d' = cpu_cols) \/
  cpu_column d col = Raise ValueError.
Proof.
  intros Hk. unfold cpu_column.
  destruct (select_one col sel_label) as [label|]; [|eauto].
  generalize (_text (Some label)); intros key.
  destruct (in_strs key ["Uploaded"; "Platform"]%string) eqn:E1.
  - assert (Hin : mem key cpu_cols = true)
      by (key_cases E1; rewrite E1; reflexivity).
    left.
    destruct (pystr_eqb key (str "Uploaded"));
      [destruct (select_one col sel_user)|];
      (eexists; split; [reflexivity|]);
      repeat (rewrite dict_set_keys; rewrite ?dict_set_keys; rewrite ?Hk; auto).
  - destruct (in_strs key ["Single-Core Score"; "Multi-Core Score"]%string);
      [|eauto].
    unfold _to_int.
    destruct (to_int (_text (select_one col sel_text_score)))
      as [iv|e] eqn:Hiv; cbn [rbind].
    + left. destruct (pystr_eqb key (str "Single-Core Score"));
        (eexists; split; [reflexivity|]);
        rewrite dict_set_keys; rewrite ?Hk; auto.
    + right. now rewrite (to_int_raises _ Hiv).
Qed.

Lemma compute_column_keys (d : dict) (col : node) :
  keys d = gpu_cols ->
  (exists d', compute_column d col = Ret d' /\ keys d' = gpu_cols) \/
  compute_column d col = Raise ValueError.
Proof.
  intros Hk. unfold compute_column.
  destruct (select_one col sel_label) as [label|]; [|eauto].
  generalize (_text (Some label)); intros key.
  destruct (in_strs key ["Uploaded"; "Platform"; "API"]%string) eqn:E1.
  - assert (Hin : mem key gpu_cols = true)
      by (key_cases E1; rewrite E1; reflexivity).
    left.
    destruct (pystr_eqb key (str "API"));
      (eexists; split; [reflexivity|]);
      rewrite dict_set_keys; rewrite ?Hk; auto.
  - destruct (endswith key (str "Score")); [|eauto].
    unfold _to_int.
    destruct (to_int (_text (select_one col sel_text_score)))
      as [iv|e] eqn:Hiv; cbn [rbind].
    + left. eexists; split; [reflexivity|].
      repeat (rewrite dict_set_keys; rewrite ?dict_set_keys; rewrite ?Hk;
              auto).
    + right. now rewrite (to_int_raises _ Hiv).
Qed.

(** A card block raises nothing but [ValueError]: no [KeyError] from
    [a["href"]] or [data[...]].  What it keeps has the schema's columns as
    its keys. *)
Lemma parse_v6_cpu_block_keys (inner : node) :
  (exists r, parse_v6_cpu_block inner = Ret r /\
             forall d, r = Some d -> keys d = cpu_cols) \/
  parse_v6_cpu_block inner = Raise ValueError.
Proof.
  unfold parse_v6_cpu_block.
  destruct (@left_column_keys cpu_cols eq_refl eq_refl eq_refl eq_refl
              eq_refl "/v6/cpu/" inner cpu_data0 eq_refl)
    as [(d0 & -> & H0) | ->]; [|now right].
  cbn [rbind].
  destruct (@fold_res_total_inv _ _ cpu_column (fun d => keys d = cpu_cols)
              ValueError (select inner sel_stat_col) cpu_column_keys d0 H0)
    as [(d1 & -> & H1) | ->]; [|now right].
  cbn [rbind]. left.
  destruct (@finish_block_total cpu_cols eq_refl eq_refl d1 H1) as [r Hr].
  exists r. split; auto. intros d ->.
  apply finish_block_ok in Hr as [-> _]. exact H1.
Qed.

Lemma parse_v6_compute_block_keys (inner : node) :
  (exists r, parse_v6_compute_block inner = Ret r /\
             forall d, r = Some d -> keys d = gpu_cols) \/
  parse_v6_compute_block inner = Raise ValueError.
Proof.
  unfold parse_v6_compute_block.
  destruct (@left_column_keys gpu_cols eq_refl eq_refl eq_refl eq_refl
              eq_refl "/v6/compute/" inner compute_data0 eq_refl)
    as [(d0 & -> & H0) | ->]; [|now right].
  cbn [rbind].
  destruct (@fold_res_total_inv _ _ compute_column
              (fun d => keys d = gpu_cols) ValueError
              (select inner sel_stat_col) compute_column_keys d0 H0)
    as [(d1 & -> & H1) | ->]; [|now right].
  cbn [rbind]. left.
  destruct (@finish_block_total gpu_cols eq_refl eq_refl d1 H1) as [r Hr].
  exists r. split; auto. intros d ->.
  apply finish_block_ok in Hr as [-> _]. exact H1.
Qed.

Lemma parse_v4_row_keys (tr : node) :
  (exists r, parse_v4_row tr = Ret r /\
             forall d, r = Some d -> keys d = cpu_cols) \/
  parse_v4_row tr = Raise ValueError.
Proof.
  destruct (parse_v4_row tr) as [r|e] eqn:Hr;
    [|right; now rewrite (parse_v4_row_raises _ Hr)].
  left. exists r. split; auto. intros d ->.
  destruct (parse_v4_row_some _ Hr)
    as (td0 & td1 & td2 & td3 & td4 & td5 & E & Hm).
  destruct (parse_v4_row_kept _ E Hm Hr)
    as (up & sys & det & mhz & cores & plat & user & single & multi & url
        & _ & _ & Hd).
  inversion Hd. reflexivity.
Qed.

Lemma nonempty_keys (d : dict) (cols : list pystr) :
  keys d = cols -> cols <> [] -> row_truthy (Some d) = true.
Proof. destruct d; simpl; auto. Qed.

Lemma records_of_cons parse (x : node) (xs : list node) :
  records_of parse (x :: xs)
  = match parse x with Ret (Some d) => [d] | _ => [] end
    ++ records_of parse xs.
Proof. reflexivity. Qed.

(** The page loop, for a block parser whose records are never empty
    dictionaries and that raises nothing but [ValueError]. *)
Lemma collect_rows_result_acc parse (xs : list node) :
  (forall x,
     (exists r, parse x = Ret r /\
                forall d, r = Some d -> row_truthy (Some d) = true) \/
     parse x = Raise ValueError) ->
  forall acc,
  match fold_res (fun out x =>
              rbind (parse x) (fun row =>
              Ret (match row with
                   | Some d => if row_truthy row then out ++ [d] else out
                   | None => out
                   end)))
           acc xs with
  | Ret rows =>
      rows = acc ++ records_of parse xs /\
      Forall (fun x => exists r, parse x = Ret r) xs
  | Raise e =>
      e = ValueError /\
      exists pre x post,
        xs = pre ++ x :: post /\
        Forall (fun x => exists r, parse x = Ret r) pre /\
        parse x = Raise ValueError
  end.
Proof.
  intros Hp. induction xs as [|x xs IH]; intros acc.
  - simpl. rewrite app_nil_r. auto.
  - cbn [fold_res]. rewrite records_of_cons.
    destruct (Hp x) as [(r & Hr & Ht) | Hr]; rewrite Hr; cbn [rbind].
    + assert (Hx : exists r, parse x = Ret r) by eauto.
      destruct r as [d|].
      * rewrite (Ht d eq_refl). specialize (IH (acc ++ [d])).
        destruct (fold_res _ (acc ++ [d]) xs) as [rows|e].
        -- destruct IH as [-> HF]. rewrite <- app_assoc. auto.
        -- destruct IH as (-> & pre & y & post & -> & HF & Hy).
           split; auto. exists (x :: pre), y, post. auto.
      * specialize (IH acc).
        destruct (fold_res _ acc xs) as [rows|e].
        -- destruct IH as [-> HF]. auto.
        -- destruct IH as (-> & pre & y & post & -> & HF & Hy).
           split; auto. exists (x :: pre), y, post. auto.
    + split; auto. exists [], x, xs. auto.
Qed.

Lemma collect_rows_result parse (xs : list node) (cols : list pystr) :
  cols <> [] ->
  (forall x,
     (exists r, parse x = Ret r /\ forall d, r = Some d -> keys d = cols) \/
     parse x = Raise ValueError) ->
  page_loop_result parse xs (collect_rows parse xs).
Proof.
  intros Hne Hp.
  assert (Hp' : forall x,
    (exists r, parse x = Ret r /\
               forall d, r = Some d -> row_truthy (Some d) = true) \/
    parse x = Raise ValueError).
  { intros x. destruct (Hp x) as [(r & Hr & Hk) | Hr]; auto.
    left. exists r. split; auto.
    intros d E. apply (@nonempty_keys d cols); auto. }
  exact (@collect_rows_result_acc parse xs Hp' []).
Qed.

(** The records of the parser the driver calls for a mode have the mode's
    columns as their keys. *)
Lemma page_record_keys (mode : pystr) (soup : node) (l : list dict)
  (d : dict) :
  parse_page mode soup = Ret l -> In d l -> keys d = mode_cols mode.
Proof.
  intros H Hd. unfold parse_page, mode_cols in *.
  destruct (pystr_eqb mode (str "v6-compute")).
  - destruct (@collect_rows_In _ _ _ _ H Hd) as (x & _ & Hx).
    destruct (parse_v6_compute_block_keys x) as [(r & Hr & Hk) | Hr];
      rewrite Hr in Hx; [|discriminate]. inversion Hx. auto.
  - destruct (pystr_eqb mode (str "v6-cpu")).
    + destruct (@collect_rows_In _ _ _ _ H Hd) as (x & _ & Hx).
      destruct (parse_v6_cpu_block_keys x) as [(r & Hr & Hk) | Hr];
        rewrite Hr in Hx; [|discriminate]. inversion Hx. auto.
    + unfold parse_v4_page in H.
      destruct (select_one soup _);
        [|inversion H; subst; destruct Hd].
      destruct (@collect_rows_In _ _ _ _ H Hd) as (x & _ & Hx).
      destruct (parse_v4_row_keys x) as [(r & Hr & Hk) | Hr];
        rewrite Hr in Hx; [|discriminate]. inversion Hx. auto.
Qed.

(** ** The page fetcher *)

Lemma range_0_3 : range 0 3 = [0; 1; 2]%Z.
Proof. reflexivity. Qed.

Lemma range_cons (a b : Z) :
  (a < b)%Z -> range a b = a :: range (a + 1) b.
Proof.
  intros H. unfold range.
  replace (Z.to_nat (b - a)) with (S (Z.to_nat (b - (a + 1)))) by lia.
  simpl. rewrite Z.add_0_r. f_equal.
  rewrite <- seq_shift, map_map. apply map_ext. intros i. lia.
Qed.

Lemma range_empty (a b : Z) : (b <= a)%Z -> range a b = [].
Proof.
  intros H. unfold range. replace (Z.to_nat (b - a)) with 0%nat by lia.
  reflexivity.
Qed.

Lemma range_lower (a b p : Z) : In p (range a b) -> (a <= p)%Z.
Proof.
  unfold range. intros H. apply in_map_iff in H as (i & <- & _). lia.
Qed.

Lemma range_length (a b : Z) : List.length (range a b) = Z.to_nat (b - a).
Proof. unfold range. now rewrite length_map, length_seq. Qed.

(** What one run of [get_soup] does to the world: between one and three
    requests, all to the same URL, and no file written. *)
Lemma get_soup_requests server (url : pystr) (w w' : world) r :
  get_soup server url w = (r, w') ->
  written w' = written w /\
  exists k, (1 <= k <= 3)%nat /\
            requests w' = requests w ++ repeat url k.
Proof.
  unfold get_soup. rewrite range_0_3. cbn [get_soup_loop].
  unfold mbind, session_get, sleep, mret, lift. cbn.
  intros H.
  destruct (server (List.length (requests w)) url) as [st1 b1|];
    [|inversion H; subst; cbn; split; auto; exists 1%nat; split; [lia|auto]].
  cbn in H. destruct (st1 =? 200)%Z;
    [inversion H; subst; cbn; split; auto; exists 1%nat; split; [lia|auto]|].
  cbn in H.
  destruct (server (List.length (requests w ++ [url])) url) as [st2 b2|];
    [|inversion H; subst; cbn; split; auto; exists 2%nat; split; [lia|];
      now rewrite <- app_assoc].
  cbn in H. destruct (st2 =? 200)%Z;
    [inversion H; subst; cbn; split; auto; exists 2%nat; split; [lia|];
     now rewrite <- app_assoc|].
  cbn in H.
  destruct (server (List.length ((requests w ++ [url]) ++ [url])) url)
    as [st3 b3|];
    [|inversion H; subst; cbn; split; auto; exists 3%nat; split; [lia|];
      now rewrite <- !app_assoc].
  cbn in H. destruct (st3 =? 200)%Z;
    [inversion H; subst; cbn; split; auto; exists 3%nat; split; [lia|];
     now rewrite <- !app_assoc|].
  cbn in H. destruct (raise_for_status st3); cbn in H;
    inversion H; subst; cbn; split; auto; exists 3%nat; (split; [lia|]);
    now rewrite <- !app_assoc.
Qed.

(** Three answers in a row with a status other than 200: the third
    decides.  A 4xx or 5xx status is raised; any other status lets the
    function fall off its end and return [None]. *)
Lemma get_soup_three_failures server (url : pystr) (w : world)
  (st1 st2 st3 : Z) (b1 b2 b3 : node) :
  let n := List.length (requests w) in
  server n url = Reply st1 b1 -> st1 <> 200%Z ->
  server (S n) url = Reply st2 b2 -> st2 <> 200%Z ->
  server (S (S n)) url = Reply st3 b3 -> st3 <> 200%Z ->
  get_soup server url w
  = (if ((400 <=? st3) && (st3 <? 600))%Z
     then Raise (HTTPError st3) else Ret None,
     World (requests w ++ [url; url; url])
           (slept w ++ [inject_Z 1; inject_Z 2; inject_Z 3]) (written w)).
Proof.
  intros n E1 H1 E2 H2 E3 H3.
  apply Z.eqb_neq in H1, H2, H3.
  unfold get_soup. rewrite range_0_3. cbn [get_soup_loop].
  unfold mbind, session_get, sleep, mret, lift. cbn.
  fold n. rewrite E1. cbn. rewrite H1. cbn.
  rewrite length_app, Nat.add_1_r. fold n. rewrite E2. cbn. rewrite H2. cbn.
  rewrite !length_app, !Nat.add_1_r. fold n. rewrite E3. cbn. rewrite H3. cbn.
  unfold raise_for_status.
  destruct ((400 <=? st3) && (st3 <? 600))%Z; cbn;
    now rewrite <- !app_assoc.
Qed.

(** C4 at the failing input: a site that answers 204 to every request.
    After exactly three requests [get_soup] returns [None]: no document,
    and no error carrying the status. *)
Theorem get_soup_falls_through_on_204 (url : pystr) (body : node) :
  get_soup (fun _ _ => Reply 204 body) url world0
  = (Ret None,
     World [url; url; url] [inject_Z 1; inject_Z 2; inject_Z 3] []).
Proof. reflexivity. Qed.

(** ** The pagination detector *)

Lemma detect_max_pages_absent (soup : node) :
  select_one soup sel_pagination = None -> detect_max_pages soup = Ret 1%Z.
Proof. unfold detect_max_pages. now intros ->. Qed.

Lemma detect_max_pages_example : detect_max_pages pagination_doc = Ret 5%Z.
Proof. reflexivity. Qed.

(** C6 at the failing input: the only pagination link is labelled with the
    superscript two.  [isdigit] accepts the label, [int] does not, and the
    detector raises instead of returning a page count. *)
Theorem detect_max_pages_superscript :
  isdigit [178%N] = true /\
  py_int [178%N] = Raise ValueError /\
  detect_max_pages superscript_doc = Raise ValueError.
Proof. repeat split; reflexivity. Qed.

Lemma py_max_spec (rest : list Z) :
  forall z, In (py_max z rest) (z :: rest) /\
            forall x, In x (z :: rest) -> (x <= py_max z rest)%Z.
Proof.
  unfold py_max. induction rest as [|y rest IH]; intros z; simpl.
  - split; auto. intros x [<- | []]. lia.
  - destruct (IH (Z.max z y)) as [Hin Hle]. split.
    + destruct Hin as [E | Hin]; [|auto].
      rewrite <- E. destruct (Z.max_spec z y) as [[_ ->] | [_ ->]]; auto.
    + intros x [<- | [<- | Hx]].
      * specialize (Hle (Z.max z y) (or_introl eq_refl)). lia.
      * specialize (Hle (Z.max z y) (or_introl eq_refl)). lia.
      * apply Hle. now right.
Qed.

Lemma isdigit_nonempty (t : pystr) : isdigit t = true -> t <> [].
Proof. destruct t; simpl; congruence. Qed.

Lemma pagination_labels_fold (l : list node) :
  (forall a, In a l -> isdigit (strip (get_text a)) = true ->
             all_of isdecimal (strip (get_text a)) /\
             within_limit (strip (get_text a))) ->
  forall acc, exists nums,
    Forall2 (fun t z => py_int t = Ret z)
            (filter isdigit (List.map (fun a => strip (get_text a)) l)) nums /\
    fold_res (fun nums a =>
                let t := strip (get_text a) in
                if isdigit t
                then rbind (py_int t) (fun z => Ret (nums ++ [z]))
                else Ret nums) acc l
    = Ret (acc ++ nums).
Proof.
  set (F := fun (nums : list Z) (a : node) => _).
  induction l as [|a l IH]; intros Hl acc.
  - exists []. split; [constructor | simpl; now rewrite app_nil_r].
  - assert (Hl' : forall a', In a' l -> isdigit (strip (get_text a')) = true ->
                             all_of isdecimal (strip (get_text a')) /\
                             within_limit (strip (get_text a')))
      by (intros a' Ha'; apply Hl; now right).
    cbn [fold_res List.map filter]. unfold F at 1. cbv zeta.
    destruct (isdigit (strip (get_text a))) eqn:Ed.
    + pose proof (Hl a (or_introl eq_refl) Ed) as [Hd Hlim].
      destruct (digits_value_total Hd 0) as [n Hn].
      pose proof (py_int_within (@isdigit_nonempty _ Ed) Hn Hlim) as Hi.
      rewrite Hi. cbn [rbind].
      destruct (IH Hl' (acc ++ [Z.of_N n])) as (nums & HF & ->).
      exists (Z.of_N n :: nums). split; [now constructor|].
      now rewrite <- app_assoc.
    + cbn [rbind]. destruct (IH Hl' acc) as (nums & HF & ->). eauto.
Qed.

(** Where every label that [isdigit] accepts is made of decimal digits, no
    more of them than [int] reads, the detector returns the largest label,
    or 1 when no label is numeric. *)
Lemma detect_max_pages_decimal (soup pag : node) :
  select_one soup sel_pagination = Some pag ->
  (forall a, In a (find_all pag (str "a")) ->
             isdigit (strip (get_text a)) = true ->
             all_of isdecimal (strip (get_text a)) /\
             within_limit (strip (get_text a))) ->
  exists nums,
    Forall2 (fun t z => py_int t = Ret z)
      (filter isdigit
         (List.map (fun a => strip (get_text a)) (find_all pag (str "a"))))
      nums /\
    detect_max_pages soup
    = Ret (match nums with [] => 1%Z | z :: rest => py_max z rest end).
Proof.
  intros Hp Hl. unfold detect_max_pages. rewrite Hp.
  destruct (@pagination_labels_fold _ Hl []) as (nums & HF & E).
  exists nums. split; auto.
  cbv zeta in E |- *. rewrite E. reflexivity.
Qed.

(** ** The frame the driver builds *)

Lemma mem_app (k : pystr) (a b : list pystr) :
  mem k (a ++ b) = mem k a || mem k b.
Proof. unfold mem. apply existsb_app. Qed.








Lemma cell_along (f : pystr -> pyval) (cols : list pystr) (c : pystr) :
  mem c cols = true -> cell (List.map (fun c => (c, f c)) cols) c = f c.
Proof.
  unfold cell.
  induction cols as [|c' cols IH]; simpl; [discriminate|].
  rewrite (pystr_eqb_comm c c').
  destruct (pystr_eqb c' c) eqn:E.
  - apply pystr_eqb_eq in E. now subst.
  - simpl. exact IH.
Qed.


Lemma first_error_In A (f : A -> option exn) (l : list A) (e : exn) :
  first_error f l = Some e -> exists x, In x l /\ f x = Some e.
Proof.
  induction l as [|x l IH]; simpl; [discriminate|].
  destruct (f x) as [e'|] eqn:Ex.
  - intros H. inversion H; subst. eauto.
  - intros H. destruct (IH H) as (y & Hy & He). eauto.
Qed.

Section Frames.
Context {pandas : Pandas}.

Lemma DataFrame_of_faithful (records : list dict) (df : DataFrame) :
  DataFrame_of records = Ret df -> faithful records df.
Proof.
  unfold DataFrame_of. destruct (first_error _ _); [discriminate|].
  intros H. inversion H; subst. clear H. split; simpl; auto.
  apply map_ext. intros r. apply map_ext_in. intros c Hc.
  unfold value_at. apply mem_In in Hc. now rewrite Hc.
Qed.

(** The constructor raises nothing but what the inference of one of the
    columns raises. *)
Lemma DataFrame_of_raises (records : list dict) (e : exn) :
  DataFrame_of records = Raise e ->
  exists c, In c (union_keys records) /\
            inference_error (column_of records c) = Some e.
Proof.
  unfold DataFrame_of. destruct (first_error _ _) as [e'|] eqn:E;
    [|discriminate].
  intros H. inversion H; subst. now apply first_error_In in E.
Qed.

Lemma df_set_none_faithful (records : list dict) (df : DataFrame) (c : pystr) :
  mem c (columns df) = false ->
  faithful records df -> faithful records (df_set_none df c).
Proof.
  intros Hc [Hr Hn]. split; simpl.
  - rewrite Hr, map_map. apply map_ext. intros r.
    rewrite map_app. simpl. unfold value_at at 3.
    destruct (mem c (union_keys records)) eqn:Eu; [|reflexivity].
    rewrite (Hn c Eu) in Hc. discriminate.
  - intros c' Hc'. rewrite mem_app. now rewrite (Hn c' Hc').
Qed.

Lemma fill_missing_faithful (records : list dict) (cols : list pystr) :
  forall df, faithful records df ->
  faithful records (fill_missing cols df) /\
  (forall c, mem c (columns df) = true \/ In c cols ->
             mem c (columns (fill_missing cols df)) = true).
Proof.
  unfold fill_missing.
  induction cols as [|c cols IH]; intros df Hdf; simpl.
  - split; auto. intros c [H | []]; auto.
  - destruct (mem c (columns df)) eqn:Ec.
    + destruct (IH df Hdf) as [Hf Hm]. split; auto.
      intros c' [H | [<- | H]]; auto.
    + destruct (IH _ (@df_set_none_faithful _ _ _ Ec Hdf)) as [Hf Hm].
      split; auto.
      intros c' [H | [<- | H]]; apply Hm; auto; left; simpl;
        rewrite mem_app; [now rewrite H|].
      simpl. now rewrite pystr_eqb_refl, orb_true_r.
Qed.

(** The last three statements on the frame: after the null fill, the
    projection on [cols] succeeds and gives the cells of every record along
    [cols]. *)
Lemma frame_projection (records : list dict) (cols : list pystr)
  (df0 : DataFrame) :
  DataFrame_of records = Ret df0 ->
  df_getitem (fill_missing cols df0) cols
  = Ret (Frame cols
           (List.map (fun r => List.map (fun c => (c, value_at records r c))
                                        cols)
                     records)).
Proof.
  intros H0.
  destruct (@fill_missing_faithful records cols _
              (DataFrame_of_faithful _ H0))
    as [[Hr _] Hm].
  unfold df_getitem.
  assert (Hall : forallb (fun c => mem c
            (columns (fill_missing cols df0))) cols = true)
    by (apply forallb_forall; intros c Hc; apply Hm; auto).
  rewrite Hall. f_equal. f_equal. rewrite Hr, map_map.
  apply map_ext. intros r. unfold project_row.
  apply map_ext_in. intros c Hc. f_equal.
  apply (@cell_along (value_at records r)). apply Hm; auto.
Qed.

End Frames.

(** ** The driver *)

Lemma mbind_ret A B (m : M A) (f : A -> M B) (w w' : world) (b : B) :
  mbind m f w = (Ret b, w') ->
  exists a w1, m w = (Ret a, w1) /\ f a w1 = (Ret b, w').
Proof.
  unfold mbind. destruct (m w) as [[a | e] w1]; intros H; [eauto|].
  discriminate.
Qed.

Lemma lift_ret A (r : res A) (w w' : world) (a : A) :
  lift r w = (Ret a, w') -> r = Ret a /\ w' = w.
Proof. unfold lift. intros H; inversion H; auto. Qed.


Section Run.
Variable server : nat -> pystr -> reply.
Context {pandas : Pandas}.



(** C5, amended.  For a base URL with none of the three path fragments the
    driver never ends normally and writes no file; it has by then fetched
    page 1, with one to three requests and none for any other page.  When
    that fetch returns a document and page detection succeeds, what is
    raised is the configuration error. *)
Theorem unsupported_base_aborts_after_first_fetch
  (base : pystr) (max_pages : option Z) (out_csv : pystr) (sleep_s : Q)
  (w : world) :
  is_v6_compute base = false -> is_v6_cpu base = false ->
  is_v4_cpu base = false ->
  exists e w',
    scrape server base max_pages out_csv sleep_s w = (Raise e, w') /\
    written w' = written w /\
    (exists k, (1 <= k <= 3)%nat /\
               requests w' = requests w ++ repeat (page_url base 1) k) /\
    (forall doc n,
       fst (get_soup server (page_url base 1) w) = Ret (Some doc) ->
       detect_max_pages doc = Ret n ->
       e = SystemExit unsupported).
Proof.
  intros H1 H2 H3. unfold scrape, mbind at 1.
  destruct (get_soup server (page_url base 1) w) as [r w1] eqn:Eg.
  pose proof (get_soup_requests _ _ _ Eg) as [Hw Hk].
  destruct r as [first | e].
  - unfold mbind at 1, lift at 1.
    destruct (rbind (deref first) (fun doc => detect_max_pages doc))
      as [detected | e] eqn:Ed.
    + unfold mbind at 1, lift at 1, select_mode. rewrite H1, H2, H3.
      exists (SystemExit unsupported), w1. repeat split; auto.
    + exists e, w1. repeat split; auto.
      intros doc n Hdoc Hn. simpl in Hdoc. inversion Hdoc; subst first.
      simpl in Ed. congruence.
  - exists e, w1. repeat split; auto.
    intros doc n Hdoc. simpl in Hdoc. discriminate.
Qed.
End Run.


(** C5, as the claim states it, fails: for a base URL with none of the
    three fragments the driver raises the configuration error only after
    it has requested page 1. *)
Lemma unsupported_base_is_fetched_first :
  is_v6_compute odd_base = false /\
  is_v6_cpu odd_base = false /\
  is_v4_cpu odd_base = false /\
  scrape sample_server odd_base None (str "out.csv") (1 # 2) world0
  = (Raise (SystemExit unsupported),
     World [page_url odd_base 1] [] []).
Proof. repeat split; vm_compute; reflexivity. Qed.

Lemma unsupported_base_aborts_after_first_fetch_witness :
  exists e w',
    scrape sample_server odd_base None (str "out.csv") (1 # 2) world0
    = (Raise e, w') /\
    written w' = written world0 /\
    (exists k, (1 <= k <= 3)%nat /\
               requests w'
               = requests world0 ++ repeat (page_url odd_base 1) k) /\
    (forall doc n,
       fst (get_soup sample_server (page_url odd_base 1) world0)
       = Ret (Some doc) ->
       detect_max_pages doc = Ret n ->
       e = SystemExit unsupported).
Proof.
  apply (@unsupported_base_aborts_after_first_fetch sample_server
           sample_pandas odd_base None (str "out.csv") (1 # 2) world0);
    reflexivity.
Defined.

(* ================================================================== *)
(** * Further properties of the code *)

(** ** Whitespace normalisation *)

Lemma lstrip_length (s : pystr) : (List.length (lstrip s) <= List.length s)%nat.
Proof.
  induction s as [|c s IH]; simpl; auto. destruct (isspace c); simpl; lia.
Qed.

Lemma star_blanks_all (n : nat) :
  forall (s : pystr) g, (List.length s <= n)%nat ->
  star_loop (bt (A := pystr) (Chr isspace)) (fun s' _ => Some s') n s g
  = Some (lstrip s).
Proof.
  induction n as [|n IH]; intros s g Hlen.
  - destruct s; simpl in *; [reflexivity | lia].
  - destruct s as [|c t]; [reflexivity|].
    cbn [star_loop bt lstrip]. destruct (isspace c); [|reflexivity].
    assert (E : (List.length t <? List.length (c :: t))%nat = true)
      by (apply Nat.ltb_lt; simpl; lia).
    rewrite E, IH by (simpl in Hlen; lia). reflexivity.
Qed.

Lemma bt_WS_RE (s : pystr) :
  bt WS_RE s None (fun s' _ => Some s')
  = match s with
    | c :: t => if isspace c then Some (lstrip t) else None
    | [] => None
    end.
Proof.
  unfold WS_RE, Plus, space_cls. destruct s as [|c t]; [reflexivity|].
  cbn [bt]. destruct (isspace c); [|reflexivity].
  apply star_blanks_all. lia.
Qed.

Lemma collapse_lstrip (t : pystr) : collapse true t = collapse false (lstrip t).
Proof.
  induction t as [|c t IH]; [reflexivity|]. simpl.
  destruct (isspace c) eqn:E; [exact IH|]. simpl. now rewrite E.
Qed.

Lemma re_sub_from_collapse (n : nat) :
  forall s, (List.length s < n)%nat ->
  re_sub_from n WS_RE [32%N] s = collapse false s.
Proof.
  induction n as [|n IH]; intros s Hlen; [lia|].
  cbn [re_sub_from]. rewrite bt_WS_RE.
  destruct s as [|c t]; [reflexivity|]. simpl in Hlen.
  cbn [collapse]. destruct (isspace c).
  - pose proof (lstrip_length t) as Hl.
    assert (E : (List.length (lstrip t) <? List.length (c :: t))%nat = true)
      by (apply Nat.ltb_lt; simpl; lia).
    rewrite E, IH by lia. simpl. now rewrite collapse_lstrip.
  - rewrite IH by lia. reflexivity.
Qed.

(** [oneline] is the one-pass collapse followed by [strip]. *)
Lemma oneline_collapse (s : pystr) : oneline s = strip (collapse false s).
Proof. unfold oneline, re_sub. now rewrite re_sub_from_collapse by lia. Qed.

Lemma single_spaced_collapse (s : pystr) :
  forall b, single_spaced b (collapse b s) = true.
Proof.
  induction s as [|c t IH]; intros b; [reflexivity|]. simpl.
  destruct (isspace c) eqn:E.
  - destruct b; [apply IH|]. simpl. now rewrite IH.
  - simpl. rewrite E. apply IH.
Qed.

Lemma single_spaced_weaken (s : pystr) :
  single_spaced true s = true -> single_spaced false s = true.
Proof.
  destruct s as [|c t]; simpl; auto. destruct (isspace c); auto.
  rewrite andb_false_r. discriminate.
Qed.

Lemma single_spaced_lstrip_id (s : pystr) :
  single_spaced true s = true -> lstrip s = s.
Proof.
  destruct s as [|c t]; simpl; auto. destruct (isspace c); auto.
  rewrite andb_false_r. discriminate.
Qed.

Lemma single_spaced_lstrip (s : pystr) :
  single_spaced false s = true -> single_spaced true (lstrip s) = true.
Proof.
  destruct s as [|c t]; simpl; auto. destruct (isspace c) eqn:E.
  - rewrite andb_true_r. intros H. apply andb_true_iff in H as [_ H].
    now rewrite (single_spaced_lstrip_id _ H).
  - simpl. now rewrite E.
Qed.

Lemma single_spaced_collapse_id (s : pystr) :
  forall b, single_spaced b s = true -> collapse b s = s.
Proof.
  induction s as [|c t IH]; intros b H; [reflexivity|]. simpl in *.
  destruct (isspace c).
  - apply andb_true_iff in H as [H Ht]. apply andb_true_iff in H as [Hc Hb].
    apply N.eqb_eq in Hc. apply negb_true_iff in Hb. subst.
    now rewrite (IH _ Ht).
  - now rewrite (IH _ H).
Qed.

Lemma ends_clean_cons (b : bool) (x : char) (a : pystr) :
  ends_clean b (x :: a) = ends_clean (isspace x) a.
Proof.
  unfold ends_clean. simpl. destruct (rev a) as [|y r]; reflexivity.
Qed.

Lemma single_spaced_snoc (a : pystr) (c : char) :
  forall b, single_spaced b (a ++ [c]) = true ->
  single_spaced b a = true /\ (isspace c = true -> ends_clean b a = true).
Proof.
  induction a as [|x a IH]; intros b H; simpl in H.
  - split; auto. intros Hc. rewrite Hc in H. unfold ends_clean; simpl.
    apply andb_true_iff in H as [H _]. now apply andb_true_iff in H as [_ H].
  - rewrite ends_clean_cons. simpl. destruct (isspace x).
    + apply andb_true_iff in H as [Hx H]. rewrite Hx. simpl. now apply IH.
    + now apply IH.
Qed.

Lemma rstrip_snoc (a : pystr) (c : char) :
  rstrip (a ++ [c]) = if isspace c then rstrip a else a ++ [c].
Proof.
  unfold rstrip. rewrite rev_app_distr. simpl. destruct (isspace c); auto.
  simpl. now rewrite rev_involutive.
Qed.

Lemma no_trailing_rstrip_id (a : pystr) :
  no_trailing_blank a = true -> rstrip a = a.
Proof.
  unfold no_trailing_blank, rstrip. destruct (rev a) as [|x r] eqn:E.
  - intros _. apply (f_equal (@rev char)) in E.
    rewrite rev_involutive in E. now subst.
  - intros H. apply negb_true_iff in H. simpl. rewrite H.
    rewrite <- E. apply rev_involutive.
Qed.

Lemma single_spaced_rstrip (v : pystr) :
  single_spaced true v = true ->
  single_spaced true (rstrip v) = true /\ no_trailing_blank (rstrip v) = true.
Proof.
  destruct v as [|c a _] using rev_ind; [auto|]. intros H.
  rewrite rstrip_snoc. destruct (isspace c) eqn:Ec.
  - destruct (single_spaced_snoc _ _ _ H) as [Ha Hend].
    specialize (Hend Ec).
    assert (Hn : no_trailing_blank a = true).
    { unfold ends_clean in Hend. unfold no_trailing_blank.
      destruct (rev a); [discriminate | exact Hend]. }
    rewrite (no_trailing_rstrip_id _ Hn). auto.
  - split; auto. unfold no_trailing_blank. rewrite rev_app_distr. simpl.
    now rewrite Ec.
Qed.

Lemma oneline_normal (s : pystr) : normalized (oneline s).
Proof.
  rewrite oneline_collapse. unfold strip.
  apply single_spaced_rstrip, single_spaced_lstrip, single_spaced_collapse.
Qed.

Lemma oneline_fixes_normalized (s : pystr) : normalized s -> oneline s = s.
Proof.
  intros [Hs Ht]. rewrite oneline_collapse.
  rewrite (single_spaced_collapse_id _ _ (single_spaced_weaken _ Hs)).
  unfold strip. rewrite (single_spaced_lstrip_id _ Hs).
  now apply no_trailing_rstrip_id.
Qed.

(** X1.  [oneline] is idempotent, and the strings it leaves unchanged are
    exactly the normalized ones. *)
Theorem oneline_idempotent (s : pystr) :
  oneline (oneline s) = oneline s /\ (oneline s = s <-> normalized s).
Proof.
  split.
  - apply oneline_fixes_normalized, oneline_normal.
  - split.
    + intros E. rewrite <- E. apply oneline_normal.
    + apply oneline_fixes_normalized.
Qed.

Lemma single_spaced_blank (t : pystr) (c : char) :
  forall b, single_spaced b t = true -> In c t -> isspace c = true ->
  c = 32%N.
Proof.
  induction t as [|x t IH]; intros b H Hin Hc; [destruct Hin|].
  simpl in H. destruct Hin as [-> | Hin].
  - rewrite Hc in H. apply andb_true_iff in H as [H _].
    apply andb_true_iff in H as [H _]. now apply N.eqb_eq.
  - destruct (isspace x); [apply andb_true_iff in H as [_ H]|]; eauto.
Qed.

Lemma single_spaced_apart (a r : pystr) (x y : char) :
  forall b, single_spaced b (a ++ x :: y :: r) = true ->
  isspace x = true -> isspace y = false.
Proof.
  induction a as [|c a IH]; intros b H Hx; simpl in H.
  - rewrite Hx in H. apply andb_true_iff in H as [_ H].
    destruct (isspace y); auto. now rewrite andb_false_r in H.
  - destruct (isspace c); [apply andb_true_iff in H as [_ H]|]; eauto.
Qed.

(** X2.  Whatever it is given, [oneline] returns a string in normal form:
    every blank in it is the space U+0020, no two blanks are adjacent, and
    there is no blank at either end (stripping it again changes nothing). *)
Theorem oneline_normalized (s : pystr) :
  normalized (oneline s) /\
  (forall c, In c (oneline s) -> isspace c = true -> c = 32%N) /\
  (forall a x y r, oneline s = a ++ x :: y :: r -> isspace x = true ->
                   isspace y = false) /\
  strip (oneline s) = oneline s.
Proof.
  destruct (oneline_normal s) as [Hs Ht]. split; [split; auto|].
  split; [|split].
  - intros c. now apply single_spaced_blank with (b := true).
  - intros a x y r E. rewrite E in Hs.
    now apply single_spaced_apart with (b := true) (a := a) (r := r).
  - unfold strip. rewrite (single_spaced_lstrip_id _ Hs).
    now apply no_trailing_rstrip_id.
Qed.

Lemma lstrip_blanks (s : pystr) : all_of isspace s -> lstrip s = [].
Proof.
  unfold all_of. induction s as [|c t IH]; simpl; auto.
  intros H. apply andb_true_iff in H as [Hc Ht]. rewrite Hc. auto.
Qed.

Lemma collapse_blanks (s : pystr) :
  all_of isspace s -> forall b, all_of isspace (collapse b s).
Proof.
  unfold all_of. induction s as [|c t IH]; intros H b; simpl; auto.
  simpl in H. apply andb_true_iff in H as [Hc Ht]. rewrite Hc.
  destruct b; simpl; auto.
Qed.

Lemma collapse_keeps_nonblank (s : pystr) (x : char) :
  In x s -> isspace x = false -> forall b, In x (collapse b s).
Proof.
  induction s as [|c t IH]; intros Hin Hx b; [destruct Hin|]. simpl.
  destruct Hin as [-> | Hin].
  - rewrite Hx. now left.
  - destruct (isspace c); [destruct b|]; simpl; auto.
Qed.

Lemma lstrip_keeps_nonblank (s : pystr) (x : char) :
  In x s -> isspace x = false -> In x (lstrip s).
Proof.
  induction s as [|c t IH]; intros Hin Hx; [destruct Hin|]. simpl.
  destruct (isspace c) eqn:Ec; auto.
  destruct Hin as [-> | Hin]; [congruence | auto].
Qed.

(** X3.  [oneline] returns the empty string exactly on the strings made of
    blanks only (the empty string among them). *)
Theorem oneline_empty_iff (s : pystr) : oneline s = [] <-> all_of isspace s.
Proof.
  rewrite oneline_collapse. split.
  - intros E. unfold all_of. apply forallb_forall. intros x Hx.
    destruct (isspace x) eqn:Ex; auto. exfalso.
    assert (H : In x (strip (collapse false s))).
    { unfold strip, rstrip. apply (proj1 (in_rev _ x)).
      apply lstrip_keeps_nonblank; auto. apply (proj1 (in_rev _ x)).
      apply lstrip_keeps_nonblank; auto.
      now apply collapse_keeps_nonblank. }
    rewrite E in H. destruct H.
  - intros H. unfold strip.
    now rewrite (lstrip_blanks (collapse_blanks H false)).
Qed.

(** ** Strict integers *)

(** X4.  [to_int] (and [_to_int], the same body) reads the text with the
    commas removed and the blanks trimmed.  A non-empty run of decimal
    digits is returned as its integer when it has at most 4300 digits, and
    is a [ValueError] when it has more: the pattern lets it through and
    [int] refuses it.  Every other text gives [None]: no partly numeric
    text is read as a number, and nothing else is ever raised. *)
Theorem to_int_strict (s : pystr) :
  let t := strip (replace_comma s) in
  (forall n, parseable_score s n -> _to_int s = Ret (VInt (Z.of_N n))) /\
  (t <> [] -> all_of isdecimal t -> ~ within_limit t ->
   _to_int s = Raise ValueError) /\
  (t = [] \/ ~ all_of isdecimal t -> _to_int s = Ret VNone) /\
  (forall z, _to_int s = Ret (VInt z) ->
     exists n, parseable_score s n /\ z = Z.of_N n) /\
  (forall e, _to_int s = Raise e ->
     e = ValueError /\ t <> [] /\ all_of isdecimal t /\ ~ within_limit t).
Proof.
  cbv zeta. unfold _to_int.
  destruct (to_int_cases s)
    as [(n & Hp & E) | [(Hne & Hd & Hl & E) | [Hno E]]];
    cbv zeta in *; rewrite E.
  - destruct Hp as (Hne & Hn & Hl).
    pose proof (digits_value_decimal _ _ Hn) as Hd.
    split; [|split; [|split; [|split]]].
    + intros n' (_ & Hn' & _). congruence.
    + intros _ _ Hl'. contradiction.
    + intros [Ht | Ht]; contradiction.
    + intros z Hz. inversion Hz. exists n. repeat split; auto.
    + discriminate.
  - split; [|split; [|split; [|split]]].
    + intros n (_ & _ & Hl'). contradiction.
    + reflexivity.
    + intros [Ht | Ht]; contradiction.
    + discriminate.
    + intros e He. inversion He. auto.
  - split; [|split; [|split; [|split]]].
    + intros n (Hne & Hn & _). destruct Hno as [Ht | Ht]; [contradiction|].
      exfalso. apply Ht. eapply digits_value_decimal; eauto.
    + intros Hne Hd _. destruct Hno; contradiction.
    + reflexivity.
    + discriminate.
    + discriminate.
Qed.

(** ** The core count *)

Lemma matches_CORES_RE s s' g' :
  matches CORES_RE s None s' g' <->
  exists num ws u,
    s = [40%N] ++ num ++ ws ++ u ++ [41%N] ++ s' /\
    num <> [] /\ all_of isdecimal num /\
    ws <> [] /\ all_of isspace ws /\ is_core_word u /\ g' = Some num.
Proof.
  unfold CORES_RE, digit_cls, space_cls, ci, ci_s, lit. split.
  - intros H.
    apply matches_cat_inv in H as (s1 & g1 & Hp & H).
    apply matches_chr_inv in Hp as (p & -> & Hp & ->).
    apply N.eqb_eq in Hp; subst p.
    apply matches_cat_inv in H as (s2 & g2 & Hg & H).
    apply matches_grp_inv in Hg as (g0 & Hn & ->).
    apply matches_plus_chr_inv in Hn as (num & Hne & -> & Hd & _).
    rewrite (@firstn_prefix num s2 _ eq_refl) in H.
    apply matches_cat_inv in H as (s3 & g3 & Hws & H).
    apply matches_plus_chr_inv in Hws as (ws & Hwne & -> & Hws & ->).
    apply matches_cat_inv in H as (s4 & g4 & Hc & H).
    apply matches_chr_inv in Hc as (c & -> & Hc & ->).
    apply matches_cat_inv in H as (s5 & g5 & Ho & H).
    apply matches_chr_inv in Ho as (o & -> & Ho & ->).
    apply matches_cat_inv in H as (s6 & g6 & Hr & H).
    apply matches_chr_inv in Hr as (r & -> & Hr & ->).
    apply matches_cat_inv in H as (s7 & g7 & He & H).
    apply matches_chr_inv in He as (e & -> & He & ->).
    apply matches_cat_inv in H as (s8 & g8 & Hs & H).
    apply matches_chr_inv in H as (q & -> & Hq & ->).
    apply N.eqb_eq in Hq; subst q.
    rewrite !orb_true_iff, !N.eqb_eq in *.
    apply matches_opt_inv in Hs as [Hs | [-> <-]].
    + apply matches_chr_inv in Hs as (x & -> & Hx & ->).
      rewrite !orb_true_iff, !N.eqb_eq in Hx.
      exists num, ws, [c; o; r; e; x].
      split; [reflexivity|].
      repeat (split; auto).
      unfold is_core_word. exists c, o, r, e, [x].
      repeat (split; auto). right. exists x. split; auto. tauto.
    + exists num, ws, [c; o; r; e].
      split; [reflexivity|].
      repeat (split; auto).
      unfold is_core_word. exists c, o, r, e, []. repeat (split; auto).
  - intros (num & ws & u & -> & Hne & Hd & Hwne & Hws & Hu & ->).
    destruct Hu as (c & o & r & e & tail & -> & Hc & Ho & Hr & He & Ht).
    eapply MCat; [apply MChr; apply N.eqb_refl|].
    eapply MCat;
      [apply matches_grp with (g0 := None); now apply matches_plus_chr|].
    eapply MCat; [now apply matches_plus_chr|].
    simpl.
    eapply MCat; [apply MChr; rewrite orb_true_iff, !N.eqb_eq; exact Hc|].
    eapply MCat; [apply MChr; rewrite orb_true_iff, !N.eqb_eq; exact Ho|].
    eapply MCat; [apply MChr; rewrite orb_true_iff, !N.eqb_eq; exact Hr|].
    eapply MCat; [apply MChr; rewrite orb_true_iff, !N.eqb_eq; exact He|].
    destruct Ht as [-> | (x & -> & Hx)]; simpl.
    + eapply MCat; [apply MOptNone | apply MChr; apply N.eqb_refl].
    + eapply MCat; [apply MOptSome, MChr | apply MChr; apply N.eqb_refl].
      rewrite !orb_true_iff, !N.eqb_eq. tauto.
Qed.

Lemma cores_occurrence_matches (text pre num : pystr) :
  cores_occurrence text pre num <->
  exists rest s', text = pre ++ rest /\
                  matches CORES_RE rest None s' (Some num).
Proof.
  split.
  - intros (ws & u & post & -> & H).
    exists ([40%N] ++ num ++ ws ++ u ++ [41%N] ++ post), post. split; auto.
    apply matches_CORES_RE. exists num, ws, u. tauto.
  - intros (rest & s' & -> & Hm).
    apply matches_CORES_RE in Hm
      as (num' & ws & u & -> & Hne & Hd & Hwne & Hws & Hu & E).
    inversion E; subst num'. exists ws, u, s'. tauto.
Qed.

Lemma cores_occurrence_unique (text pre num num' : pystr) :
  cores_occurrence text pre num -> cores_occurrence text pre num' ->
  num = num'.
Proof.
  intros (ws & u & post & -> & _ & Hd & Hwne & Hws & _)
         (ws' & u' & post' & E & _ & Hd' & Hwne' & Hws' & _).
  apply app_inv_head in E. simpl in E. inversion E as [E'].
  destruct ws as [|c ws]; [congruence|]. destruct ws' as [|c' ws']; [congruence|].
  apply all_of_cons in Hws as [Hc _]. apply all_of_cons in Hws' as [Hc' _].
  simpl in E'.
  apply (@run_unique isdecimal num num' c _ c' _ Hd Hd'
           (blank_not_decimal c Hc) (blank_not_decimal c' Hc') E').
Qed.

Lemma cores_search_leftmost (text : pystr) (g : option pystr) :
  re_search CORES_RE text = Some g ->
  exists pre num n,
    g = Some num /\ cores_occurrence text pre num /\
    num <> [] /\ digits_value 0 num = Some n /\
    (forall pre' num', cores_occurrence text pre' num' ->
       (List.length pre <= List.length pre')%nat).
Proof.
  intros Es.
  apply re_search_some in Es as (pre & rest & s' & E & Hm & Hmin).
  pose proof Hm as Hm'.
  apply matches_CORES_RE in Hm'
    as (num & ws & u & _ & Hne & Hd & _ & _ & _ & ->).
  destruct (digits_value_total Hd 0) as [n Hn].
  exists pre, num, n. split; auto.
  split; [apply cores_occurrence_matches; eauto|].
  split; auto. split; auto.
  intros pre' num' Ho'.
  apply cores_occurrence_matches in Ho' as (rest' & s1 & E' & Hm1).
  destruct (Nat.le_gt_cases (List.length pre) (List.length pre'))
    as [|Hlt]; auto.
  exfalso. eapply Hmin; eauto.
Qed.

Lemma same_length_prefix A (a b c d : list A) :
  a ++ b = c ++ d -> List.length a = List.length c -> a = c.
Proof.
  revert c; induction a as [|x a IH]; intros [|y c]; simpl; intros H Hl;
    try discriminate; auto.
  inversion H; subst. f_equal. eapply IH; eauto.
Qed.

Lemma cores_leftmost_unique (text pre num pre' num' : pystr) :
  cores_occurrence text pre num -> cores_occurrence text pre' num' ->
  List.length pre = List.length pre' -> pre = pre' /\ num = num'.
Proof.
  intros Ho Ho' Hl.
  assert (E : pre = pre').
  { destruct Ho as (ws & u & post & E1 & _).
    destruct Ho' as (ws' & u' & post' & E2 & _).
    rewrite E1 in E2. eapply same_length_prefix; eauto. }
  subst pre'. split; auto. eapply cores_occurrence_unique; eauto.
Qed.

(** The occurrence [CORES_RE.search] stops at is the leftmost one. *)
Lemma cores_search_found (text pre num : pystr) :
  cores_occurrence text pre num ->
  (forall pre' num', cores_occurrence text pre' num' ->
     (List.length pre <= List.length pre')%nat) ->
  re_search CORES_RE text = Some (Some num).
Proof.
  intros Ho Hmin. destruct (re_search CORES_RE text) as [g|] eqn:Es.
  - destruct (cores_search_leftmost _ Es)
      as (pre0 & num0 & n0 & -> & Ho0 & _ & _ & Hmin0).
    destruct (@cores_leftmost_unique text pre num pre0 num0 Ho Ho0)
      as [_ ->]; auto.
    apply Nat.le_antisymm; eauto.
  - exfalso. apply cores_occurrence_matches in Ho as (rest & s' & E & Hm).
    eapply re_search_none in Es; eauto.
Qed.

(** Where no core count is longer than [int] reads, the core count is
    read. *)
Lemma cores_match_returns (text : pystr) :
  (forall pre num, cores_occurrence text pre num -> within_limit num) ->
  exists o, cores_match text = Ret o.
Proof.
  intros Hl. unfold cores_match.
  destruct (re_search CORES_RE text) as [g|] eqn:Es; [|eauto].
  destruct (cores_search_leftmost _ Es)
    as (pre & num & n & -> & Ho & Hne & Hn & _).
  rewrite (py_int_within Hne Hn (Hl _ _ Ho)). simpl. eauto.
Qed.

(** X5.  The core count of a description is null exactly when no
    parenthesised count such as [(8 cores)] occurs.  Otherwise the digits at
    the first such place decide: with at most 4300 of them the result is
    their integer value, with more the conversion raises [ValueError],
    which nothing catches.  Nothing else is raised. *)
Theorem cores_match_first_occurrence (text : pystr) :
  (cores_match text = Ret None <->
   forall pre num, ~ cores_occurrence text pre num) /\
  (forall pre num,
     cores_occurrence text pre num ->
     (forall pre' num', cores_occurrence text pre' num' ->
        (List.length pre <= List.length pre')%nat) ->
     (within_limit num ->
      exists n, digits_value 0 num = Some n /\
                cores_match text = Ret (Some (Z.of_N n))) /\
     (~ within_limit num -> cores_match text = Raise ValueError)) /\
  (forall z, cores_match text = Ret (Some z) ->
     exists pre num n,
       cores_occurrence text pre num /\
       digits_value 0 num = Some n /\ z = Z.of_N n /\ within_limit num /\
       (forall pre' num', cores_occurrence text pre' num' ->
          (List.length pre <= List.length pre')%nat) /\
       (forall num', cores_occurrence text pre num' -> num' = num)) /\
  (forall e, cores_match text = Raise e ->
     e = ValueError /\
     exists pre num,
       cores_occurrence text pre num /\ ~ within_limit num /\
       (forall pre' num', cores_occurrence text pre' num' ->
          (List.length pre <= List.length pre')%nat)).
Proof.
  split; [|split; [|split]].
  - unfold cores_match. split.
    + intros H pre num Ho.
      destruct (re_search CORES_RE text) as [g|] eqn:Es.
      * destruct (cores_search_leftmost _ Es)
          as (pre0 & num0 & n & -> & _ & Hne & Hn & _).
        rewrite (py_int_digits Hne Hn) in H.
        destruct (int_max_str_digits <? _)%Z; discriminate.
      * apply cores_occurrence_matches in Ho as (rest & s' & E & Hm).
        eapply re_search_none in Es; eauto.
    + intros H. destruct (re_search CORES_RE text) as [g|] eqn:Es; auto.
      destruct (cores_search_leftmost _ Es) as (pre0 & num0 & n & _ & Ho & _).
      exfalso. eapply H; eauto.
  - intros pre num Ho Hmin. unfold cores_match.
    rewrite (cores_search_found Ho Hmin).
    destruct Ho as (ws & u & post & _ & Hne & Hd & _). split.
    + intros Hl. destruct (digits_value_total Hd 0) as [n Hn].
      exists n. split; auto. now rewrite (py_int_within Hne Hn Hl).
    + intros Hl. now rewrite (py_int_beyond Hne Hd Hl).
  - intros z H. unfold cores_match in H.
    destruct (re_search CORES_RE text) as [g|] eqn:Es; [|discriminate].
    destruct (cores_search_leftmost _ Es)
      as (pre & num & n & -> & Ho & Hne & Hn & Hmin).
    rewrite (py_int_digits Hne Hn) in H.
    destruct (int_max_str_digits <? _)%Z eqn:El; [discriminate|].
    simpl in H. inversion H.
    exists pre, num, n. repeat (split; auto).
    + unfold within_limit. now apply Z.ltb_ge.
    + intros num' Ho'. eapply cores_occurrence_unique; eauto.
  - intros e H. split; [eapply cores_match_raises; eauto|].
    unfold cores_match in H.
    destruct (re_search CORES_RE text) as [g|] eqn:Es; [|discriminate].
    destruct (cores_search_leftmost _ Es)
      as (pre & num & n & -> & Ho & Hne & Hn & Hmin).
    rewrite (py_int_digits Hne Hn) in H.
    destruct (int_max_str_digits <? _)%Z eqn:El; [|discriminate].
    exists pre, num. repeat (split; auto).
    unfold within_limit. apply Z.nle_gt. now apply Z.ltb_lt.
Qed.

Lemma cores_match_first_occurrence_witness :
  exists pre num n,
    cores_occurrence (str "i7 (2 Cores) or (8 cores)") pre num /\
    digits_value 0 num = Some n /\ 2%Z = Z.of_N n /\ within_limit num /\
    (forall pre' num',
       cores_occurrence (str "i7 (2 Cores) or (8 cores)") pre' num' ->
       (List.length pre <= List.length pre')%nat) /\
    (forall num', cores_occurrence (str "i7 (2 Cores) or (8 cores)") pre num' ->
                  num' = num).
Proof.
  apply (proj1 (proj2 (proj2 (cores_match_first_occurrence
                                (str "i7 (2 Cores) or (8 cores)"))))).
  reflexivity.
Defined.

Lemma to_int_strict_witness :
  _to_int (str " 12,345 ") = Ret (VInt 12345).
Proof.
  apply (proj1 (to_int_strict (str " 12,345 ")) 12345%N).
  split; [discriminate|]. split; [reflexivity|]. vm_compute. discriminate.
Defined.

(** ** A row of the legacy table *)

(** X18.  A row of the legacy table with exactly six cells, the timestamp
    marker in the first, score cells that can be read and no core count of
    more than 4300 digits in its details gives one record, tagged [v4],
    whose two scores are the integers read; the page loop appends exactly
    that record.  A row with any other number of cells gives no record. *)
Theorem legacy_row_record (tr : node) :
  (forall td0 td1 td2 td3 td4 td5 n1 n2,
     find_all tr (str "td") = [td0; td1; td2; td3; td4; td5] ->
     marker_of td0 <> None ->
     (forall sp pre num,
        find td1 (str "span") = Some sp ->
        cores_occurrence (cell_text sp) pre num -> within_limit num) ->
     parseable_score (cell_text td4) n1 ->
     parseable_score (cell_text td5) n2 ->
     exists d,
       parse_v4_row tr = Ret (Some d) /\
       collect_rows parse_v4_row [tr] = Ret [d] /\
       dict_get d (str "Schema") = Some (VStr (str "v4")) /\
       dict_get d (str "Single-Core Score") = Some (VInt (Z.of_N n1)) /\
       dict_get d (str "Multi-Core Score") = Some (VInt (Z.of_N n2))) /\
  (List.length (find_all tr (str "td")) <> 6%nat ->
   parse_v4_row tr = Ret None /\ collect_rows parse_v4_row [tr] = Ret []).
Proof.
  split.
  - intros td0 td1 td2 td3 td4 td5 n1 n2 E Hm Hc H1 H2.
    assert (Hcores : forall sp, find td1 (str "span") = Some sp ->
                                exists o, cores_match (cell_text sp) = Ret o).
    { intros sp Hsp. apply cores_match_returns. intros pre num.
      now apply Hc. }
    destruct (@parse_v4_row_returns tr td0 td1 td2 td3 td4 td5 _ _ E Hm
                Hcores (to_int_parseable H1) (to_int_parseable H2))
      as [d Hd].
    destruct (parse_v4_row_kept _ E Hm Hd)
      as (up & sys & det & mhz & cores & plat & user & single & multi & url
          & Hs & Hmu & Hr).
    rewrite (to_int_parseable H1) in Hs. rewrite (to_int_parseable H2) in Hmu.
    inversion Hs; inversion Hmu; inversion Hr; subst.
    eexists. split; [exact Hd|].
    split; [unfold collect_rows; simpl; rewrite Hd; reflexivity|].
    repeat split; reflexivity.
  - intros H. assert (E : parse_v4_row tr = Ret None)
      by (apply parse_v4_row_dropped; auto).
    split; auto. unfold collect_rows; simpl. now rewrite E.
Qed.

Lemma legacy_row_record_witness :
  exists d,
    parse_v4_row legacy_row = Ret (Some d) /\
    collect_rows parse_v4_row [legacy_row] = Ret [d] /\
    dict_get d (str "Schema") = Some (VStr (str "v4")) /\
    dict_get d (str "Single-Core Score") = Some (VInt 1234) /\
    dict_get d (str "Multi-Core Score") = Some (VInt 5678).
Proof.
  refine (proj1 (legacy_row_record legacy_row) _ _ _ _ _ _ 1234%N 5678%N
            eq_refl _ _ _ _).
  - discriminate.
  - intros sp pre num Hsp (ws & u & post & E & _).
    vm_compute in Hsp. inversion Hsp; subst sp. clear Hsp.
    set (t := cell_text _) in E.
    assert (Ht : (List.length t <= 100)%nat) by (vm_compute; lia).
    rewrite E, !length_app in Ht.
    unfold within_limit, int_max_str_digits. lia.
  - split; [discriminate|]. split; [reflexivity | vm_compute; discriminate].
  - split; [discriminate|]. split; [reflexivity | vm_compute; discriminate].
Defined.

(** ** The page fetcher, when it succeeds *)

Section Fetch.
Variable server : nat -> pystr -> reply.

(** X6.  [get_soup] returns a document exactly when one of its at most
    three requests is answered 200 after answers with other statuses only:
    the document is the body of that answer, a request was made per
    attempt, and the pauses before the second and third attempt were of 1
    and 2 seconds. *)
Theorem get_soup_document (url : pystr) (w w' : world) (doc : node) :
  let n := List.length (requests w) in
  get_soup server url w = (Ret (Some doc), w') <->
  (server n url = Reply 200 doc /\
   w' = World (requests w ++ [url]) (slept w) (written w)) \/
  (exists st1 b1,
     server n url = Reply st1 b1 /\ st1 <> 200%Z /\
     server (S n) url = Reply 200 doc /\
     w' = World (requests w ++ [url; url]) (slept w ++ [inject_Z 1])
                (written w)) \/
  (exists st1 b1 st2 b2,
     server n url = Reply st1 b1 /\ st1 <> 200%Z /\
     server (S n) url = Reply st2 b2 /\ st2 <> 200%Z /\
     server (S (S n)) url = Reply 200 doc /\
     w' = World (requests w ++ [url; url; url])
                (slept w ++ [inject_Z 1; inject_Z 2]) (written w)).
Proof.
  intros n. unfold get_soup. rewrite range_0_3. cbn [get_soup_loop].
  unfold mbind, session_get, sleep, mret, lift. cbn. fold n.
  destruct (server n url) as [st1 b1|] eqn:E1; cbn.
  2:{ split; [discriminate|].
      intros [[H _] | [(? & ? & H & _) | (? & ? & ? & ? & H & _)]];
        discriminate. }
  destruct (st1 =? 200)%Z eqn:H1; cbn.
  { apply Z.eqb_eq in H1. subst st1. split.
    - intros H. inversion H; subst. left. auto.
    - intros [[H ->] | [(? & ? & H & Hne & _) | (? & ? & ? & ? & H & Hne & _)]];
        inversion H; subst; congruence. }
  apply Z.eqb_neq in H1.
  rewrite length_app, Nat.add_1_r. fold n.
  destruct (server (S n) url) as [st2 b2|] eqn:E2; cbn.
  2:{ split; [discriminate|].
      intros [[H _] | [(? & ? & _ & _ & H & _) | (? & ? & ? & ? & _ & _ & H & _)]];
        try discriminate. inversion H; subst; congruence. }
  destruct (st2 =? 200)%Z eqn:H2; cbn.
  { apply Z.eqb_eq in H2. subst st2. split.
    - intros H. inversion H; subst. right; left.
      exists st1, b1. rewrite <- app_assoc. auto.
    - intros [[H _] | [(? & ? & _ & _ & H & ->) |
                       (? & ? & ? & ? & _ & _ & H & Hne & _)]].
      + inversion H; subst; congruence.
      + inversion H; subst. now rewrite <- app_assoc.
      + inversion H; subst; congruence. }
  apply Z.eqb_neq in H2.
  rewrite !length_app, !Nat.add_1_r. fold n.
  destruct (server (S (S n)) url) as [st3 b3|] eqn:E3; cbn.
  2:{ split; [discriminate|].
      intros [[H _] | [(? & ? & _ & _ & H & _) |
                       (? & ? & ? & ? & _ & _ & _ & _ & H & _)]];
        try discriminate; inversion H; subst; congruence. }
  destruct (st3 =? 200)%Z eqn:H3; cbn.
  { apply Z.eqb_eq in H3. subst st3. split.
    - intros H. inversion H; subst. right; right.
      exists st1, b1, st2, b2. rewrite <- !app_assoc. auto 10.
    - intros [[H _] | [(? & ? & _ & _ & H & _) |
                       (? & ? & ? & ? & _ & _ & _ & _ & H & ->)]].
      + inversion H; subst; congruence.
      + inversion H; subst; congruence.
      + inversion H; subst. now rewrite <- !app_assoc. }
  apply Z.eqb_neq in H3.
  split.
  - destruct (raise_for_status st3); cbn; discriminate.
  - intros [[H _] | [(? & ? & _ & _ & H & _) |
                     (? & ? & ? & ? & _ & _ & _ & _ & H & _)]];
      inversion H; subst; congruence.
Qed.
End Fetch.

Lemma get_soup_document_witness :
  get_soup flaky_server (str "u") world0
  = (Ret (Some legacy_doc),
     World [str "u"; str "u"; str "u"] [inject_Z 1; inject_Z 2] []).
Proof.
  apply (proj2 (@get_soup_document flaky_server (str "u") world0 _ legacy_doc)).
  right; right. exists 502%Z, (document []), 502%Z, (document []).
  repeat split; discriminate.
Defined.

(** X7.  Three answers with a 4xx or 5xx status: [get_soup] raises the HTTP
    error of the third, after exactly three requests and pauses of 1, 2 and
    3 seconds. *)
Theorem get_soup_http_error server (url : pystr) (w : world)
  (st1 st2 st3 : Z) (b1 b2 b3 : node) :
  let n := List.length (requests w) in
  server n url = Reply st1 b1 -> st1 <> 200%Z ->
  server (S n) url = Reply st2 b2 -> st2 <> 200%Z ->
  server (S (S n)) url = Reply st3 b3 ->
  (400 <= st3 < 600)%Z ->
  get_soup server url w
  = (Raise (HTTPError st3),
     World (requests w ++ [url; url; url])
           (slept w ++ [inject_Z 1; inject_Z 2; inject_Z 3]) (written w)).
Proof.
  intros n E1 H1 E2 H2 E3 H3.
  rewrite (@get_soup_three_failures server url w st1 st2 st3 b1 b2 b3)
    by (auto; lia).
  replace ((400 <=? st3) && (st3 <? 600))%Z with true; auto.
  symmetry. apply andb_true_iff. split; [apply Z.leb_le | apply Z.ltb_lt]; lia.
Qed.

Lemma get_soup_http_error_witness :
  get_soup busy_server (str "u") world0
  = (Raise (HTTPError 503),
     World [str "u"; str "u"; str "u"]
           [inject_Z 1; inject_Z 2; inject_Z 3] []).
Proof.
  apply (@get_soup_http_error busy_server (str "u") world0 503 503 503
           (document []) (document []) (document []));
    try reflexivity; try discriminate. lia.
Defined.

(** ** The pagination detector on decimal labels *)

(** X8.  When a pagination control is present and every link label that
    [isdigit] accepts is made of decimal digits, at most 4300 of them,
    [detect_max_pages] returns 1 if no label is numeric, and otherwise the
    value of one of the numeric labels that no other exceeds. *)
Theorem detect_max_pages_is_maximum (soup pag : node) :
  select_one soup sel_pagination = Some pag ->
  (forall a, In a (find_all pag (str "a")) ->
             isdigit (strip (get_text a)) = true ->
             all_of isdecimal (strip (get_text a)) /\
             within_limit (strip (get_text a))) ->
  let labels :=
    filter isdigit
      (List.map (fun a => strip (get_text a)) (find_all pag (str "a"))) in
  exists m,
    detect_max_pages soup = Ret m /\
    (labels = [] -> m = 1%Z) /\
    (labels <> [] ->
       (exists t, In t labels /\ py_int t = Ret m) /\
       (forall t z, In t labels -> py_int t = Ret z -> (z <= m)%Z)).
Proof.
  intros Hp Hl labels.
  destruct (detect_max_pages_decimal _ Hp Hl) as (nums & HF & E).
  fold labels in HF.
  exists (match nums with [] => 1%Z | z :: rest => py_max z rest end).
  split; auto. split.
  - intros El. rewrite El in HF. now inversion HF.
  - intros Hne. destruct nums as [|z rest];
      [inversion HF; congruence|].
    destruct (py_max_spec rest z) as [Hin Hle]. split.
    + destruct (@Forall2_pick_r _ _ _ _ _ _ HF Hin) as (t & Ht & Hi). eauto.
    + intros t z' Ht Hz'.
      destruct (@Forall2_pick_l _ _ _ _ _ _ HF Ht) as (z'' & Hz'' & Hi).
      rewrite Hi in Hz'. inversion Hz'; subst. now apply Hle.
Qed.

Lemma detect_max_pages_is_maximum_witness :
  exists m,
    detect_max_pages pagination_doc = Ret m /\
    (List.map str ["1"; "2"; "5"]%string = [] -> m = 1%Z) /\
    (List.map str ["1"; "2"; "5"]%string <> [] ->
       (exists t, In t (List.map str ["1"; "2"; "5"]%string) /\
                  py_int t = Ret m) /\
       (forall t z, In t (List.map str ["1"; "2"; "5"]%string) ->
                    py_int t = Ret z -> (z <= m)%Z)).
Proof.
  refine (@detect_max_pages_is_maximum pagination_doc
            (elem "ul" "pagination"
               (List.map (fun l => elem "li" "" [link "#" [text l]])
                         ["1"; "2"; "..."; "5"]%string))
            eq_refl _).
  intros a Ha. vm_compute in Ha.
  repeat (destruct Ha as [<- | Ha];
          [vm_compute; intros; split; congruence|]).
  destruct Ha.
Defined.

(** ** Page parsers *)

(** X9.  Each of the three page parsers either returns the records of its
    containers in document order, one per container its block parser keeps,
    or raises [ValueError], which is then the error of the first container
    whose block parser raises; it returns exactly when every container is
    parsed.  No [KeyError] or other exception comes out of a page parser,
    and the legacy parser returns no record when the results table is
    missing. *)
Theorem page_parsers_in_document_order (soup : node) :
  page_loop_result parse_v4_row
    (match select_one soup
             [css (Some "table"%string) ["geekbench3-index"]%string None]
     with
     | Some table => find_all table (str "tr")
     | None => []
     end)
    (parse_v4_page soup) /\
  page_loop_result parse_v6_cpu_block (select soup sel_cards)
    (parse_v6_cpu_page soup) /\
  page_loop_result parse_v6_compute_block (select soup sel_cards)
    (parse_v6_compute_page soup).
Proof.
  split; [|split].
  - unfold parse_v4_page. destruct (select_one soup _).
    + apply (@collect_rows_result _ _ cpu_cols);
        [discriminate | apply parse_v4_row_keys].
    + simpl. auto.
  - apply (@collect_rows_result _ _ cpu_cols);
      [discriminate | apply parse_v6_cpu_block_keys].
  - apply (@collect_rows_result _ _ gpu_cols);
      [discriminate | apply parse_v6_compute_block_keys].
Qed.

Lemma records_of_In parse (xs : list node) (d : dict) :
  In d (records_of parse xs) -> exists x, In x xs /\ parse x = Ret (Some d).
Proof.
  unfold records_of. intros H. apply in_flat_map in H as (x & Hx & H).
  exists x. split; auto.
  destruct (parse x) as [[d'|]|]; simpl in H; try contradiction.
  destruct H as [<- | []]. reflexivity.
Qed.

Lemma project_own_keys (d : dict) :
  NoDup (keys d) -> project_row (keys d) d = d.
Proof.
  unfold project_row, keys. induction d as [|[k v] d IH]; intros Hnd; auto.
  simpl in *. inversion Hnd as [|? ? Hk Hnd']; subst.
  unfold cell at 1. simpl. rewrite pystr_eqb_refl. f_equal.
  rewrite <- (IH Hnd') at 2. apply map_ext_in. intros c Hc.
  unfold cell. simpl. destruct (pystr_eqb k c) eqn:E; auto.
  apply pystr_eqb_eq in E. subst. contradiction.
Qed.

Lemma NoDup_cols : NoDup cpu_cols /\ NoDup gpu_cols.
Proof.
  split; repeat (constructor; [simpl; intuition discriminate|]);
    constructor.
Qed.

(** X10.  Every record a page parser returns has exactly the eleven columns
    of the driver's column list for that mode, in that order; projecting it
    on the list changes nothing, so the null fill never touches a record. *)
Theorem record_keys_are_mode_columns (mode : pystr) (soup : node)
  (l : list dict) (d : dict) :
  parse_page mode soup = Ret l -> In d l ->
  keys d = mode_cols mode /\ project_row (mode_cols mode) d = d.
Proof.
  intros H Hd.
  pose proof (@page_record_keys _ _ _ _ H Hd) as Hk.
  split; auto. rewrite <- Hk. apply project_own_keys. rewrite Hk.
  unfold mode_cols. destruct (pystr_eqb _ _); apply NoDup_cols.
Qed.

Lemma record_keys_are_mode_columns_witness :
  keys compute_record = mode_cols (str "v6-compute") /\
  project_row (mode_cols (str "v6-compute")) compute_record = compute_record.
Proof.
  apply (@record_keys_are_mode_columns (str "v6-compute") compute_doc
           [compute_record] compute_record).
  - vm_compute. reflexivity.
  - now left.
Defined.

(** ** The result link of a card *)

Lemma card_link_href (prefix : string) (inner a : node) :
  card_link prefix inner = Some a ->
  startswith (href a) (str prefix) = true.
Proof.
  unfold card_link, sub, href. intros H.
  destruct (select_one inner sel_sys_col) as [sys_col|]; [|discriminate].
  destruct (select_one_link _ _ H) as (v & -> & Hv). exact Hv.
Qed.

Lemma startswith_nonempty (u p : pystr) :
  p <> [] -> startswith u p = true -> u <> [].
Proof. destruct p; [congruence|]. destruct u; simpl; congruence. Qed.

(** The final test of a card block, given what the left column found. *)
Lemma card_block_link (prefix : string) (inner : node) (d1 : dict)
  (r : option dict) :
  str prefix <> [] ->
  dict_get d1 (str "System") = Some (VStr (_text (card_link prefix inner))) ->
  dict_get d1 (str "Result URL")
  = Some (VStr (match card_link prefix inner with
                | Some a => href a
                | None => []
                end)) ->
  finish_block d1 = Ret r ->
  (r = None <-> card_link prefix inner = None) /\
  (forall d, r = Some d ->
     exists a, card_link prefix inner = Some a /\
               dict_get d (str "System") = Some (VStr (_text (Some a))) /\
               dict_get d (str "Result URL") = Some (VStr (href a)) /\
               startswith (href a) (str prefix) = true).
Proof.
  intros Hp Hs Hu H. unfold finish_block, getitem in H.
  rewrite Hs, Hu in H. cbn [rbind] in H.
  destruct (card_link prefix inner) as [a|] eqn:El.
  - pose proof (card_link_href _ _ El) as Hpre.
    pose proof (startswith_nonempty Hp Hpre) as Hne.
    assert (Hr : r = Some d1).
    { destruct (truthy (VStr (_text (Some a)))); simpl in H;
        [now inversion H|].
      destruct (href a); [congruence|]. simpl in H. now inversion H. }
    subst r. split; [split; discriminate|].
    intros d E. inversion E; subst d. exists a. auto.
  - simpl in H. inversion H; subst r. split; [tauto|]. discriminate.
Qed.

(** X11.  A card parser keeps a card exactly when its left column has the
    result link, an [a] whose [href] starts with the parser's own prefix
    ([/v6/cpu/] or [/v6/compute/]).  The record's result link is then that
    [href] and its system name the text of that link, so every record of a
    card page carries a result link with the prefix. *)
Theorem card_result_url_prefix :
  (forall inner r, parse_v6_cpu_block inner = Ret r ->
     (r = None <-> card_link "/v6/cpu/" inner = None) /\
     (forall d, r = Some d ->
        exists a, card_link "/v6/cpu/" inner = Some a /\
                  dict_get d (str "System") = Some (VStr (_text (Some a))) /\
                  dict_get d (str "Result URL") = Some (VStr (href a)) /\
                  startswith (href a) (str "/v6/cpu/") = true)) /\
  (forall inner r, parse_v6_compute_block inner = Ret r ->
     (r = None <-> card_link "/v6/compute/" inner = None) /\
     (forall d, r = Some d ->
        exists a, card_link "/v6/compute/" inner = Some a /\
                  dict_get d (str "System") = Some (VStr (_text (Some a))) /\
                  dict_get d (str "Result URL") = Some (VStr (href a)) /\
                  startswith (href a) (str "/v6/compute/") = true)) /\
  (forall soup l d, parse_v6_cpu_page soup = Ret l -> In d l ->
     exists u, dict_get d (str "Result URL") = Some (VStr u) /\
               startswith u (str "/v6/cpu/") = true) /\
  (forall soup l d, parse_v6_compute_page soup = Ret l -> In d l ->
     exists u, dict_get d (str "Result URL") = Some (VStr u) /\
               startswith u (str "/v6/compute/") = true).
Proof.
  assert (Hcpu : forall inner r, parse_v6_cpu_block inner = Ret r ->
     (r = None <-> card_link "/v6/cpu/" inner = None) /\
     (forall d, r = Some d ->
        exists a, card_link "/v6/cpu/" inner = Some a /\
                  dict_get d (str "System") = Some (VStr (_text (Some a))) /\
                  dict_get d (str "Result URL") = Some (VStr (href a)) /\
                  startswith (href a) (str "/v6/cpu/") = true)).
  { intros inner r H. unfold parse_v6_cpu_block in H.
    apply rbind_ret in H as (d0 & H0 & H).
    apply rbind_ret in H as (d1 & H1 & H).
    destruct (left_column_text _ _ _ H0 eq_refl eq_refl eq_refl)
      as (Hs & Hu & _).
    apply (@card_block_link "/v6/cpu/" inner d1 r); auto; try discriminate.
    - rewrite <- Hs. apply (@fold_unchanged cpu_column (str "System"))
        with (2 := H1).
      intros s s' x Hx. apply (@cpu_column_frame _ _ _ _ Hx). reflexivity.
    - rewrite <- Hu. apply (@fold_unchanged cpu_column (str "Result URL"))
        with (2 := H1).
      intros s s' x Hx. apply (@cpu_column_frame _ _ _ _ Hx). reflexivity. }
  assert (Hgpu : forall inner r, parse_v6_compute_block inner = Ret r ->
     (r = None <-> card_link "/v6/compute/" inner = None) /\
     (forall d, r = Some d ->
        exists a, card_link "/v6/compute/" inner = Some a /\
                  dict_get d (str "System") = Some (VStr (_text (Some a))) /\
                  dict_get d (str "Result URL") = Some (VStr (href a)) /\
                  startswith (href a) (str "/v6/compute/") = true)).
  { intros inner r H. unfold parse_v6_compute_block in H.
    apply rbind_ret in H as (d0 & H0 & H).
    apply rbind_ret in H as (d1 & H1 & H).
    destruct (left_column_text _ _ _ H0 eq_refl eq_refl eq_refl)
      as (Hs & Hu & _).
    apply (@card_block_link "/v6/compute/" inner d1 r); auto;
      try discriminate.
    - rewrite <- Hs. apply (@fold_unchanged compute_column (str "System"))
        with (2 := H1).
      intros s s' x Hx. apply (@compute_column_frame _ _ _ _ Hx). reflexivity.
    - rewrite <- Hu.
      apply (@fold_unchanged compute_column (str "Result URL"))
        with (2 := H1).
      intros s s' x Hx. apply (@compute_column_frame _ _ _ _ Hx). reflexivity. }
  split; [exact Hcpu|]. split; [exact Hgpu|].
  split; intros soup l d H Hd;
    destruct (@collect_rows_In _ _ _ _ H Hd) as (x & _ & Hx).
  - destruct (Hcpu _ _ Hx) as [_ Hk].
    destruct (Hk d eq_refl) as (a & _ & _ & Hu & Hp). eauto.
  - destruct (Hgpu _ _ Hx) as [_ Hk].
    destruct (Hk d eq_refl) as (a & _ & _ & Hu & Hp). eauto.
Qed.

Lemma card_result_url_prefix_witness :
  exists u, dict_get compute_record (str "Result URL") = Some (VStr u) /\
            startswith u (str "/v6/compute/") = true.
Proof.
  apply (proj2 (proj2 (proj2 card_result_url_prefix))
           compute_doc [compute_record] compute_record).
  - vm_compute. reflexivity.
  - now left.
Defined.

(** ** Runs of the driver *)

Section Runs.
Variable server : nat -> pystr -> reply.

Lemma get_soup_first_try (url : pystr) (w : world) (doc : node) :
  server (List.length (requests w)) url = Reply 200 doc ->
  get_soup server url w
  = (Ret (Some doc), World (requests w ++ [url]) (slept w) (written w)).
Proof.
  intros E. unfold get_soup. rewrite range_0_3. cbn [get_soup_loop].
  unfold mbind, session_get. rewrite E. reflexivity.
Qed.

End Runs.

Section Failures.
Variable server : nat -> pystr -> reply.
Context {pandas : Pandas}.
Variable stdout : nat -> pystr -> option exn.




End Failures.

Section Quiet.
Variable server : nat -> pystr -> reply.
Context {pandas : Pandas}.

(** On a standard output that takes every line the page loop with its
    prints does what the page loop without them does. *)
Lemma scrape_pages_quiet (base mode : pystr) (pages : Z)
  (first : option node) (sl : Q) (ps : list Z) :
  forall acc n w,
  (let '(r, w') :=
     fold_M (scrape_page_out server quiet_stdout base mode pages first sl)
            (acc, n) ps w in
   (match r with Ret st => Ret (fst st) | Raise e => Raise e end, w'))
  = fold_M (scrape_page server base mode first sl) acc ps w.
Proof.
  induction ps as [|p ps IH]; intros acc n w; [reflexivity|].
  cbn [fold_M].
  set (K1 := fold_M (scrape_page_out server quiet_stdout base mode pages
                                     first sl)) in *.
  set (K2 := fold_M (scrape_page server base mode first sl)) in *.
  unfold scrape_page_out, scrape_page, mbind, print, quiet_stdout, lift.
  cbn [fst snd].
  destruct ((if (p =? 1)%Z then mret first
             else get_soup server (page_url base p)) w)
    as [[soup | e] w1]; [|reflexivity].
  destruct (rbind (deref soup) _) as [rows | e]; [|reflexivity].
  destruct rows as [|d rows]; unfold mret, sleep; apply IH.
Qed.

(** [scrape] is [scrape_out] on a standard output that takes every
    line. *)
Lemma scrape_out_quiet (base : pystr) (max_pages : option Z)
  (out_csv : pystr) (sleep_s : Q) (w : world) :
  scrape_out server quiet_stdout base max_pages out_csv sleep_s w
  = scrape server base max_pages out_csv sleep_s w.
Proof.
  unfold scrape_out, scrape. unfold mbind, print, quiet_stdout, lift.
  destruct (get_soup server (page_url base 1) w) as [[first | e] w1];
    [|reflexivity].
  destruct (rbind (deref first) _) as [detected | e]; [|reflexivity].
  cbv zeta.
  destruct (select_mode base) as [mode | e]; [|reflexivity].
  match goal with
  | |- context [fold_M (scrape_page server base mode first sleep_s) [] ?ps w1] =>
      rewrite <- (scrape_pages_quiet base mode
                    (match max_pages with
                     | Some m => if truthy (VInt m) && (0 <? m)%Z
                                 then m else detected
                     | None => detected
                     end) first sleep_s ps [] 1 w1)
  end.
  destruct (fold_M (scrape_page_out _ _ _ _ _ _ _) _ _ w1)
    as [[st | e] w2]; [|reflexivity].
  cbn [fst].
  destruct (DataFrame_of (fst st)) as [df0 | e]; [|reflexivity].
  destruct (df_getitem _ _) as [df | e]; [|reflexivity].
  reflexivity.
Qed.
End Quiet.


Section Visits.
Variable server : nat -> pystr -> reply.
Context {pandas : Pandas}.
Hypothesis server_ok : always_ok server.

(** On a site that always answers 200, the pages of the loop other than
    page 1 cost one request each, and every page one pause. *)
Lemma scrape_pages_visits (base mode : pystr) (first : option node) (sl : Q)
  (ps : list Z) :
  (forall p, In p ps -> p <> 1%Z) ->
  forall acc w all_rows w',
  fold_M (scrape_page server base mode first sl) acc ps w
  = (Ret all_rows, w') ->
  requests w' = requests w ++ List.map (page_url base) ps /\
  slept w' = slept w ++ repeat sl (List.length ps).
Proof.
  induction ps as [|p ps IH]; intros Hps acc w all_rows w' H; simpl in H.
  - unfold mret in H. inversion H; subst. simpl. now rewrite !app_nil_r.
  - apply mbind_ret in H as (acc1 & w1 & Hp & H).
    apply IH in H as [Hr Hs]; [|intros; apply Hps; now right].
    unfold scrape_page in Hp.
    assert (Hne : (p =? 1)%Z = false)
      by (apply Z.eqb_neq, Hps; now left).
    rewrite Hne in Hp.
    destruct (server_ok (List.length (requests w)) (page_url base p))
      as [body Hb].
    unfold mbind at 1 in Hp. rewrite (get_soup_first_try _ _ _ Hb) in Hp.
    apply mbind_ret in Hp as (rs & w2 & Hrs & Hp).
    apply lift_ret in Hrs as [_ ->].
    unfold mbind, sleep, mret in Hp. inversion Hp; subst. simpl in *.
    rewrite Hr, Hs, <- !app_assoc. auto.
Qed.

(** X13.  On a site that always answers 200, a run that ends normally has
    requested page 1 exactly once (the document is reused by the loop),
    then pages 2 to the page count once each and in order, and has paused
    once per page for the configured delay.  The page count is the
    override when positive, else what the detector found on page 1. *)
Theorem scrape_visits_each_page_once
  (base : pystr) (max_pages : option Z) (out_csv : pystr) (sleep_s : Q)
  (w w' : world) (df : DataFrame) :
  scrape server base max_pages out_csv sleep_s w = (Ret df, w') ->
  exists first detected,
    server (List.length (requests w)) (page_url base 1) = Reply 200 first /\
    detect_max_pages first = Ret detected /\
    let pages := page_count max_pages detected in
    requests w'
    = requests w
      ++ page_url base 1 :: List.map (page_url base) (range 2 (pages + 1)) /\
    slept w' = slept w ++ repeat sleep_s (Z.to_nat pages).
Proof.
  unfold scrape. intros H.
  destruct (server_ok (List.length (requests w)) (page_url base 1))
    as [first Hf].
  unfold mbind at 1 in H. rewrite (get_soup_first_try _ _ _ Hf) in H.
  apply mbind_ret in H as (detected & w2 & Hdet & H).
  apply lift_ret in Hdet as [Hdet ->]. simpl in Hdet.
  apply mbind_ret in H as (mode & w3 & Hmode & H).
  apply lift_ret in Hmode as [_ ->].
  apply mbind_ret in H as (all_rows & w4 & Hloop & H).
  cbv zeta in H.
  apply mbind_ret in H as (df0 & w5 & Hdf0 & H).
  apply lift_ret in Hdf0 as [Hdf0 ->].
  rewrite (@frame_projection _ _ _ _ Hdf0) in H.
  unfold mbind, lift, to_csv, mret in H. inversion H; subst. clear H.
  exists first, detected. split; auto. split; auto. cbv zeta.
  fold (page_count max_pages detected) in Hloop.
  set (pages := page_count max_pages detected) in *. simpl.
  destruct (Z_lt_le_dec 0 pages) as [Hpos | Hnon].
  - rewrite (range_cons (a := 1) (b := pages + 1)) in Hloop by lia.
    simpl in Hloop.
    apply mbind_ret in Hloop as (acc1 & w5 & Hp & Hloop).
    change (1 + 1)%Z with 2%Z in Hloop.
    apply scrape_pages_visits in Hloop as [Hr Hs];
      [|intros p Hp'; apply range_lower in Hp'; lia].
    unfold scrape_page in Hp. simpl in Hp.
    apply mbind_ret in Hp as (soup & w6 & Hsoup & Hp).
    unfold mret in Hsoup. inversion Hsoup; subst. clear Hsoup.
    apply mbind_ret in Hp as (rs & w7 & Hrs & Hp).
    apply lift_ret in Hrs as [_ ->].
    unfold mbind, sleep, mret in Hp. inversion Hp; subst. simpl in *.
    rewrite Hr, Hs, range_length, <- !app_assoc. split; auto.
    f_equal. replace (Z.to_nat pages) with (S (Z.to_nat (pages + 1 - 2)))
      by lia. reflexivity.
  - rewrite (range_empty (a := 1) (b := pages + 1)) in Hloop by lia.
    simpl in Hloop. unfold mret in Hloop. inversion Hloop; subst.
    rewrite (range_empty (a := 2) (b := pages + 1)) by lia. simpl.
    replace (Z.to_nat pages) with 0%nat by lia. simpl.
    now rewrite app_nil_r.
Qed.
End Visits.

Lemma sample_server_ok : always_ok sample_server.
Proof. intros n url. exists legacy_doc. reflexivity. Qed.

Lemma scrape_visits_each_page_once_witness :
  exists first detected,
    sample_server (List.length (requests world0)) (page_url sample_base 1)
    = Reply 200 first /\
    detect_max_pages first = Ret detected /\
    let pages := page_count (Some 2%Z) detected in
    requests sample_world
    = requests world0
      ++ page_url sample_base 1
         :: List.map (page_url sample_base) (range 2 (pages + 1)) /\
    slept sample_world = slept world0 ++ repeat (1 # 2) (Z.to_nat pages).
Proof.
  apply (@scrape_visits_each_page_once sample_server sample_pandas
           sample_server_ok sample_base (Some 2%Z) (str "out.csv") (1 # 2) world0
           sample_world sample_frame).
  vm_compute. reflexivity.
Defined.

(** ** The frame, for any records *)

Section AnyRecords.
Context {pandas : Pandas}.

(** X14.  For any list of records and any column list: [DataFrame(records)]
    raises nothing but what pandas' inference of one of its columns raises.
    When it returns, the null fill followed by the projection never raises
    [KeyError]; the table has the column list as its header and one line
    per record, in order.  A cell is what pandas stores for the record's
    value in a column that some record has, and a null in a column the loop
    filled in ([value_at]); a key outside the list is dropped.  With no
    record only the header is left. *)
Theorem null_fill_then_projection (records : list dict) (cols : list pystr) :
  (forall e, DataFrame_of records = Raise e ->
     exists c, In c (union_keys records) /\
               inference_error (column_of records c) = Some e) /\
  (forall df0, DataFrame_of records = Ret df0 ->
     exists df,
       df_getitem (fill_missing cols df0) cols = Ret df /\
       header (csv_of df) = cols /\
       lines (csv_of df)
       = List.map (fun r => List.map (value_at records r) cols) records /\
       List.length (lines (csv_of df)) = List.length records /\
       (records = [] -> csv_of df = Csv cols [])).
Proof.
  split; [apply DataFrame_of_raises|].
  intros df0 H0. eexists. split; [apply (@frame_projection _ _ cols _ H0)|]. simpl.
  split; auto. split; [|split].
  - rewrite map_map. apply map_ext. intros r. now rewrite map_map.
  - now rewrite !length_map.
  - intros ->. reflexivity.
Qed.
End AnyRecords.

(** ** Page URLs *)

Lemma str_inj (a b : string) : str a = str b -> a = b.
Proof.
  unfold str. intros H.
  rewrite <- (string_of_list_ascii_of_string a),
          <- (string_of_list_ascii_of_string b).
  f_equal. revert H.
  generalize (list_ascii_of_string a) (list_ascii_of_string b).
  induction l as [|x l IH]; intros [|y l']; simpl; intros H;
    try discriminate; auto.
  inversion H as [[Hx Hl]]. f_equal; auto.
  rewrite <- (ascii_N_embedding x), <- (ascii_N_embedding y). now rewrite Hx.
Qed.

Lemma str_of_int_inj (p q : Z) : str_of_int p = str_of_int q -> p = q.
Proof.
  unfold str_of_int. intros H. apply str_inj in H.
  apply DecimalZ.to_int_inj.
  assert (Hn : forall z, Z.to_int z <> Decimal.Pos Decimal.Nil /\
                         Z.to_int z <> Decimal.Neg Decimal.Nil).
  { intros [|x|x]; simpl; split; try discriminate; intros E;
      inversion E as [E']; now apply DecimalPos.Unsigned.to_uint_nonnil in E'. }
  destruct (Hn p) as [Hp1 Hp2]. destruct (Hn q) as [Hq1 Hq2].
  pose proof (@NilZero.isi _ Hp1 Hp2) as Ep.
  pose proof (@NilZero.isi _ Hq1 Hq2) as Eq.
  rewrite H in Ep. rewrite Ep in Eq. now inversion Eq.
Qed.

(** X15.  [page_url] appends [?page=] and the page number in decimal to the
    base, unchanged; two different page numbers never give the same URL. *)
Theorem page_url_injective (base : pystr) (p q : Z) :
  startswith (page_url base p) base = true /\
  (page_url base p = page_url base q -> p = q).
Proof.
  split.
  - unfold page_url. induction base as [|c base IH]; simpl; auto.
    now rewrite N.eqb_refl.
  - unfold page_url. intros H. apply app_inv_head in H.
    apply app_inv_head in H. now apply str_of_int_inj.
Qed.

(** ** Text fields are normalized *)

Lemma normalized_nil : normalized [].
Proof. split; reflexivity. Qed.

Lemma text_normalized (el : option node) : normalized (_text el).
Proof.
  destruct el; simpl; [apply oneline_normal | apply normalized_nil].
Qed.

Ltac normal :=
  first [ apply oneline_normal | apply text_normalized
        | apply normalized_nil | assumption ].

Section TextFields.
Variable P : pystr -> Prop.
Variable ks : list pystr.

Lemma text_fields_set_str (d : dict) (k s : pystr) :
  P s -> text_fields P ks d -> text_fields P ks (dict_set d k (VStr s)).
Proof.
  intros Hs Hd k' Hk'. rewrite dict_get_set.
  destruct (pystr_eqb k k'); eauto.
Qed.

Lemma text_fields_set_other (d : dict) (k : pystr) (v : pyval) :
  mem k ks = false -> text_fields P ks d -> text_fields P ks (dict_set d k v).
Proof.
  intros Hm Hd k' Hk'. rewrite dict_get_set.
  destruct (pystr_eqb k k') eqn:E; eauto.
  apply pystr_eqb_eq in E; subst. congruence.
Qed.
End TextFields.

Section NormalizedFields.
Variable ks : list pystr.
Hypothesis no_url : mem (str "Result URL") ks = false.
Hypothesis no_mhz : mem (str "Frequency_MHz") ks = false.
Hypothesis no_cores : mem (str "Cores") ks = false.

Lemma left_column_normalized (prefix : string) (inner : node) (d d' : dict) :
  text_fields normalized ks d -> left_column prefix inner d = Ret d' ->
  text_fields normalized ks d'.
Proof.
  unfold left_column. intros Hd H.
  destruct (select_one inner sel_sys_col) as [sys_col|];
    [|inversion H; subst; auto].
  apply rbind_ret in H as (d1 & H1 & H).
  assert (Hd1 : text_fields normalized ks d1).
  { destruct (select_one sys_col _) as [a|]; [|inversion H1; subst; auto].
    apply rbind_ret in H1 as (href & _ & H1). inversion H1; subst.
    apply text_fields_set_other; [assumption|].
    apply text_fields_set_str; auto. normal. }
  destruct (select_one sys_col sel_model) as [model|];
    [|inversion H; subst; auto].
  apply rbind_ret in H as (cores & _ & H). inversion H; subst.
  destruct cores; destruct (mhz_match _);
    repeat (apply text_fields_set_other; [assumption|]);
    apply text_fields_set_str; auto; normal.
Qed.
End NormalizedFields.

Lemma cpu_column_normalized (d d' : dict) (col : node) :
  text_fields normalized cpu_page_text_keys d -> cpu_column d col = Ret d' ->
  text_fields normalized cpu_page_text_keys d'.
Proof.
  unfold cpu_column. intros Hd H.
  destruct (select_one col sel_label) as [label|];
    [|inversion H; subst; auto].
  generalize dependent (_text (Some label)); intros key H.
  destruct (in_strs key ["Uploaded"; "Platform"]%string).
  - destruct (pystr_eqb key (str "Uploaded"));
      [destruct (select_one col sel_user)|]; inversion H; subst;
      repeat (apply text_fields_set_str; [normal|]); auto.
  - destruct (in_strs key ["Single-Core Score"; "Multi-Core Score"]%string);
      [|inversion H; subst; auto].
    apply rbind_ret in H as (iv & _ & H).
    destruct (pystr_eqb key (str "Single-Core Score")); inversion H; subst;
      apply text_fields_set_other; auto.
Qed.

Lemma compute_column_normalized (d d' : dict) (col : node) :
  text_fields normalized gpu_page_text_keys d ->
  compute_column d col = Ret d' ->
  text_fields normalized gpu_page_text_keys d'.
Proof.
  unfold compute_column. intros Hd H.
  destruct (select_one col sel_label) as [label|];
    [|inversion H; subst; auto].
  pose proof (text_normalized (Some label)) as Hl.
  generalize dependent (_text (Some label)); intros key H Hl.
  destruct (in_strs key ["Uploaded"; "Platform"; "API"]%string).
  - destruct (pystr_eqb key (str "API")); inversion H; subst;
      apply text_fields_set_str; auto; normal.
  - destruct (endswith key (str "Score")); [|inversion H; subst; auto].
    apply rbind_ret in H as (iv & _ & H). inversion H; subst.
    apply text_fields_set_other; auto. apply text_fields_set_str; auto.
Qed.

Lemma data0_normalized :
  text_fields normalized cpu_page_text_keys cpu_data0 /\
  text_fields normalized gpu_page_text_keys compute_data0.
Proof.
  split; intros k Hk; apply mem_In in Hk; simpl in Hk;
    repeat (destruct Hk as [<- | Hk];
            [exists []; split; [reflexivity | apply normalized_nil]|]);
    contradiction.
Qed.

Lemma parse_v4_row_normalized (tr : node) (d : dict) :
  parse_v4_row tr = Ret (Some d) ->
  text_fields normalized cpu_page_text_keys d.
Proof.
  unfold parse_v4_row. intros H.
  destruct (find_all tr (str "td"))
    as [|td0 [|td1 [|td2 [|td3 [|td4 [|td5 [|? ?]]]]]]]; try discriminate.
  destruct (find_class td0 _ _); [|discriminate].
  apply rbind_ret in H as ([[det mhz] cores] & Hdmc & H).
  apply rbind_ret in H as (single & _ & H).
  apply rbind_ret in H as (multi & _ & H). inversion H; subst. clear H.
  assert (Hdet : normalized det).
  { destruct (find td1 (str "span")) as [sp|].
    - apply rbind_ret in Hdmc as (c & _ & Hdmc). inversion Hdmc; subst.
      apply oneline_normal.
    - inversion Hdmc; subst. apply normalized_nil. }
  intros k Hk. apply mem_In in Hk. simpl in Hk.
  destruct Hk as [<- | [<- | [<- | [<- | [<- | []]]]]];
    (eexists; split; [reflexivity|]); auto;
    try apply oneline_normal.
  destruct (find td3 (str "a")); [apply oneline_normal|].
  apply normalized_nil.
Qed.

(** X16.  In every record of the three page parsers, the fields read from
    page text (upload time, system name, model line, platform, and user or
    API and score label) are strings in [oneline]'s normal form: trimmed,
    with single spaces only.  The result link is the attribute as written
    and is not among them. *)
Theorem page_text_fields_normalized (soup : node) (l : list dict) (d : dict) :
  (parse_v4_page soup = Ret l -> In d l ->
   text_fields normalized cpu_page_text_keys d) /\
  (parse_v6_cpu_page soup = Ret l -> In d l ->
   text_fields normalized cpu_page_text_keys d) /\
  (parse_v6_compute_page soup = Ret l -> In d l ->
   text_fields normalized gpu_page_text_keys d).
Proof.
  split; [|split]; intros H Hd.
  - unfold parse_v4_page in H.
    destruct (select_one soup _); [|inversion H; subst; destruct Hd].
    destruct (@collect_rows_In _ _ _ _ H Hd) as (x & _ & Hx).
    eapply parse_v4_row_normalized; eauto.
  - destruct (@collect_rows_In _ _ _ _ H Hd) as (x & _ & Hx).
    unfold parse_v6_cpu_block in Hx.
    apply rbind_ret in Hx as (d0 & H0 & Hx).
    apply rbind_ret in Hx as (d1 & H1 & Hx).
    apply finish_block_ok in Hx as [-> _].
    apply (@fold_res_inv _ _ cpu_column
             (text_fields normalized cpu_page_text_keys)
             (select x sel_stat_col)) with (3 := H1).
    + intros s c s' _. apply cpu_column_normalized.
    + eapply left_column_normalized; [..|exact H0]; try reflexivity.
      apply data0_normalized.
  - destruct (@collect_rows_In _ _ _ _ H Hd) as (x & _ & Hx).
    unfold parse_v6_compute_block in Hx.
    apply rbind_ret in Hx as (d0 & H0 & Hx).
    apply rbind_ret in Hx as (d1 & H1 & Hx).
    apply finish_block_ok in Hx as [-> _].
    apply (@fold_res_inv _ _ compute_column
             (text_fields normalized gpu_page_text_keys)
             (select x sel_stat_col)) with (3 := H1).
    + intros s c s' _. apply compute_column_normalized.
    + eapply left_column_normalized; [..|exact H0]; try reflexivity.
      apply data0_normalized.
Qed.

Lemma page_text_fields_normalized_witness :
  text_fields normalized gpu_page_text_keys compute_record.
Proof.
  apply (proj2 (proj2 (page_text_fields_normalized compute_doc
                         [compute_record] compute_record))).
  - vm_compute. reflexivity.
  - now left.
Defined.

Section Transport.
Variable server : nat -> pystr -> reply.

(** X17.  A transport failure is never retried: [get_soup] raises the
    connection error exactly when [session.get] fails at the first attempt,
    or at a later one reached through answers with statuses other than 200,
    and it stops there, with no further request and no further pause. *)
Theorem get_soup_transport_failure (url : pystr) (w w' : world) :
  let n := List.length (requests w) in
  get_soup server url w = (Raise ConnectionError, w') <->
  (server n url = NoReply /\
   w' = World (requests w ++ [url]) (slept w) (written w)) \/
  (exists st1 b1,
     server n url = Reply st1 b1 /\ st1 <> 200%Z /\
     server (S n) url = NoReply /\
     w' = World (requests w ++ [url; url]) (slept w ++ [inject_Z 1])
                (written w)) \/
  (exists st1 b1 st2 b2,
     server n url = Reply st1 b1 /\ st1 <> 200%Z /\
     server (S n) url = Reply st2 b2 /\ st2 <> 200%Z /\
     server (S (S n)) url = NoReply /\
     w' = World (requests w ++ [url; url; url])
                (slept w ++ [inject_Z 1; inject_Z 2]) (written w)).
Proof.
  intros n. unfold get_soup. rewrite range_0_3. cbn [get_soup_loop].
  unfold mbind, session_get, sleep, mret, lift. cbn. fold n.
  destruct (server n url) as [st1 b1|] eqn:E1; cbn.
  2:{ split.
      - intros H. inversion H; subst. left. auto.
      - intros [[_ ->] | [(? & ? & H & _) | (? & ? & ? & ? & H & _)]];
          [reflexivity | discriminate | discriminate]. }
  destruct (st1 =? 200)%Z eqn:H1; cbn.
  { apply Z.eqb_eq in H1. subst st1. split; [discriminate|].
    intros [[H _] | [(? & ? & H & Hne & _) | (? & ? & ? & ? & H & Hne & _)]];
      inversion H; subst; congruence. }
  apply Z.eqb_neq in H1.
  rewrite length_app, Nat.add_1_r. fold n.
  destruct (server (S n) url) as [st2 b2|] eqn:E2; cbn.
  2:{ split.
      - intros H. inversion H; subst. right; left.
        exists st1, b1. rewrite <- app_assoc. auto.
      - intros [[H _] | [(? & ? & _ & _ & _ & ->) |
                         (? & ? & ? & ? & _ & _ & H & _)]];
          [discriminate | now rewrite <- app_assoc | discriminate]. }
  destruct (st2 =? 200)%Z eqn:H2; cbn.
  { apply Z.eqb_eq in H2. subst st2. split; [discriminate|].
    intros [[H _] | [(? & ? & _ & _ & H & _) |
                     (? & ? & ? & ? & _ & _ & H & Hne & _)]];
      inversion H; subst; congruence. }
  apply Z.eqb_neq in H2.
  rewrite !length_app, !Nat.add_1_r. fold n.
  destruct (server (S (S n)) url) as [st3 b3|] eqn:E3; cbn.
  2:{ split.
      - intros H. inversion H; subst. right; right.
        exists st1, b1, st2, b2. rewrite <- !app_assoc. auto 10.
      - intros [[H _] | [(? & ? & _ & _ & H & _) |
                         (? & ? & ? & ? & _ & _ & _ & _ & _ & ->)]];
          [discriminate | discriminate | now rewrite <- !app_assoc]. }
  split.
  - destruct (st3 =? 200)%Z; cbn; [discriminate|].
    unfold raise_for_status. destruct (_ && _); cbn; discriminate.
  - intros [[H _] | [(? & ? & _ & _ & H & _) |
                     (? & ? & ? & ? & _ & _ & _ & _ & H & _)]];
      discriminate.
Qed.
End Transport.

Lemma get_soup_transport_failure_witness :
  get_soup dead_server (str "u") world0
  = (Raise ConnectionError, World [str "u"] [] []).
Proof.
  apply (proj2 (@get_soup_transport_failure dead_server (str "u") world0 _)).
  left. split; reflexivity.
Defined.

